(** * chatPDF: the Flask handlers and the viewer's zoom state of [app.py]

    A shallow embedding of the request handlers of [src/app.py]
    ([allowed_file], [index], [upload_file], [view_pdf], [serve_pdf], [chat])
    and of the viewer script embedded in [VIEWER_TEMPLATE]: the zoom
    functions ([zoomIn], [zoomOut], [resetZoom], [updateZoomLevel]), the
    page machinery ([renderPage], [nextPage], [prevPage] and the wheel,
    scroll, key and mouse listeners) and the chat panel ([sendMessage] and
    the handlers of its reply, [clearChat]).

    Conventions of the embedding.
    - A Python [str] is a Rocq [string]; every [ascii] is one character
      (a code point below 256).  [len], slicing, [split], [join], [lower]
      and [in] act character by character.  The fixed reply texts of the
      source are copied verbatim; no string operation is ever applied to them.
    - [chat] is modelled twice.  [ChatRequest.chat] is the handler from its
      first line, on whatever [request.get_json()] yields: any JSON value,
      [Json.json], or an exception.  [Chat.chat] is the same handler on the
      bodies of the shape the viewer posts: a JSON object whose [history],
      if present, is a list of messages and whose [context], if present, is
      an object of JSON scalars, [Chat.pyval].  The two agree on these
      bodies ([ChatRequestFacts.chat_of_shaped_body]).
    - [upload_file] and [index] are modelled twice in the same way:
      [Store.upload_file] and [Store.index] once [request.files] and the
      directory have been read, [StoreRequest.upload_request] and
      [StoreRequest.index_request] with the reads, which can fail.
    - A Python exception is a [Raise] in [result]; a [try]/[except] block of
      the source is a match on [result].  [print] is left out.
    - What the operating system and the libraries decide ([os.path.exists],
      [os.listdir], [os.path.getmtime], [send_from_directory], [file.save],
      [secure_filename], [uuid.uuid4], the completion API) enters as an
      argument of the handler that consults it.  Paths are POSIX paths.
    - JavaScript numbers are IEEE 754 binary64 values: [PrimFloat.float]. *)

From Stdlib Require Import ZArith Ascii String List Bool Lia PrimFloat Floats Sorted.
From stdpp Require Import base option list strings gmap pretty.

Local Open Scope nat_scope.
Set Warnings "-inexact-float,-register-all".

(* ===================================================================== *)
(** * Python strings *)
(* ===================================================================== *)

Module Py.

(** The newline and the double quote, written by their codes. *)
Definition nl : string := String "010"%char EmptyString.
Definition dquote : string := String "034"%char EmptyString.

(** [sub in s] *)
Fixpoint str_in (sub s : string) : bool :=
  String.prefix sub s ||
  match s with
  | EmptyString => false
  | String _ s' => str_in sub s'
  end.

(** [s.endswith(suffix)] *)
Fixpoint endswith (s suffix : string) : bool :=
  String.eqb s suffix ||
  match s with
  | EmptyString => false
  | String _ s' => endswith s' suffix
  end.

(** [c.lower()] for one character below 256: [A-Z] and the Latin-1
    capitals U+00C0..U+00DE (U+00D7, the multiplication sign, apart)
    move up by 32. *)
Definition lower_char (c : ascii) : ascii :=
  let n := nat_of_ascii c in
  if ((65 <=? n) && (n <=? 90)) || ((192 <=? n) && (n <=? 222) && negb (n =? 215))
  then ascii_of_nat (n + 32)
  else c.

(** [s.lower()] *)
Fixpoint lower (s : string) : string :=
  match s with
  | EmptyString => EmptyString
  | String c s' => String (lower_char c) (lower s')
  end.

(** [s.split(sep)] for a one-character separator: never empty. *)
Fixpoint split (sep : ascii) (s : string) : list string :=
  match s with
  | EmptyString => [EmptyString]
  | String c s' =>
    if Ascii.eqb c sep then EmptyString :: split sep s'
    else match split sep s' with
         | seg :: segs => String c seg :: segs
         | [] => [String c EmptyString]
         end
  end.

(** [s.rsplit(sep, 1)]: cut at the last separator, if there is one. *)
Fixpoint rsplit1 (sep : ascii) (s : string) : list string :=
  match s with
  | EmptyString => [EmptyString]
  | String c s' =>
    match rsplit1 sep s' with
    | [before; after] => [String c before; after]
    | _ => if Ascii.eqb c sep then [EmptyString; s'] else [String c s']
    end
  end.

(** [sep.join(parts)] *)
Fixpoint join (sep : string) (parts : list string) : string :=
  match parts with
  | [] => EmptyString
  | [p] => p
  | p :: rest => p +:+ sep +:+ join sep rest
  end.

(** [s[:n]] *)
Fixpoint slice_to (n : nat) (s : string) : string :=
  match n, s with
  | S n', String c s' => String c (slice_to n' s')
  | _, _ => EmptyString
  end.

(** [c.isspace()] below 256 *)
Definition is_space (c : ascii) : bool :=
  let n := nat_of_ascii c in
  ((9 <=? n) && (n <=? 13)) || ((28 <=? n) && (n <=? 32)) || (n =? 133) || (n =? 160).

Fixpoint lstrip (s : string) : string :=
  match s with
  | String c s' => if is_space c then lstrip s' else s
  | EmptyString => EmptyString
  end.

Fixpoint rstrip (s : string) : string :=
  match s with
  | String c s' =>
    match rstrip s' with
    | EmptyString => if is_space c then EmptyString else String c EmptyString
    | r => String c r
    end
  | EmptyString => EmptyString
  end.

(** [s.strip()] *)
Definition strip (s : string) : string := rstrip (lstrip s).

(** [str(n)] for an integer *)
Definition str_of_int (n : Z) : string := pretty n.

(** [l[-n:] ] on a list *)
Definition last_n {A} (n : nat) (l : list A) : list A := drop (length l - n) l.

End Py.

(* ===================================================================== *)
(** * Exceptions *)
(* ===================================================================== *)

(** The exceptions the modelled code can meet, all below [Exception]:
    the three the handlers can provoke themselves, and [LibraryError] for one
    thrown by a library or by the operating system.  [exn_text] is [str(e)]. *)
Inductive exn_class : Type :=
| AttributeError
| TypeError
| KeyError
| LibraryError.

Record exn : Type := Exn {
  exn_kind : exn_class;
  exn_text : string
}.

Inductive result (A : Type) : Type :=
| Ok (a : A)
| Raise (e : exn).
Arguments Ok {A} a.
Arguments Raise {A} e.

Definition bind {A B} (m : result A) (k : A -> result B) : result B :=
  match m with
  | Ok a => k a
  | Raise e => Raise e
  end.

Notation "x <~ m ; k" := (bind m (fun x => k))
  (at level 100, m at next level, right associativity, only parsing).

(* ===================================================================== *)
(** * HTTP surface: what a handler answers *)
(* ===================================================================== *)

Inductive url : Type :=
| RequestUrl                       (* request.url, the upload page *)
| UrlIndex                         (* url_for('index') *)
| UrlViewPdf (filename : string).  (* url_for('view_pdf', filename=...) *)

Record RecentFile : Type := {
  rf_name : string;
  rf_display_name : string;
  rf_date : float
}.

Inductive JsonBody : Type :=
| JResponse (response : string)    (* {'response': ...} *)
| JError (error : string).         (* {'error': ...} *)

Inductive Response : Type :=
| Redirect (target : url) (flashed : option string)
| RenderUpload (recent_files : list RecentFile)
| RenderViewer (filename display_name : string)
| Body (text : string) (status : Z)
| SendFile (content : list Byte.byte) (mimetype : string)
| Jsonify (body : JsonBody) (status : Z).

(* ===================================================================== *)
(** * File store and upload handler *)
(* ===================================================================== *)

Module Store.
Import Py.

Definition UPLOAD_FOLDER : string := "uploads".
Definition ALLOWED_EXTENSIONS : gset string := {[ "pdf" ]}.
Definition MAX_CONTENT_LENGTH : Z := 50 * 1024 * 1024.

(** [allowed_file]: ['.' in filename and
    filename.rsplit('.', 1)[1].lower() in ALLOWED_EXTENSIONS].  The index 1
    exists whenever the left conjunct holds ([rsplit1_index_1]). *)
Definition allowed_file (filename : string) : bool :=
  str_in "." filename &&
  match rsplit1 "." filename !! 1 with
  | Some ext => bool_decide (lower ext ∈ ALLOWED_EXTENSIONS)
  | None => false
  end.

(** [os.path.join(a, b)] (posixpath) *)
Definition os_path_join (a b : string) : string :=
  if String.prefix "/" b then b
  else if String.eqb a "" || endswith a "/" then a +:+ b
  else a +:+ "/" +:+ b.

(** The display name computed in [index] and again in [view_pdf]:
[[
    display_name = filename
    if '_' in filename and len(filename.split('_')[0]) == 36:
        display_name = '_'.join(filename.split('_')[1:])
]] *)
Definition display_name_of (filename : string) : string :=
  match split "_" filename with
  | first :: rest =>
    if str_in "_" filename && (String.length first =? 36)
    then join "_" rest
    else filename
  | [] => filename
  end.

(** [sorted(l, key=key, reverse=True)]: descending, equal keys keep their
    order. *)
Fixpoint insert_desc {A} (key : A -> float) (x : A) (l : list A) : list A :=
  match l with
  | [] => [x]
  | y :: l' =>
    if PrimFloat.ltb (key x) (key y) then y :: insert_desc key x l'
    else x :: l
  end.

Definition sorted_reverse {A} (key : A -> float) (l : list A) : list A :=
  foldr (insert_desc key) [] l.

(** The directory as the operating system shows it, when every read
    succeeds; [StoreRequest.DiskIO] is the directory whose reads can fail. *)
Record Disk : Type := {
  path_exists : string -> bool;                 (* os.path.exists *)
  listdir : string -> list string;              (* os.listdir *)
  getmtime : string -> float                    (* os.path.getmtime *)
}.

(** [index], on a directory that is read without error. *)
Definition index (disk : Disk) : Response :=
  let recent_files :=
    if path_exists disk UPLOAD_FOLDER then
      let files := listdir disk UPLOAD_FOLDER in
      let pdf_files := List.filter (fun f => endswith (lower f) ".pdf") files in
      let newest :=
        take 5 (sorted_reverse
                  (fun x => getmtime disk (os_path_join UPLOAD_FOLDER x))
                  pdf_files) in
      (fun filename =>
         let file_path := os_path_join UPLOAD_FOLDER filename in
         {| rf_name := filename;
            rf_display_name := display_name_of filename;
            rf_date := getmtime disk file_path |}) <$> newest
    else [] in
  RenderUpload recent_files.

(** An uploaded part, [request.files['file']]. *)
Record FileStorage : Type := {
  fs_filename : string;
  fs_stream : list Byte.byte
}.

(** What [file.save(file_path)] does: it writes the file, or it raises,
    possibly after having written a part of it. *)
Inductive save_outcome : Type :=
| Saved
| SaveRaised (text : string) (partial : option (list Byte.byte)).

(** [upload_file], once [request.files] has been read
    ([StoreRequest.upload_request] has the read, which [MAX_CONTENT_LENGTH]
    can make fail).  [files] are the files on disk, path to bytes;
    [secure_filename] is werkzeug's, [uuid4] the text of the fresh
    [uuid.uuid4()]. *)
Definition upload_file
    (secure_filename : string -> string) (uuid4 : string)
    (save : save_outcome)
    (files : gmap string (list Byte.byte))
    (request_files : gmap string FileStorage)
  : gmap string (list Byte.byte) * Response :=
  match request_files !! "file" with
  | None => (files, Redirect RequestUrl (Some "No file selected"))
  | Some file =>
    if String.eqb (fs_filename file) "" then
      (files, Redirect RequestUrl (Some "No file selected"))
    else if negb (String.eqb (fs_filename file) "")
            && allowed_file (fs_filename file) then
      let original_filename := secure_filename (fs_filename file) in
      let unique_filename := uuid4 +:+ "_" +:+ original_filename in
      let file_path := os_path_join UPLOAD_FOLDER unique_filename in
      match save with
      | Saved =>
        (<[file_path := fs_stream file]> files,
         Redirect (UrlViewPdf unique_filename) None)
      | SaveRaised text partial =>
        (match partial with
         | Some bytes => <[file_path := bytes]> files
         | None => files
         end,
         Redirect RequestUrl (Some ("Error uploading file: " +:+ text)))
      end
    else
      (files,
       Redirect RequestUrl (Some "Invalid file type. Please upload a PDF file."))
  end.

(** [view_pdf] *)
Definition view_pdf (disk : Disk) (filename : string) : Response :=
  let file_path := os_path_join UPLOAD_FOLDER filename in
  if negb (path_exists disk file_path) then
    Redirect UrlIndex (Some "File not found")
  else
    RenderViewer filename (display_name_of filename).

(** [serve_pdf].  [send_from_directory] is Flask's: it returns the bytes
    of the file or raises. *)
Definition serve_pdf
    (disk : Disk)
    (send_from_directory : string -> string -> result (list Byte.byte))
    (filename : string) : Response :=
  let file_path := os_path_join UPLOAD_FOLDER filename in
  if negb (path_exists disk file_path) then
    Body "PDF file not found" 404
  else
    match send_from_directory UPLOAD_FOLDER filename with
    | Ok content => SendFile content "application/pdf"
    | Raise e => Body ("Error serving PDF: " +:+ exn_text e) 500
    end.

End Store.

(* ===================================================================== *)
(** * Chat proxy *)
(* ===================================================================== *)

Module Chat.
Import Py.

(** A JSON scalar as Python holds it.  ([Json.json] has the lists, the
    objects and the floats as well.) *)
Inductive pyval : Type :=
| VNone
| VBool (b : bool)
| VInt (n : Z)
| VStr (s : string).

Definition type_name (v : pyval) : string :=
  match v with
  | VNone => "NoneType"
  | VBool _ => "bool"
  | VInt _ => "int"
  | VStr _ => "str"
  end.

(** [str(v)], which is what an f-string field prints *)
Definition py_str (v : pyval) : string :=
  match v with
  | VNone => "None"
  | VBool true => "True"
  | VBool false => "False"
  | VInt n => str_of_int n
  | VStr s => s
  end.

(** [bool(v)] *)
Definition truthy (v : pyval) : bool :=
  match v with
  | VNone => false
  | VBool b => b
  | VInt n => negb (n =? 0)%Z
  | VStr s => negb (String.eqb s "")
  end.

(** [v.lower()] *)
Definition py_lower (v : pyval) : result string :=
  match v with
  | VStr s => Ok (lower s)
  | _ => Raise (Exn AttributeError
                  ("'" +:+ type_name v +:+ "' object has no attribute 'lower'"))
  end.

(** [v[:n]] *)
Definition py_slice_to (n : nat) (v : pyval) : result pyval :=
  match v with
  | VStr s => Ok (VStr (slice_to n s))
  | _ => Raise (Exn TypeError
                  ("'" +:+ type_name v +:+ "' object is not subscriptable"))
  end.

(** [len(v)] *)
Definition py_len (v : pyval) : result nat :=
  match v with
  | VStr s => Ok (String.length s)
  | _ => Raise (Exn TypeError
                  ("object of type '" +:+ type_name v +:+ "' has no len()"))
  end.

(** [d.get(key, default)] and [d[key]] *)
Definition dict_get (d : gmap string pyval) (key : string) (dflt : pyval) : pyval :=
  default dflt (d !! key).

Definition dict_item (d : gmap string pyval) (key : string) : result pyval :=
  match d !! key with
  | Some v => Ok v
  | None => Raise (Exn KeyError ("'" +:+ key +:+ "'"))
  end.

(** One entry of a message list, [{"role": ..., "content": ...}]. *)
Record chat_msg : Type := {
  role : string;
  content : pyval
}.

(** The JSON object [request.get_json()] returns for a body of the shape
    the viewer posts; an absent key is [None] here, and the [.get] of the
    source supplies the default.  Bodies of any other shape are those of
    [ChatRequest.request_body]. *)
Record ChatData : Type := {
  d_message : option pyval;
  d_history : option (list chat_msg);
  d_context : option (gmap string pyval)
}.

(** The arguments of [client.chat.completions.create]. *)
Record CompletionCall : Type := {
  cc_api_key : string;
  cc_model : string;
  cc_messages : list chat_msg;
  cc_max_tokens : Z;
  cc_temperature : float
}.

(** What the block from [OpenAI(api_key=api_key)] to
    [completion.choices[0].message.content] yields: the content of the
    top completion, or an exception with its [str]. *)
Inductive ApiOutcome : Type :=
| Completed (content : string)
| ApiRaised (text : string).

(** The f-string [system_prompt]. *)
Definition system_prompt (context : gmap string pyval) : string :=
  "You are a helpful PDF assistant. You're helping the user understand a PDF document." +:+ nl +:+
  nl +:+
  "Current PDF Context:" +:+ nl +:+
  "- Filename: " +:+ py_str (dict_get context "filename" (VStr "Unknown")) +:+ nl +:+
  "- Current Page: " +:+ py_str (dict_get context "currentPage" (VInt 1)) +:+
    " of " +:+ py_str (dict_get context "totalPages" (VStr "Unknown")) +:+ nl +:+
  "- Selected Text: " +:+ py_str (dict_get context "selectedText" (VStr "None")) +:+ nl +:+
  nl +:+
  "You can help with:" +:+ nl +:+
  "- Explaining content and concepts" +:+ nl +:+
  "- Summarizing sections or pages" +:+ nl +:+
  "- Answering questions about the document" +:+ nl +:+
  "- Discussing selected text" +:+ nl +:+
  "- Providing context and analysis" +:+ nl +:+
  nl +:+
  "Be concise, helpful, and focus on the PDF content. If the user asks about specific pages or sections, acknowledge the current page context.".

(** [history[-10:] if len(history) > 10 else history] *)
Definition recent_history (history : list chat_msg) : list chat_msg :=
  if 10 <? length history then last_n 10 history else history.

(** The list [messages] as it stands before the call. *)
Definition build_messages
    (message : pyval) (history : list chat_msg) (context : gmap string pyval)
  : list chat_msg :=
  [ {| role := "system"; content := VStr (system_prompt context) |} ]
    ++ recent_history history
    ++ [ {| role := "user"; content := message |} ].

Definition MISSING_KEY_REPLY : string :=
  "⚠️ OpenAI API key not found. Please set OPENAI_API_KEY in your .env file to enable AI chat.".
Definition INVALID_KEY_REPLY : string :=
  "🔑 Invalid OpenAI API key. Please check your OPENAI_API_KEY in the .env file.".
Definition RATE_LIMIT_REPLY : string :=
  "⏱️ OpenAI API rate limit exceeded. Please try again in a moment.".
Definition NETWORK_REPLY : string :=
  "🌐 Network connection issue. Please check your internet connection and try again.".

(** The last [else] of the handler of [openai_error]: the canned replies. *)
Definition fallback_reply (message : pyval) (context : gmap string pyval)
  : result string :=
  if truthy (dict_get context "selectedText" VNone) then
    whole <~ dict_item context "selectedText";
    selected <~ py_slice_to 200 whole;
    n <~ py_len whole;
    Ok ("I can see you've selected: " +:+ dquote +:+ py_str selected +:+
        (if 200 <? n then "..." else "") +:+ dquote +:+ nl +:+ nl +:+
        "What would you like me to explain about this selection? (Note: AI chat temporarily unavailable)")
  else
    lowered <~ py_lower message;
    if str_in "summary" lowered then
      Ok ("I'd be happy to provide a summary of page " +:+
          py_str (dict_get context "currentPage" (VInt 1)) +:+
          " of this document. What specific section interests you? (Note: AI chat temporarily unavailable)")
    else if str_in "explain" lowered then
      Ok "I can help explain concepts from this PDF. Could you point me to the specific section or concept you'd like me to clarify? (Note: AI chat temporarily unavailable)"
    else
      Ok ("I'm here to help you understand this PDF document. Currently viewing page " +:+
          py_str (dict_get context "currentPage" (VInt 1)) +:+ " of " +:+
          py_str (dict_get context "totalPages" (VStr "?")) +:+
          ". What would you like to know? (Note: AI chat temporarily unavailable)").

(** The handler [except Exception as openai_error]. *)
Definition on_openai_error
    (text : string) (message : pyval) (context : gmap string pyval)
  : result string :=
  let error_msg := lower text in
  if str_in "authentication" error_msg || str_in "api key" error_msg then
    Ok INVALID_KEY_REPLY
  else if str_in "rate limit" error_msg || str_in "quota" error_msg then
    Ok RATE_LIMIT_REPLY
  else if str_in "connection" error_msg || str_in "network" error_msg then
    Ok NETWORK_REPLY
  else
    fallback_reply message context.

(** The call [client.chat.completions.create(model="gpt-3.5-turbo",
    messages=messages, max_tokens=500, temperature=0.7)] of a client made
    with [api_key]. *)
Definition completion_call (api_key : string) (messages : list chat_msg)
  : CompletionCall :=
  {| cc_api_key := api_key;
     cc_model := "gpt-3.5-turbo";
     cc_messages := messages;
     cc_max_tokens := 500;
     cc_temperature := 0.7%float |}.

(** The body of the outer [try] of [chat]: the value of [response], or the
    exception that leaves the body, and the calls made to the completion
    API.  [api_key] is [os.getenv('OPENAI_API_KEY')].  On a body of this
    shape the lines before the key test cannot raise. *)
Definition chat_body
    (api_key : option string) (api : CompletionCall -> ApiOutcome)
    (data : ChatData)
  : result string * list CompletionCall :=
  let message := default (VStr "") (d_message data) in
  let history := default [] (d_history data) in
  let context := default ∅ (d_context data) in
  let messages := build_messages message history context in
  match api_key with
  | None => (Ok MISSING_KEY_REPLY, [])
  | Some key =>
    if String.eqb key "" then (Ok MISSING_KEY_REPLY, [])
    else
      let call := completion_call key messages in
      match api call with
      | Completed text => (Ok (strip text), [call])
      | ApiRaised text => (on_openai_error text message context, [call])
      end
  end.

(** What [chat] returns for the value of [response], and what its outer
    [except Exception] returns for an exception that left the body. *)
Definition reply_of (r : result string) : Response :=
  match r with
  | Ok response => Jsonify (JResponse response) 200
  | Raise _ => Jsonify (JError "Failed to process chat request") 500
  end.

(** [chat] *)
Definition chat
    (api_key : option string) (api : CompletionCall -> ApiOutcome)
    (data : ChatData)
  : Response * list CompletionCall :=
  let '(r, calls) := chat_body api_key api data in
  (reply_of r, calls).

(** The request body [sendMessage] posts from the viewer of [filename]
    (the template writes [filename], the stored key, into the script):
    the trimmed input is pushed on [chatHistory] first, and [pdfDoc] is the
    page count once the document is open. *)
Definition pdfContext
    (filename : string) (currentPage : Z) (pdfDoc : option Z)
    (selection : string) : gmap string pyval :=
  <[ "filename" := VStr filename ]>
  (<[ "currentPage" := VInt currentPage ]>
  (<[ "totalPages" := VInt (match pdfDoc with Some numPages => numPages | None => 0%Z end) ]>
  (<[ "selectedText" := VStr selection ]> ∅))).

Definition sendMessage
    (filename : string) (message : string) (chatHistory : list chat_msg)
    (currentPage : Z) (pdfDoc : option Z) (selection : string)
  : option ChatData :=
  if String.eqb message "" then None   (* if (!message) return; *)
  else
    Some {| d_message := Some (VStr message);
            d_history :=
              Some (chatHistory ++ [ {| role := "user"; content := VStr message |} ]);
            d_context := Some (pdfContext filename currentPage pdfDoc selection) |}.

End Chat.

(* ===================================================================== *)
(** * Viewer session: the zoom scale *)
(* ===================================================================== *)

Module Viewer.

(** [let scale = 1.2;] *)
Definition initial_scale : float := 1.2%float.

(** [scale *= 1.25; if (scale > 3) scale = 3;] *)
Definition zoomIn (scale : float) : float :=
  let scale := PrimFloat.mul scale 1.25%float in
  if PrimFloat.ltb 3%float scale then 3%float else scale.

(** [scale *= 0.8; if (scale < 0.5) scale = 0.5;] *)
Definition zoomOut (scale : float) : float :=
  let scale := PrimFloat.mul scale 0.8%float in
  if PrimFloat.ltb scale 0.5%float then 0.5%float else scale.

(** [scale = 1.2;] *)
Definition resetZoom (scale : float) : float := 1.2%float.

Inductive zoom_op : Type := ZoomIn | ZoomOut | ResetZoom.

Definition apply_zoom (scale : float) (op : zoom_op) : float :=
  match op with
  | ZoomIn => zoomIn scale
  | ZoomOut => zoomOut scale
  | ResetZoom => resetZoom scale
  end.

(** The scale after a sequence of zoom operations on a fresh viewer. *)
Definition run_zoom (ops : list zoom_op) : float :=
  fold_left apply_zoom ops initial_scale.

(** [0.5 <= scale && scale <= 3] *)
Definition in_range (scale : float) : bool :=
  PrimFloat.leb 0.5%float scale && PrimFloat.leb scale 3%float.

(** ** The scales a viewer can show

    Rounding makes [zoomOut (zoomIn s)] differ from [s] in the last place,
    so the scales in use are more than the steps between 0.5 and 3; they
    are still finitely many.  [explore] collects them by breadth-first
    search from [initial_scale]; the tables give, for each scale found,
    where its two successors stand in the list. *)
Definition seen_in (x : float) (l : list float) : bool :=
  existsb (PrimFloat.eqb x) l.

Fixpoint add_unseen (xs seen : list float) : list float * list float :=
  match xs with
  | [] => ([], seen)
  | x :: xs' =>
    if seen_in x seen then add_unseen xs' seen
    else let '(fresh, seen') := add_unseen xs' (seen ++ [x]) in
         (x :: fresh, seen')
  end.

Fixpoint explore (fuel : nat) (frontier seen : list float) : list float :=
  match fuel with
  | O => seen
  | S fuel' =>
    let next :=
      flat_map (fun s => [zoomIn s; zoomOut s; resetZoom s]) frontier in
    let '(fresh, seen') := add_unseen next seen in
    match fresh with
    | [] => seen'
    | _ => explore fuel' fresh seen'
    end
  end.

Fixpoint position (x : float) (l : list float) : nat :=
  match l with
  | [] => 0
  | y :: l' => if PrimFloat.eqb x y then 0 else S (position x l')
  end.

Definition reachable_scales : list float :=
  Eval vm_compute in explore 1000 [initial_scale] [initial_scale].

Definition zoomIn_table : list nat :=
  Eval vm_compute in
    map (fun s => position (zoomIn s) reachable_scales) reachable_scales.

Definition zoomOut_table : list nat :=
  Eval vm_compute in
    map (fun s => position (zoomOut s) reachable_scales) reachable_scales.

End Viewer.

(* ===================================================================== *)
(** * The words of the specification *)
(* ===================================================================== *)

(** Definitions that follow the specification's wording, to be compared
    with what the handlers compute. *)
Module Wording.
Import Py.

(** "the extension is .pdf (case-insensitive)" *)
Definition has_pdf_extension (filename : string) : bool :=
  endswith (lower filename) ".pdf".

(** "a fileKey containing a path-traversal sequence" *)
Definition has_traversal (fileKey : string) : bool :=
  str_in ".." fileKey.

(** An answer that refuses the request: a redirect carrying a flashed
    message, an error status, or an error object. *)
Definition is_rejection (r : Response) : bool :=
  match r with
  | Redirect _ (Some _) => true
  | Body _ status => (400 <=? status)%Z
  | Jsonify (JError _) _ => true
  | _ => false
  end.

(** "a system instruction embedding the file display name": the prompt of
    [chat] with the id prefix of the file name stripped. *)
Definition system_prompt_display_name (context : gmap string Chat.pyval) : string :=
  match context !! "filename" with
  | Some (Chat.VStr key) =>
    Chat.system_prompt (<[ "filename" := Chat.VStr (Store.display_name_of key) ]> context)
  | _ => Chat.system_prompt context
  end.

(** "the message mentions the word", whatever the case of its letters *)
Definition mentions (word message : string) : bool :=
  str_in word (lower message).

(** "an error classified as neither authentication, rate-limit, nor
    network": none of the six key words occurs in the lowered error text. *)
Definition unclassified (error_text : string) : bool :=
  let error_msg := lower error_text in
  negb (str_in "authentication" error_msg || str_in "api key" error_msg
        || str_in "rate limit" error_msg || str_in "quota" error_msg
        || str_in "connection" error_msg || str_in "network" error_msg).

(** "no credential is configured": the variable is unset or empty. *)
Definition no_credential (api_key : option string) : bool :=
  match api_key with
  | None => true
  | Some key => String.eqb key ""
  end.

End Wording.

(* ===================================================================== *)
(** * Viewer session: pages, rendering and scrolling *)
(* ===================================================================== *)

(** The viewer script as a machine.  The state holds the variables of the
    script that decide which page is shown; the canvas, the scroll offsets
    of the container and the cursor are left out, and nothing kept here
    reads them.  A handler returns the state it leaves and tells whether it
    ended by an exception, in which case the statements after the throwing
    one have not run. *)
Module Session.
Import Viewer.

Record ViewerState : Type := {
  pdfDoc : option Z;             (* null, or the document: its numPages *)
  currentPage : Z;
  scale : float;
  isRendering : bool;
  inFlight : option Z;           (* the pageNum of the render under way *)
  scrollAccumulator : float;
  isScrollNavigating : bool;
  isDragging : bool
}.

(** The variables as the script declares them. *)
Definition fresh : ViewerState :=
  {| pdfDoc := None; currentPage := 1; scale := initial_scale;
     isRendering := false; inFlight := None;
     scrollAccumulator := 0%float; isScrollNavigating := false;
     isDragging := false |}.

Definition set_pdfDoc (s : ViewerState) (v : option Z) : ViewerState :=
  {| pdfDoc := v; currentPage := currentPage s; scale := scale s;
     isRendering := isRendering s; inFlight := inFlight s;
     scrollAccumulator := scrollAccumulator s;
     isScrollNavigating := isScrollNavigating s; isDragging := isDragging s |}.

Definition set_currentPage (s : ViewerState) (v : Z) : ViewerState :=
  {| pdfDoc := pdfDoc s; currentPage := v; scale := scale s;
     isRendering := isRendering s; inFlight := inFlight s;
     scrollAccumulator := scrollAccumulator s;
     isScrollNavigating := isScrollNavigating s; isDragging := isDragging s |}.

Definition set_scale (s : ViewerState) (v : float) : ViewerState :=
  {| pdfDoc := pdfDoc s; currentPage := currentPage s; scale := v;
     isRendering := isRendering s; inFlight := inFlight s;
     scrollAccumulator := scrollAccumulator s;
     isScrollNavigating := isScrollNavigating s; isDragging := isDragging s |}.

Definition set_isRendering (s : ViewerState) (v : bool) : ViewerState :=
  {| pdfDoc := pdfDoc s; currentPage := currentPage s; scale := scale s;
     isRendering := v; inFlight := inFlight s;
     scrollAccumulator := scrollAccumulator s;
     isScrollNavigating := isScrollNavigating s; isDragging := isDragging s |}.

Definition set_inFlight (s : ViewerState) (v : option Z) : ViewerState :=
  {| pdfDoc := pdfDoc s; currentPage := currentPage s; scale := scale s;
     isRendering := isRendering s; inFlight := v;
     scrollAccumulator := scrollAccumulator s;
     isScrollNavigating := isScrollNavigating s; isDragging := isDragging s |}.

Definition set_scrollAccumulator (s : ViewerState) (v : float) : ViewerState :=
  {| pdfDoc := pdfDoc s; currentPage := currentPage s; scale := scale s;
     isRendering := isRendering s; inFlight := inFlight s;
     scrollAccumulator := v;
     isScrollNavigating := isScrollNavigating s; isDragging := isDragging s |}.

Definition set_isScrollNavigating (s : ViewerState) (v : bool) : ViewerState :=
  {| pdfDoc := pdfDoc s; currentPage := currentPage s; scale := scale s;
     isRendering := isRendering s; inFlight := inFlight s;
     scrollAccumulator := scrollAccumulator s;
     isScrollNavigating := v; isDragging := isDragging s |}.

Definition set_isDragging (s : ViewerState) (v : bool) : ViewerState :=
  {| pdfDoc := pdfDoc s; currentPage := currentPage s; scale := scale s;
     isRendering := isRendering s; inFlight := inFlight s;
     scrollAccumulator := scrollAccumulator s;
     isScrollNavigating := isScrollNavigating s; isDragging := v |}.

(** How a handler ended. *)
Inductive completion : Type := Normal | Threw.

(** [renderPage(pageNum)]: a request made while a render is under way
    returns at once; otherwise the flag is set and the page is asked of
    [pdfDoc], which throws when [pdfDoc] is still null.  The callbacks run
    later, see [on_render_done]. *)
Definition renderPage (s : ViewerState) (pageNum : Z)
  : ViewerState * completion :=
  if isRendering s then (s, Normal)
  else
    let s := set_isRendering s true in
    match pdfDoc s with
    | None => (s, Threw)
    | Some _ => (set_inFlight s (Some pageNum), Normal)
    end.

(** The callback of [renderTask.promise]: [isRendering = false;
    updatePageInfo(pageNum)], which sets [currentPage = pageNum]. *)
Definition on_render_done (s : ViewerState) : ViewerState :=
  match inFlight s with
  | Some pageNum =>
    set_inFlight (set_currentPage (set_isRendering s false) pageNum) None
  | None => s
  end.

(** [getPage] or the render task rejected: no callback of the script runs,
    and [isRendering] keeps its value. *)
Definition on_render_failed (s : ViewerState) : ViewerState :=
  set_inFlight s None.

(** The callback of [getDocument(url).promise]: [pdfDoc = pdf;
    renderPage(1)]. *)
Definition on_loaded (s : ViewerState) (numPages : Z) : ViewerState :=
  fst (renderPage (set_pdfDoc s (Some numPages)) 1).

(** [nextPage]: [if (currentPage < pdfDoc.numPages) renderPage(currentPage + 1)] *)
Definition nextPage (s : ViewerState) : ViewerState * completion :=
  match pdfDoc s with
  | None => (s, Threw)
  | Some numPages =>
    if (currentPage s <? numPages)%Z then renderPage s (currentPage s + 1)%Z
    else (s, Normal)
  end.

(** [prevPage]: [if (currentPage > 1) renderPage(currentPage - 1)] *)
Definition prevPage (s : ViewerState) : ViewerState * completion :=
  if (1 <? currentPage s)%Z then renderPage s (currentPage s - 1)%Z
  else (s, Normal).

(** [zoomIn], [zoomOut] and [resetZoom] as the buttons call them: the new
    scale, then [renderPage(currentPage)]. *)
Definition zoom (s : ViewerState) (op : zoom_op) : ViewerState * completion :=
  let s := set_scale s (apply_zoom (scale s) op) in
  renderPage s (currentPage s).

(** The [wheel] listener.  When it turns a page it also starts the timer
    that frees [isScrollNavigating] after 300 ms ([LockTimer] below), and
    every run of it restarts the timer that clears the accumulator after
    500 ms ([AccumulatorTimer]); neither is started when [nextPage]
    throws. *)
Definition on_wheel (s : ViewerState) (deltaY : float)
  : ViewerState * completion :=
  let s := set_scrollAccumulator s (PrimFloat.add (scrollAccumulator s) deltaY) in
  let threshold := 100%float in
  if PrimFloat.ltb threshold (PrimFloat.abs (scrollAccumulator s))
     && negb (isScrollNavigating s) then
    let s := set_isScrollNavigating s true in
    let '(s, c) :=
      if PrimFloat.ltb 0%float (scrollAccumulator s) then nextPage s
      else prevPage s in
    match c with
    | Threw => (s, Threw)
    | Normal => (set_scrollAccumulator s 0%float, Normal)
    end
  else (s, Normal).

(** The debounced callback of the [scroll] listener, 100 ms after the last
    scroll event, with the [scrollDelta] that event measured. *)
Definition on_scroll_settled (s : ViewerState) (scrollDelta : float)
  : ViewerState * completion :=
  if PrimFloat.ltb 30%float (PrimFloat.abs scrollDelta)
     && negb (isScrollNavigating s) then
    let s := set_isScrollNavigating s true in
    if PrimFloat.ltb 0%float scrollDelta then nextPage s else prevPage s
  else (s, Normal).

(** The [keydown] listener of the document. *)
Definition on_keydown (s : ViewerState) (key : string) (ctrlKey : bool)
  : ViewerState * completion :=
  if bool_decide (key ∈ ["ArrowLeft"; "ArrowUp"; "PageUp"]) then prevPage s
  else if bool_decide (key ∈ ["ArrowRight"; "ArrowDown"; "PageDown"]) then nextPage s
  else if String.eqb key "+" then (if ctrlKey then zoom s ZoomIn else (s, Normal))
  else if String.eqb key "-" then (if ctrlKey then zoom s ZoomOut else (s, Normal))
  else if String.eqb key "0" then (if ctrlKey then zoom s ResetZoom else (s, Normal))
  else (s, Normal).

(** The [mousedown] listener of the page container; [onTextLayer] is
    [e.target.closest('.text-layer')]. *)
Definition on_mousedown (s : ViewerState) (onTextLayer : bool) : ViewerState :=
  if PrimFloat.ltb 1.2%float (scale s) && negb onTextLayer then
    set_isScrollNavigating (set_isDragging s true) true
  else s.

(** The [mouseup] and [mouseleave] listeners: they end a drag and start the
    timer that frees [isScrollNavigating] after 500 ms. *)
Definition on_mouseup (s : ViewerState) : ViewerState :=
  if isDragging s then set_isDragging s false else s.

(** What can happen to an open viewer. *)
Inductive event : Type :=
| KeyDown (key : string) (ctrlKey : bool)
| ClickZoom (op : zoom_op)            (* the buttons -, + and Fit *)
| Wheel (deltaY : float)
| ScrollSettled (scrollDelta : float)
| MouseDown (onTextLayer : bool)
| MouseUp
| MouseLeave
| RenderDone
| RenderFailed
| LockTimer                           (* isScrollNavigating = false *)
| AccumulatorTimer.                   (* scrollAccumulator = 0 *)

Definition step (s : ViewerState) (e : event) : ViewerState :=
  match e with
  | KeyDown key ctrlKey => fst (on_keydown s key ctrlKey)
  | ClickZoom op => fst (zoom s op)
  | Wheel deltaY => fst (on_wheel s deltaY)
  | ScrollSettled scrollDelta => fst (on_scroll_settled s scrollDelta)
  | MouseDown onTextLayer => on_mousedown s onTextLayer
  | MouseUp => on_mouseup s
  | MouseLeave => on_mouseup s
  | RenderDone => on_render_done s
  | RenderFailed => on_render_failed s
  | LockTimer => set_isScrollNavigating s false
  | AccumulatorTimer => set_scrollAccumulator s 0%float
  end.

Definition run (events : list event) (s : ViewerState) : ViewerState :=
  fold_left step events s.

(** [Math.round(x)] for a finite [x]: the integer nearest to [x], the upper
    one of two that are equally near. *)
Definition js_round (x : float) : option Z :=
  match FloatOps.Prim2SF x with
  | SpecFloat.S754_zero _ => Some 0%Z
  | SpecFloat.S754_finite sign m e =>
    let n := (if sign then Z.neg m else Z.pos m) in
    Some (if (0 <=? e)%Z then (n * 2 ^ e)%Z
          else ((2 * n + 2 ^ (- e)) / (2 * 2 ^ (- e)))%Z)
  | _ => None
  end.

(** The text [updateZoomLevel] writes: [Math.round(scale * 100) + '%']. *)
Definition zoomLevel (scale : float) : option string :=
  match js_round (PrimFloat.mul scale 100%float) with
  | Some n => Some (Py.str_of_int n +:+ "%")
  | None => None
  end.

End Session.

(* ===================================================================== *)
(** * Viewer session: the chat panel *)
(* ===================================================================== *)

Module ChatPanel.
Import Chat.

Definition SORRY : string := "Sorry, I encountered an error. Please try again.".

(** What [addMessage(content, type)] appends to the panel. *)
Record shown : Type := {
  shown_content : string;
  shown_type : string
}.

(** [clearChat] *)
Definition clearChat (chatHistory : list chat_msg) : list chat_msg := [].

(** The handlers after [fetch('/chat', ...)]: [data] is the parsed body, or
    [None] when the request or the parsing failed ([catch]).  An absent or
    empty [data.response] takes the [else] branch. *)
Definition on_chat_reply (chatHistory : list chat_msg) (data : option JsonBody)
  : list chat_msg * shown :=
  match data with
  | Some (JResponse response) =>
    if negb (String.eqb response "") then
      (chatHistory ++ [ {| role := "assistant"; content := VStr response |} ],
       {| shown_content := response; shown_type := "assistant" |})
    else (chatHistory, {| shown_content := SORRY; shown_type := "system" |})
  | Some (JError _) => (chatHistory, {| shown_content := SORRY; shown_type := "system" |})
  | None => (chatHistory, {| shown_content := SORRY; shown_type := "system" |})
  end.

(** The body of the answer of [chat], as [response.json()] reads it. *)
Definition json_of (r : Response) : option JsonBody :=
  match r with
  | Jsonify body _ => Some body
  | _ => None
  end.

(** One exchange with the server of this repository: [sendMessage] shows
    and records the message and posts the request, [chat] answers, the
    handlers of the reply run.  The result is the new [chatHistory] and the
    messages added to the panel. *)
Definition exchange
    (api_key : option string) (api : CompletionCall -> ApiOutcome)
    (filename : string) (currentPage : Z) (pdfDoc : option Z)
    (selection : string)
    (chatHistory : list chat_msg) (message : string)
  : list chat_msg * list shown :=
  match sendMessage filename message chatHistory currentPage pdfDoc selection with
  | None => (chatHistory, [])
  | Some data =>
    let pushed := chatHistory ++ [ {| role := "user"; content := VStr message |} ] in
    let '(chatHistory', reply) :=
      on_chat_reply pushed (json_of (fst (chat api_key api data))) in
    (chatHistory',
     [ {| shown_content := message; shown_type := "user" |}; reply ])
  end.

End ChatPanel.

(* ===================================================================== *)
(** * Requests as Flask meets them: the store handlers *)
(* ===================================================================== *)

(** [Store.upload_file] and [Store.index] are the handlers once the request
    and the directory have been read.  Here are the reads themselves:
    [request.files] of a body that may exceed [MAX_CONTENT_LENGTH], and a
    directory whose listing and file times the operating system may refuse.
    No [try] of the source surrounds any of them, so an exception they raise
    leaves the view and Flask answers with its error page. *)
Module StoreRequest.
Import Py Store.

(** What the client receives: the value the view returned, or the error
    page Flask makes of an exception that left the view. *)
Inductive Answer : Type :=
| Returned (r : Response)
| Aborted (status : Z).

(** [upload_file] from its first line.  [content_length] is the length the
    request declares.  The first expression, ['file' not in request.files],
    makes werkzeug parse the form; under
    [app.config['MAX_CONTENT_LENGTH']] it raises [RequestEntityTooLarge]
    (status 413) for a longer body, before a part is read. *)
Definition upload_request
    (secure_filename : string -> string) (uuid4 : string)
    (save : save_outcome)
    (files : gmap string (list Byte.byte))
    (content_length : Z)
    (request_files : gmap string FileStorage)
  : gmap string (list Byte.byte) * Answer :=
  if (MAX_CONTENT_LENGTH <? content_length)%Z then (files, Aborted 413)
  else
    let '(files', r) :=
      upload_file secure_filename uuid4 save files request_files in
    (files', Returned r).

(** The directory as the operating system answers: [os.listdir] and
    [os.stat] return or raise [OSError].  [os.path.getmtime(p)] is
    [os.stat(p).st_mtime], so one field serves both. *)
Record DiskIO : Type := {
  io_exists : string -> bool;                         (* os.path.exists *)
  io_listdir : string -> result (list string);        (* os.listdir *)
  io_stat : string -> result float                    (* os.stat(p).st_mtime *)
}.

Definition os_path_getmtime (disk : DiskIO) (path : string) : result float :=
  io_stat disk path.

(** A loop or a comprehension whose body may raise. *)
Fixpoint for_each {A B} (f : A -> result B) (l : list A) : result (list B) :=
  match l with
  | [] => Ok []
  | x :: l' =>
    y <~ f x;
    ys <~ for_each f l';
    Ok (y :: ys)
  end.

(** The body of [index]: [sorted] computes the key of every PDF file, once
    each and in the order of the listing, before it compares any; the loop
    then reads [os.stat] and [os.path.getmtime] of the five it keeps. *)
Definition index_body (disk : DiskIO) : result Response :=
  if io_exists disk UPLOAD_FOLDER then
    files <~ io_listdir disk UPLOAD_FOLDER;
    let pdf_files := List.filter (fun f => endswith (lower f) ".pdf") files in
    keys <~ for_each
              (fun x => os_path_getmtime disk (os_path_join UPLOAD_FOLDER x))
              pdf_files;
    let newest := take 5 (fst <$> sorted_reverse snd (zip pdf_files keys)) in
    recent_files <~ for_each
      (fun filename =>
         let file_path := os_path_join UPLOAD_FOLDER filename in
         file_stat <~ io_stat disk file_path;
         date <~ os_path_getmtime disk file_path;
         Ok {| rf_name := filename;
               rf_display_name := display_name_of filename;
               rf_date := date |})
      newest;
    Ok (RenderUpload recent_files)
  else Ok (RenderUpload []).

(** [index] as the client sees it: an exception that leaves the view is
    answered with status 500. *)
Definition index_request (disk : DiskIO) : Answer :=
  match index_body disk with
  | Ok r => Returned r
  | Raise _ => Aborted 500
  end.

(** The directory [Store.index] is given when every read has succeeded:
    [files] is the listing, and the times are those [os.stat] gave. *)
Definition settled (disk : DiskIO) (files : list string) : Disk :=
  {| path_exists := io_exists disk;
     listdir := fun _ => files;
     getmtime := fun path =>
       match io_stat disk path with
       | Ok t => t
       | Raise _ => 0%float
       end |}.

(** "the time of a listed PDF file cannot be read" *)
Definition unreadable_pdf (disk : DiskIO) (files : list string) : bool :=
  existsb
    (fun f => endswith (lower f) ".pdf" &&
              match io_stat disk (os_path_join UPLOAD_FOLDER f) with
              | Ok _ => false
              | Raise _ => true
              end)
    files.

End StoreRequest.

(* ===================================================================== *)
(** * JSON values as Python holds them *)
(* ===================================================================== *)

(** What [request.get_json()] can return, and the operations of Python that
    [chat] applies to it.  A [dict] is the list of its items in the order
    of insertion; its keys are distinct, as those of a Python [dict] are. *)
Module Json.
Import Py.

Inductive json : Type :=
| JNull
| JBool (b : bool)
| JInt (n : Z)
| JFloat (x : float)
| JStr (s : string)
| JList (elements : list json)
| JDict (items : list (string * json)).

Definition type_name (v : json) : string :=
  match v with
  | JNull => "NoneType"
  | JBool _ => "bool"
  | JInt _ => "int"
  | JFloat _ => "float"
  | JStr _ => "str"
  | JList _ => "list"
  | JDict _ => "dict"
  end.

(** ** [repr] and [str] *)

Definition squote : ascii := "039"%char.
Definition backslash : ascii := "092"%char.

Definition hex_digit (n : nat) : ascii :=
  default "0"%char (list_ascii_of_string "0123456789abcdef" !! n).

(** One character of [repr(s)] between quotes [quote]: the quote and the
    backslash are escaped, tab, newline and return are written with their
    letters, and the other characters that are not printable (the controls
    U+0000..U+001F and U+007F..U+009F, the no-break space U+00A0 and the
    soft hyphen U+00AD) with their two hexadecimal digits. *)
Definition repr_char (quote : ascii) (c : ascii) : string :=
  let n := nat_of_ascii c in
  if Ascii.eqb c quote || Ascii.eqb c backslash then
    String backslash (String c "")
  else if n =? 9 then String backslash "t"
  else if n =? 10 then String backslash "n"
  else if n =? 13 then String backslash "r"
  else if (n <? 32) || (n =? 127) || ((128 <=? n) && (n <=? 160)) || (n =? 173) then
    String backslash
      (String "x" (String (hex_digit (n / 16)) (String (hex_digit (n mod 16)) "")))
  else String c "".

Fixpoint repr_chars (quote : ascii) (s : string) : string :=
  match s with
  | EmptyString => EmptyString
  | String c s' => repr_char quote c +:+ repr_chars quote s'
  end.

(** [repr(s)] of a string: between single quotes, unless it holds a single
    quote and no double quote. *)
Definition repr_str (s : string) : string :=
  let quote :=
    if str_in (String squote "") s && negb (str_in dquote s) then "034"%char
    else squote in
  String quote (repr_chars quote s +:+ String quote "").

Section Formatting.

(** [repr] of a float, the shortest decimal text that reads back as the
    same number. *)
Variable float_repr : float -> string.

(** [repr(v)] *)
Fixpoint py_repr (v : json) : string :=
  match v with
  | JNull => "None"
  | JBool true => "True"
  | JBool false => "False"
  | JInt n => str_of_int n
  | JFloat x => float_repr x
  | JStr s => repr_str s
  | JList elements => "[" +:+ join ", " (List.map py_repr elements) +:+ "]"
  | JDict items =>
    "{" +:+
    join ", " (List.map (fun '(k, x) => repr_str k +:+ ": " +:+ py_repr x) items)
    +:+ "}"
  end.

(** [str(v)], which is what an f-string field prints *)
Definition py_str (v : json) : string :=
  match v with
  | JStr s => s
  | _ => py_repr v
  end.

End Formatting.

(** ** Truth, length, slices *)

(** [bool(v)] *)
Definition truthy (v : json) : bool :=
  match v with
  | JNull => false
  | JBool b => b
  | JInt n => negb (n =? 0)%Z
  | JFloat x => negb (PrimFloat.eqb x 0%float)
  | JStr s => negb (String.eqb s "")
  | JList elements => negb (bool_decide (elements = []))
  | JDict items => negb (bool_decide (items = []))
  end.

(** [len(v)] *)
Definition py_len (v : json) : result nat :=
  match v with
  | JStr s => Ok (String.length s)
  | JList elements => Ok (length elements)
  | JDict items => Ok (length items)
  | _ => Raise (Exn TypeError
                  ("object of type '" +:+ type_name v +:+ "' has no len()"))
  end.

(** What [v[i:j]] raises when [v] has no slices.  A [dict] takes the slice
    for a key: [TypeError] up to Python 3.11, where a slice cannot be
    hashed, and [KeyError] since; [chat] treats both alike. *)
Definition no_slice (v : json) : exn :=
  match v with
  | JDict _ => Exn TypeError "unhashable type: 'slice'"
  | _ => Exn TypeError ("'" +:+ type_name v +:+ "' object is not subscriptable")
  end.

(** [v[:n]] *)
Definition py_slice_to (n : nat) (v : json) : result json :=
  match v with
  | JStr s => Ok (JStr (slice_to n s))
  | JList elements => Ok (JList (take n elements))
  | _ => Raise (no_slice v)
  end.

(** [v[-n:]] *)
Definition py_slice_last (n : nat) (v : json) : result json :=
  match v with
  | JStr s =>
    Ok (JStr (string_of_list_ascii (last_n n (list_ascii_of_string s))))
  | JList elements => Ok (JList (last_n n elements))
  | _ => Raise (no_slice v)
  end.

(** The elements [for x in v] visits: those of a list, the characters of a
    string, the keys of a [dict]. *)
Definition py_iter (v : json) : result (list json) :=
  match v with
  | JStr s => Ok ((fun c => JStr (String c "")) <$> list_ascii_of_string s)
  | JList elements => Ok elements
  | JDict items => Ok ((fun kv => JStr (fst kv)) <$> items)
  | _ => Raise (Exn TypeError
                  ("'" +:+ type_name v +:+ "' object is not iterable"))
  end.

(** [v.lower()] *)
Definition py_lower (v : json) : result string :=
  match v with
  | JStr s => Ok (lower s)
  | _ => Raise (Exn AttributeError
                  ("'" +:+ type_name v +:+ "' object has no attribute 'lower'"))
  end.

(** ** Dictionaries *)

Fixpoint lookup_item (key : string) (items : list (string * json)) : option json :=
  match items with
  | [] => None
  | (k, v) :: items' => if String.eqb k key then Some v else lookup_item key items'
  end.

(** [d.get(key, default)]: only a [dict] has the method. *)
Definition get (d : json) (key : string) (dflt : json) : result json :=
  match d with
  | JDict items => Ok (default dflt (lookup_item key items))
  | _ => Raise (Exn AttributeError
                  ("'" +:+ type_name d +:+ "' object has no attribute 'get'"))
  end.

(** [d[key]] for a string key *)
Definition getitem (d : json) (key : string) : result json :=
  match d with
  | JDict items =>
    match lookup_item key items with
    | Some v => Ok v
    | None => Raise (Exn KeyError (repr_str key))
    end
  | JStr _ => Raise (Exn TypeError "string indices must be integers")
  | JList _ => Raise (Exn TypeError "list indices must be integers or slices, not str")
  | _ => Raise (Exn TypeError
                  ("'" +:+ type_name d +:+ "' object is not subscriptable"))
  end.

End Json.

(* ===================================================================== *)
(** * Chat proxy: any request body *)
(* ===================================================================== *)

(** [chat] from its first line, on whatever body the client posts.
    [Chat.chat] is the same handler on the bodies of the shape the viewer
    posts ([ChatRequestFacts.chat_of_shaped_body]). *)
Module ChatRequest.
Import Py Json.

(** [request.get_json()]: the parsed body, or the exception it raises for a
    body that is not JSON. *)
Inductive request_body : Type :=
| NotJson (text : string)
| GetJson (data : json).

(** [{"role": role, "content": content}] *)
Definition chat_msg (role : string) (content : json) : json :=
  JDict [("role", JStr role); ("content", content)].

(** The arguments of [client.chat.completions.create]. *)
Record CompletionCall : Type := {
  cc_api_key : string;
  cc_model : string;
  cc_messages : list json;
  cc_max_tokens : Z;
  cc_temperature : float
}.

Definition completion_call (api_key : string) (messages : list json)
  : CompletionCall :=
  {| cc_api_key := api_key;
     cc_model := "gpt-3.5-turbo";
     cc_messages := messages;
     cc_max_tokens := 500;
     cc_temperature := 0.7%float |}.

(** What the lines before the inner [try] leave in [message], [context]
    and [messages]. *)
Record Prepared : Type := {
  p_message : json;
  p_context : json;
  p_messages : list json
}.

(** The text of the f-string [system_prompt] around its four fields. *)
Definition prompt_text (filename currentPage totalPages selectedText : string)
  : string :=
  "You are a helpful PDF assistant. You're helping the user understand a PDF document." +:+ nl +:+
  nl +:+
  "Current PDF Context:" +:+ nl +:+
  "- Filename: " +:+ filename +:+ nl +:+
  "- Current Page: " +:+ currentPage +:+ " of " +:+ totalPages +:+ nl +:+
  "- Selected Text: " +:+ selectedText +:+ nl +:+
  nl +:+
  "You can help with:" +:+ nl +:+
  "- Explaining content and concepts" +:+ nl +:+
  "- Summarizing sections or pages" +:+ nl +:+
  "- Answering questions about the document" +:+ nl +:+
  "- Discussing selected text" +:+ nl +:+
  "- Providing context and analysis" +:+ nl +:+
  nl +:+
  "Be concise, helpful, and focus on the PDF content. If the user asks about specific pages or sections, acknowledge the current page context.".

Section Handler.

Variable float_repr : float -> string.

(** The f-string [system_prompt]: its fields are read from [context] and
    written into [prompt_text]. *)
Definition system_prompt (context : json) : result string :=
  filename <~ get context "filename" (JStr "Unknown");
  currentPage <~ get context "currentPage" (JInt 1);
  totalPages <~ get context "totalPages" (JStr "Unknown");
  selectedText <~ get context "selectedText" (JStr "None");
  Ok (prompt_text (py_str float_repr filename) (py_str float_repr currentPage)
        (py_str float_repr totalPages) (py_str float_repr selectedText)).

(** From [data = request.get_json()] to [messages.append(...)]. *)
Definition prepare (body : request_body) : result Prepared :=
  data <~ match body with
          | NotJson text => Raise (Exn LibraryError text)
          | GetJson data => Ok data
          end;
  message <~ get data "message" (JStr "");
  history <~ get data "history" (JList []);
  context <~ get data "context" (JDict []);
  prompt <~ system_prompt context;
  n <~ py_len history;
  recent_history <~ (if 10 <? n then py_slice_last 10 history else Ok history);
  extension <~ py_iter recent_history;
  Ok {| p_message := message;
        p_context := context;
        p_messages :=
          [chat_msg "system" (JStr prompt)] ++ extension
            ++ [chat_msg "user" message] |}.

(** The last [else] of the handler of [openai_error]: the canned replies. *)
Definition fallback_reply (message context : json) : result string :=
  selection <~ get context "selectedText" JNull;
  if truthy selection then
    whole <~ getitem context "selectedText";
    selected <~ py_slice_to 200 whole;
    again <~ getitem context "selectedText";
    n <~ py_len again;
    Ok ("I can see you've selected: " +:+ dquote +:+ py_str float_repr selected +:+
        (if 200 <? n then "..." else "") +:+ dquote +:+ nl +:+ nl +:+
        "What would you like me to explain about this selection? (Note: AI chat temporarily unavailable)")
  else
    lowered <~ py_lower message;
    if str_in "summary" lowered then
      page <~ get context "currentPage" (JInt 1);
      Ok ("I'd be happy to provide a summary of page " +:+
          py_str float_repr page +:+
          " of this document. What specific section interests you? (Note: AI chat temporarily unavailable)")
    else
      lowered <~ py_lower message;
      if str_in "explain" lowered then
        Ok "I can help explain concepts from this PDF. Could you point me to the specific section or concept you'd like me to clarify? (Note: AI chat temporarily unavailable)"
      else
        page <~ get context "currentPage" (JInt 1);
        pages <~ get context "totalPages" (JStr "?");
        Ok ("I'm here to help you understand this PDF document. Currently viewing page " +:+
            py_str float_repr page +:+ " of " +:+
            py_str float_repr pages +:+
            ". What would you like to know? (Note: AI chat temporarily unavailable)").

(** The handler [except Exception as openai_error]. *)
Definition on_openai_error (text : string) (message context : json)
  : result string :=
  let error_msg := lower text in
  if str_in "authentication" error_msg || str_in "api key" error_msg then
    Ok Chat.INVALID_KEY_REPLY
  else if str_in "rate limit" error_msg || str_in "quota" error_msg then
    Ok Chat.RATE_LIMIT_REPLY
  else if str_in "connection" error_msg || str_in "network" error_msg then
    Ok Chat.NETWORK_REPLY
  else
    fallback_reply message context.

(** The body of the outer [try] of [chat]: the value of [response], or the
    exception that leaves the body, and the calls made to the completion
    API.  [api_key] is [os.getenv('OPENAI_API_KEY')]. *)
Definition chat_body
    (api_key : option string) (api : CompletionCall -> Chat.ApiOutcome)
    (body : request_body)
  : result string * list CompletionCall :=
  match prepare body with
  | Raise e => (Raise e, [])
  | Ok p =>
    match api_key with
    | None => (Ok Chat.MISSING_KEY_REPLY, [])
    | Some key =>
      if String.eqb key "" then (Ok Chat.MISSING_KEY_REPLY, [])
      else
        let call := completion_call key (p_messages p) in
        match api call with
        | Chat.Completed text => (Ok (strip text), [call])
        | Chat.ApiRaised text =>
          (on_openai_error text (p_message p) (p_context p), [call])
        end
    end
  end.

(** [chat] *)
Definition chat
    (api_key : option string) (api : CompletionCall -> Chat.ApiOutcome)
    (body : request_body)
  : Response * list CompletionCall :=
  let '(r, calls) := chat_body api_key api body in
  (Chat.reply_of r, calls).

End Handler.

(** ** Bodies, in words *)

Definition ERROR_REPLY : Response :=
  Jsonify (JError "Failed to process chat request") 500.

Definition is_dict (v : json) : bool :=
  match v with
  | JDict _ => true
  | _ => false
  end.

(** "a history the handler can forward": a list, a string, or an object of
    ten keys at most. *)
Definition history_readable (history : json) : bool :=
  match history with
  | JList _ | JStr _ => true
  | JDict items => length items <=? 10
  | _ => false
  end.

(** [d.get(key, default)] of an object [d]. *)
Definition entry (key : string) (dflt : json) (d : json) : json :=
  match d with
  | JDict items => default dflt (lookup_item key items)
  | _ => dflt
  end.

(** The three fields of a body that is an object, with the defaults of an
    absent key. *)
Definition field (key : string) (dflt : json) (body : request_body) : json :=
  match body with
  | GetJson data => entry key dflt data
  | NotJson _ => dflt
  end.

Definition message_of (body : request_body) : json := field "message" (JStr "") body.
Definition history_of (body : request_body) : json := field "history" (JList []) body.
Definition context_of (body : request_body) : json := field "context" (JDict []) body.

(** "a body the handler can read": a JSON object whose [context], if
    given, is an object and whose [history], if given, can be forwarded. *)
Definition readable (body : request_body) : bool :=
  match body with
  | GetJson (JDict _) =>
    is_dict (context_of body) && history_readable (history_of body)
  | _ => false
  end.

(** "the last ten" of a list *)
Definition last_ten {A} (l : list A) : list A :=
  if 10 <? length l then last_n 10 l else l.

(** "the history entries forwarded": the last ten elements of a list, the
    last ten characters of a string, the keys of an object. *)
Definition forwarded (history : json) : list json :=
  match history with
  | JList elements => last_ten elements
  | JStr s => (fun c => JStr (String c "")) <$> last_ten (list_ascii_of_string s)
  | JDict items => (fun kv => JStr (fst kv)) <$> items
  | _ => []
  end.

(** "the system instruction" of a context that is an object *)
Definition prompt_of (float_repr : float -> string) (context : json) : string :=
  prompt_text
    (py_str float_repr (entry "filename" (JStr "Unknown") context))
    (py_str float_repr (entry "currentPage" (JInt 1) context))
    (py_str float_repr (entry "totalPages" (JStr "Unknown") context))
    (py_str float_repr (entry "selectedText" (JStr "None") context)).

(** "the message list forwarded": the system instruction, the history
    entries forwarded, the user message. *)
Definition messages_of (float_repr : float -> string) (body : request_body)
  : list json :=
  [chat_msg "system" (JStr (prompt_of float_repr (context_of body)))]
    ++ forwarded (history_of body)
    ++ [chat_msg "user" (message_of body)].

(** "the canned reply can be written": the selected text is a string or a
    list that is not empty, or it is absent, null, empty or zero and the
    message is a string. *)
Definition answerable (message context : json) : bool :=
  let selection := entry "selectedText" JNull context in
  if truthy selection then
    match selection with
    | JStr _ | JList _ => true
    | _ => false
    end
  else
    match message with
    | JStr _ => true
    | _ => false
    end.

(** The classes of [str(openai_error)], tested in this order. *)
Definition is_authentication_error (text : string) : bool :=
  str_in "authentication" (lower text) || str_in "api key" (lower text).
Definition is_rate_limit_error (text : string) : bool :=
  str_in "rate limit" (lower text) || str_in "quota" (lower text).
Definition is_network_error (text : string) : bool :=
  str_in "connection" (lower text) || str_in "network" (lower text).

(** ** The bodies of [Chat.ChatData] among all bodies *)

Definition json_of_pyval (v : Chat.pyval) : json :=
  match v with
  | Chat.VNone => JNull
  | Chat.VBool b => JBool b
  | Chat.VInt n => JInt n
  | Chat.VStr s => JStr s
  end.

Definition json_of_msg (m : Chat.chat_msg) : json :=
  chat_msg (Chat.role m) (json_of_pyval (Chat.content m)).

Definition json_of_context (context : gmap string Chat.pyval) : json :=
  JDict (prod_map id json_of_pyval <$> map_to_list context).

Definition item_of {A} (key : string) (f : A -> json) (x : option A)
  : list (string * json) :=
  match x with
  | Some a => [(key, f a)]
  | None => []
  end.

Definition json_of_data (data : Chat.ChatData) : request_body :=
  GetJson (JDict (item_of "message" json_of_pyval (Chat.d_message data)
                  ++ item_of "history" (fun h => JList (json_of_msg <$> h))
                       (Chat.d_history data)
                  ++ item_of "context" json_of_context (Chat.d_context data))).

Definition json_of_call (call : Chat.CompletionCall) : CompletionCall :=
  {| cc_api_key := Chat.cc_api_key call;
     cc_model := Chat.cc_model call;
     cc_messages := json_of_msg <$> Chat.cc_messages call;
     cc_max_tokens := Chat.cc_max_tokens call;
     cc_temperature := Chat.cc_temperature call |}.

End ChatRequest.

(* ===================================================================== *)
(** * Facts: Python strings *)
(* ===================================================================== *)

Module PyFacts.
Import Py.

Lemma app_cons (c : ascii) (s t : string) : String c s +:+ t = String c (s +:+ t).
Proof. reflexivity. Qed.

Lemma app_empty_l (t : string) : "" +:+ t = t.
Proof. reflexivity. Qed.

Lemma app_empty_r (s : string) : s +:+ "" = s.
Proof. induction s as [|c s IH]; [reflexivity|]. rewrite app_cons, IH. reflexivity. Qed.

Lemma app_assoc (s t u : string) : (s +:+ t) +:+ u = s +:+ (t +:+ u).
Proof.
  induction s as [|c s IH]; [reflexivity|].
  rewrite !app_cons, IH. reflexivity.
Qed.

Lemma app_length (s t : string) :
  String.length (s +:+ t) = String.length s + String.length t.
Proof.
  induction s as [|c s IH]; [reflexivity|].
  rewrite app_cons. simpl. rewrite IH. reflexivity.
Qed.

(** ** Membership of one character *)

Lemma str_in_char_cons (c d : ascii) (s : string) :
  str_in (String c "") (String d s) = Ascii.eqb c d || str_in (String c "") s.
Proof.
  cbn [str_in String.prefix]. destruct (ascii_dec c d) as [->|Hne].
  - rewrite Ascii.eqb_refl. destruct s; reflexivity.
  - apply Ascii.eqb_neq in Hne. rewrite Hne. reflexivity.
Qed.

Lemma str_in_char_empty (c : ascii) : str_in (String c "") "" = false.
Proof. reflexivity. Qed.

Lemma str_in_char_app (c : ascii) (s t : string) :
  str_in (String c "") (s +:+ t) = str_in (String c "") s || str_in (String c "") t.
Proof.
  induction s as [|d s IH].
  - rewrite app_empty_l. reflexivity.
  - rewrite app_cons, !str_in_char_cons, IH, orb_assoc. reflexivity.
Qed.

(** ** Occurrences of a text *)

Lemma prefix_app (x rest : string) : String.prefix x (x +:+ rest) = true.
Proof.
  induction x as [|c x IH]; [destruct rest; reflexivity|].
  rewrite app_cons. simpl. destruct (ascii_dec c c); [exact IH|congruence].
Qed.

Lemma str_in_app_l (x rest : string) : str_in x (x +:+ rest) = true.
Proof.
  destruct (x +:+ rest) eqn:E; cbn [str_in]; rewrite <- E, prefix_app; reflexivity.
Qed.

Lemma str_in_app_r (x before s : string) :
  str_in x s = true -> str_in x (before +:+ s) = true.
Proof.
  intros H. induction before as [|c before IH]; [exact H|].
  rewrite app_cons. cbn [str_in]. rewrite IH. apply orb_true_r.
Qed.

Lemma prefix_iff (x s : string) :
  String.prefix x s = true <-> exists rest, s = x +:+ rest.
Proof.
  split; [|intros [rest ->]; apply prefix_app].
  revert s. induction x as [|c x IH]; intros s H.
  - exists s. reflexivity.
  - destruct s as [|d s]; [discriminate|]. simpl in H.
    destruct (ascii_dec c d) as [->|]; [|discriminate].
    destruct (IH _ H) as [rest ->]. exists rest. reflexivity.
Qed.

Lemma str_in_iff (x s : string) :
  str_in x s = true <-> exists before rest, s = before +:+ x +:+ rest.
Proof.
  split.
  - induction s as [|c s IH]; cbn [str_in]; intros H.
    + rewrite orb_false_r in H. apply prefix_iff in H as [rest ->].
      exists "", rest. reflexivity.
    + apply orb_true_iff in H as [H|H].
      * apply prefix_iff in H as [rest ->]. exists "", rest. reflexivity.
      * destruct (IH H) as (before & rest & ->).
        exists (String c before), rest. reflexivity.
  - intros (before & rest & ->). apply str_in_app_r, str_in_app_l.
Qed.

(** The first occurrence of a character. *)
Lemma str_in_char_first (c : ascii) (s : string) :
  str_in (String c "") s = true ->
  exists pre rest, s = pre +:+ String c rest /\ str_in (String c "") pre = false.
Proof.
  induction s as [|d s IH]; [discriminate|].
  rewrite str_in_char_cons. destruct (Ascii.eqb c d) eqn:Hcd.
  - apply Ascii.eqb_eq in Hcd as <-. intros _. exists "", s. split; reflexivity.
  - simpl. intros Hs. destruct (IH Hs) as (pre & rest & -> & Hpre).
    exists (String d pre), rest. split; [reflexivity|].
    rewrite str_in_char_cons, Hcd, Hpre. reflexivity.
Qed.

(** The last occurrence of a character. *)
Lemma str_in_char_last (c : ascii) (s : string) :
  str_in (String c "") s = true ->
  exists pre rest, s = pre +:+ String c rest /\ str_in (String c "") rest = false.
Proof.
  induction s as [|d s IH]; [discriminate|].
  rewrite str_in_char_cons.
  destruct (str_in (String c "") s) eqn:Hs.
  - intros _. destruct (IH eq_refl) as (pre & rest & -> & Hrest).
    exists (String d pre), rest. split; [reflexivity|exact Hrest].
  - rewrite orb_false_r. intros Hcd. apply Ascii.eqb_eq in Hcd as <-.
    exists "", s. split; [reflexivity|exact Hs].
Qed.

(** ** [split] and [join] *)

Lemma split_nonempty (sep : ascii) (s : string) : split sep s <> [].
Proof.
  destruct s as [|c s]; simpl; [discriminate|].
  destruct (Ascii.eqb c sep); [discriminate|].
  destruct (split sep s); discriminate.
Qed.

Lemma split_absent (sep : ascii) (s : string) :
  str_in (String sep "") s = false -> split sep s = [s].
Proof.
  induction s as [|c s IH]; [reflexivity|].
  rewrite str_in_char_cons. intros H. apply orb_false_iff in H as [Hc Hs].
  simpl. rewrite Ascii.eqb_sym, Hc, (IH Hs). reflexivity.
Qed.

Lemma split_first (sep : ascii) (pre rest : string) :
  str_in (String sep "") pre = false ->
  split sep (pre +:+ String sep rest) = pre :: split sep rest.
Proof.
  induction pre as [|c pre IH].
  - intros _. rewrite app_empty_l. simpl. rewrite Ascii.eqb_refl. reflexivity.
  - rewrite str_in_char_cons. intros H. apply orb_false_iff in H as [Hc Hpre].
    rewrite app_cons. simpl. rewrite Ascii.eqb_sym, Hc, (IH Hpre). reflexivity.
Qed.

Lemma join_cons (sep p : string) (q : string) (rest : list string) :
  join sep (p :: q :: rest) = p +:+ sep +:+ join sep (q :: rest).
Proof. reflexivity. Qed.

Lemma join_split (sep : ascii) (s : string) :
  join (String sep "") (split sep s) = s.
Proof.
  induction s as [|c s IH]; [reflexivity|].
  simpl split. destruct (Ascii.eqb c sep) eqn:Hc.
  - apply Ascii.eqb_eq in Hc as ->.
    destruct (split sep s) as [|p ps] eqn:Hsp; [destruct (split_nonempty _ _ Hsp)|].
    rewrite join_cons, IH. reflexivity.
  - destruct (split sep s) as [|p ps] eqn:Hsp; [destruct (split_nonempty _ _ Hsp)|].
    destruct ps as [|q ps].
    + simpl in *. rewrite IH. reflexivity.
    + rewrite join_cons in *. rewrite app_cons, IH. reflexivity.
Qed.

(** ** [rsplit1] *)

Lemma rsplit1_absent (sep : ascii) (s : string) :
  str_in (String sep "") s = false -> rsplit1 sep s = [s].
Proof.
  induction s as [|c s IH]; [reflexivity|].
  rewrite str_in_char_cons. intros H. apply orb_false_iff in H as [Hc Hs].
  simpl. rewrite (IH Hs), Ascii.eqb_sym, Hc. reflexivity.
Qed.

Lemma rsplit1_last (sep : ascii) (pre rest : string) :
  str_in (String sep "") rest = false ->
  rsplit1 sep (pre +:+ String sep rest) = [pre; rest].
Proof.
  intros Hrest. induction pre as [|c pre IH].
  - rewrite app_empty_l. simpl. rewrite (rsplit1_absent _ _ Hrest), Ascii.eqb_refl.
    reflexivity.
  - rewrite app_cons. simpl. rewrite IH. reflexivity.
Qed.

(** [filename.rsplit('.', 1)[1]] exists whenever ['.' in filename]. *)
Lemma rsplit1_index_1 (sep : ascii) (s : string) :
  str_in (String sep "") s = true -> is_Some (rsplit1 sep s !! 1).
Proof.
  intros H. destruct (str_in_char_last _ _ H) as (pre & rest & -> & Hrest).
  rewrite (rsplit1_last _ _ _ Hrest). eexists. reflexivity.
Qed.

(** ** [lower] *)

Lemma lower_app (s t : string) : lower (s +:+ t) = lower s +:+ lower t.
Proof.
  induction s as [|c s IH]; [reflexivity|].
  rewrite app_cons. simpl. rewrite IH. reflexivity.
Qed.

Lemma lower_app_inv (s a b : string) :
  lower s = a +:+ b ->
  exists s1 s2, s = s1 +:+ s2 /\ lower s1 = a /\ lower s2 = b.
Proof.
  revert s. induction a as [|c a IH]; intros s H.
  - exists "", s. repeat split. exact H.
  - destruct s as [|d s]; [discriminate|].
    rewrite app_cons in H. simpl in H. injection H as Hd Hs.
    destruct (IH _ Hs) as (s1 & s2 & -> & H1 & H2).
    exists (String d s1), s2. repeat split; [|exact H2].
    simpl. rewrite Hd, H1. reflexivity.
Qed.

Lemma lower_char_idem (c : ascii) : lower_char (lower_char c) = lower_char c.
Proof. destruct c as [[] [] [] [] [] [] [] []]; reflexivity. Qed.

(** Only the dot lowers to the dot. *)
Lemma lower_char_dot (c : ascii) : lower_char c = "."%char -> c = "."%char.
Proof. destruct c as [[] [] [] [] [] [] [] []]; vm_compute; congruence. Qed.

Lemma lower_idem (s : string) : lower (lower s) = lower s.
Proof.
  induction s as [|c s IH]; [reflexivity|].
  simpl. rewrite lower_char_idem, IH. reflexivity.
Qed.

(** A lowercase text found in [s] is found in [s.lower()]. *)
Lemma str_in_lower (word s : string) :
  lower word = word -> str_in word s = true -> str_in word (lower s) = true.
Proof.
  intros Hword H. apply str_in_iff in H as (before & rest & ->).
  rewrite !lower_app, Hword. apply str_in_app_r, str_in_app_l.
Qed.

(** ** [endswith] *)

Lemma endswith_iff (s suffix : string) :
  endswith s suffix = true <-> exists pre, s = pre +:+ suffix.
Proof.
  induction s as [|c s IH]; cbn [endswith].
  - rewrite orb_false_r, String.eqb_eq. split.
    + intros <-. exists "". reflexivity.
    + intros [pre H]. destruct pre; [|discriminate].
      rewrite app_empty_l in H. exact H.
  - rewrite orb_true_iff, IH, String.eqb_eq. split.
    + intros [<-|[pre ->]].
      * exists "". reflexivity.
      * exists (String c pre). reflexivity.
    + intros [pre H]. destruct pre as [|d pre].
      * left. rewrite app_empty_l in H. exact H.
      * right. rewrite app_cons in H. injection H as _ ->. exists pre. reflexivity.
Qed.

(** ** Slices *)

Lemma slice_to_length (n : nat) (s : string) :
  String.length (slice_to n s) = min n (String.length s).
Proof.
  revert s. induction n as [|n IH]; intros [|c s]; simpl; try reflexivity.
  rewrite IH. reflexivity.
Qed.

Lemma slice_to_prefix (n : nat) (s : string) :
  exists rest, s = slice_to n s +:+ rest.
Proof.
  revert s. induction n as [|n IH]; intros s.
  - exists s. destruct s; reflexivity.
  - destruct s as [|c s]; [exists ""; reflexivity|].
    destruct (IH s) as [rest Hrest]. exists rest.
    simpl. rewrite app_cons, <- Hrest. reflexivity.
Qed.

Lemma slice_to_all (n : nat) (s : string) :
  String.length s <= n -> slice_to n s = s.
Proof.
  revert s. induction n as [|n IH]; intros [|c s]; simpl; try reflexivity.
  - lia.
  - intros H. rewrite IH by lia. reflexivity.
Qed.

Lemma last_n_length {A} (n : nat) (l : list A) :
  length (last_n n l) = min n (length l).
Proof. unfold last_n. rewrite length_drop. lia. Qed.

End PyFacts.

(* ===================================================================== *)
(** * Facts: file names, uploads and file serving *)
(* ===================================================================== *)

Module StoreFacts.
Import Py PyFacts Store Wording.

(** ** The extension test *)

Lemma pdf_in_allowed (ext : string) :
  bool_decide (ext ∈ ALLOWED_EXTENSIONS) = true <-> ext = "pdf".
Proof.
  unfold ALLOWED_EXTENSIONS. rewrite bool_decide_eq_true. set_solver.
Qed.

Lemma lowers_to_pdf_no_dot (ext : string) :
  lower ext = "pdf" -> str_in "." ext = false.
Proof.
  destruct ext as [|a [|b [|c [|d ext]]]]; try discriminate.
  simpl lower. intros H. injection H as Ha Hb Hc.
  rewrite !str_in_char_cons, str_in_char_empty.
  destruct (Ascii.eqb_spec "." a) as [<-|_]; [discriminate|].
  destruct (Ascii.eqb_spec "." b) as [<-|_]; [discriminate|].
  destruct (Ascii.eqb_spec "." c) as [<-|_]; [discriminate|].
  reflexivity.
Qed.

(** [allowed_file] accepts exactly the names [stem.ext] whose [ext] lowers
    to [pdf]. *)
Lemma allowed_file_iff (filename : string) :
  allowed_file filename = true <->
  exists stem ext, filename = stem +:+ "." +:+ ext /\ lower ext = "pdf".
Proof.
  unfold allowed_file. split.
  - intros H. apply andb_true_iff in H as [Hdot Hext].
    destruct (str_in_char_last _ _ Hdot) as (stem & ext & -> & Hnodot).
    rewrite (rsplit1_last _ _ _ Hnodot) in Hext. simpl in Hext.
    apply pdf_in_allowed in Hext. exists stem, ext. split; [reflexivity|exact Hext].
  - intros (stem & ext & -> & Hext).
    pose proof (lowers_to_pdf_no_dot _ Hext) as Hnodot.
    apply andb_true_iff. split.
    + change (stem +:+ "." +:+ ext) with (stem +:+ String "." ext).
      rewrite str_in_char_app, str_in_char_cons, Ascii.eqb_refl.
      apply orb_true_r.
    + change (stem +:+ "." +:+ ext) with (stem +:+ String "." ext).
      rewrite (rsplit1_last _ _ _ Hnodot). simpl.
      apply pdf_in_allowed, Hext.
Qed.

Lemma has_pdf_extension_iff (filename : string) :
  has_pdf_extension filename = true <->
  exists stem ext, filename = stem +:+ "." +:+ ext /\ lower ext = "pdf".
Proof.
  unfold has_pdf_extension. rewrite endswith_iff. split.
  - intros [pre Hpre].
    destruct (lower_app_inv _ _ _ Hpre) as (s1 & s2 & -> & _ & H2).
    destruct s2 as [|d ext]; [discriminate|].
    simpl in H2. injection H2 as Hd Hext.
    apply lower_char_dot in Hd as ->.
    exists s1, ext. split; [reflexivity|exact Hext].
  - intros (stem & ext & -> & Hext).
    exists (lower stem).
    change (stem +:+ "." +:+ ext) with (stem +:+ String "." ext).
    rewrite lower_app. simpl lower. rewrite Hext. reflexivity.
Qed.

(** The code's test and the specification's wording agree. *)
Lemma allowed_file_has_pdf_extension (filename : string) :
  allowed_file filename = has_pdf_extension filename.
Proof.
  apply eq_true_iff_eq.
  rewrite allowed_file_iff, has_pdf_extension_iff. reflexivity.
Qed.

Example allowed_file_examples :
  allowed_file "paper.PDF" = true
  /\ allowed_file ".pdf" = true
  /\ allowed_file "paper.pdf.exe" = false
  /\ allowed_file "pdf" = false
  /\ allowed_file "paper.pdf " = false.
Proof. repeat split. Qed.

(** ** Display names *)

Lemma display_name_of_prefixed (id rest : string) :
  str_in "_" id = false ->
  display_name_of (id +:+ "_" +:+ rest)
  = if String.length id =? 36 then rest else id +:+ "_" +:+ rest.
Proof.
  intros Hid. unfold display_name_of.
  change (id +:+ "_" +:+ rest) with (id +:+ String "_" rest).
  rewrite (split_first _ _ _ Hid).
  rewrite str_in_char_app, str_in_char_cons, Ascii.eqb_refl, orb_true_r.
  destruct (String.length id =? 36); [|reflexivity].
  apply join_split.
Qed.

Lemma display_name_of_plain (key : string) :
  str_in "_" key = false -> display_name_of key = key.
Proof.
  intros H. unfold display_name_of. rewrite (split_absent _ _ H), H. reflexivity.
Qed.

(** C7. A key [id_rest] whose part before the first underscore has exactly
    36 characters has the display name [rest], later underscores kept; a
    key that is not of this form is its own display name; and the key
    550e8400-e29b-41d4-a716-446655440000_report.pdf shows as report.pdf. *)
Theorem display_name_strips_id_prefix :
  (forall id rest : string,
      str_in "_" id = false -> String.length id = 36 ->
      display_name_of (id +:+ "_" +:+ rest) = rest)
  /\ (forall key : string,
      (~ exists id rest, key = id +:+ "_" +:+ rest
                         /\ str_in "_" id = false /\ String.length id = 36) ->
      display_name_of key = key)
  /\ display_name_of "550e8400-e29b-41d4-a716-446655440000_report.pdf"
     = "report.pdf".
Proof.
  split; [|split].
  - intros id rest Hid Hlen.
    rewrite (display_name_of_prefixed _ _ Hid), Hlen. reflexivity.
  - intros key Hnot.
    destruct (str_in "_" key) eqn:Hin.
    + destruct (str_in_char_first _ _ Hin) as (id & rest & -> & Hid).
      change (id +:+ String "_" rest) with (id +:+ "_" +:+ rest) in *.
      rewrite (display_name_of_prefixed _ _ Hid).
      destruct (String.length id =? 36) eqn:Hlen; [|reflexivity].
      apply Nat.eqb_eq in Hlen. destruct Hnot. exists id, rest. auto.
    + apply display_name_of_plain, Hin.
  - reflexivity.
Qed.

Lemma display_name_strips_id_prefix_witness :
  str_in "_" "550e8400-e29b-41d4-a716-446655440000" = false
  /\ String.length "550e8400-e29b-41d4-a716-446655440000" = 36
  /\ display_name_of
       ("550e8400-e29b-41d4-a716-446655440000" +:+ "_" +:+ "annual_report_v2.pdf")
     = "annual_report_v2.pdf".
Proof.
  split; [reflexivity|]. split; [reflexivity|].
  apply (proj1 display_name_strips_id_prefix); reflexivity.
Defined.

Example display_name_examples :
  display_name_of "report_final.pdf" = "report_final.pdf"
  /\ display_name_of "550e8400-e29b-41d4-a716-446655440000.pdf"
     = "550e8400-e29b-41d4-a716-446655440000.pdf"
  /\ display_name_of "550e8400-e29b-41d4-a716-446655440000_"
     = "".
Proof. repeat split. Qed.

(** [index] shows the five newest PDF files, newest first. *)
Example index_example :
  let disk :=
    {| path_exists := fun _ => true;
       listdir := fun _ => ["a.pdf"; "notes.txt"; "b.PDF";
                             "550e8400-e29b-41d4-a716-446655440000_c_d.pdf"];
       getmtime := fun p => if String.eqb p "uploads/b.PDF" then 30%float
                            else if String.eqb p "uploads/a.pdf" then 10%float
                            else 20%float |} in
  index disk
  = RenderUpload
      [ {| rf_name := "b.PDF"; rf_display_name := "b.PDF"; rf_date := 30%float |};
        {| rf_name := "550e8400-e29b-41d4-a716-446655440000_c_d.pdf";
           rf_display_name := "c_d.pdf"; rf_date := 20%float |};
        {| rf_name := "a.pdf"; rf_display_name := "a.pdf"; rf_date := 10%float |} ].
Proof. reflexivity. Qed.

(** ** Uploads *)

(** C5. An upload whose file name does not end in [.pdf], letter case apart,
    is answered by a redirect to the upload page with a flashed message, and
    the files on disk are the same after the request as before. *)
Theorem upload_rejects_non_pdf
    (secure_filename : string -> string) (uuid4 : string) (save : save_outcome)
    (files : gmap string (list Byte.byte))
    (request_files : gmap string FileStorage) (file : FileStorage) :
  request_files !! "file" = Some file ->
  has_pdf_extension (fs_filename file) = false ->
  upload_file secure_filename uuid4 save files request_files
  = (files,
     Redirect RequestUrl
       (Some (if String.eqb (fs_filename file) "" then "No file selected"
              else "Invalid file type. Please upload a PDF file."))).
Proof.
  intros Hfile Hext. unfold upload_file. rewrite Hfile.
  rewrite allowed_file_has_pdf_extension, Hext, andb_false_r.
  destruct (String.eqb (fs_filename file) ""); reflexivity.
Qed.

Lemma upload_rejects_non_pdf_witness :
  let file := {| fs_filename := "notes.PDF.txt"; fs_stream := [] |} in
  let request_files : gmap string FileStorage := {[ "file" := file ]} in
  request_files !! "file" = Some file
  /\ has_pdf_extension (fs_filename file) = false
  /\ upload_file (fun name => name) "550e8400-e29b-41d4-a716-446655440000"
       Saved ∅ request_files
     = (∅, Redirect RequestUrl
             (Some "Invalid file type. Please upload a PDF file.")).
Proof.
  split; [reflexivity|]. split; [reflexivity|].
  apply (upload_rejects_non_pdf (fun name => name)
           "550e8400-e29b-41d4-a716-446655440000" Saved ∅
           {[ "file" := {| fs_filename := "notes.PDF.txt"; fs_stream := [] |} ]}
           {| fs_filename := "notes.PDF.txt"; fs_stream := [] |});
    reflexivity.
Defined.

(** The only way to the viewer is a stored file under the fresh key. *)
Lemma upload_success_inv
    (secure_filename : string -> string) (uuid4 : string) (save : save_outcome)
    (files files' : gmap string (list Byte.byte))
    (request_files : gmap string FileStorage) (key : string) :
  upload_file secure_filename uuid4 save files request_files
  = (files', Redirect (UrlViewPdf key) None) ->
  exists file,
    request_files !! "file" = Some file
    /\ allowed_file (fs_filename file) = true
    /\ save = Saved
    /\ key = uuid4 +:+ "_" +:+ secure_filename (fs_filename file)
    /\ files' = <[os_path_join UPLOAD_FOLDER key := fs_stream file]> files.
Proof.
  unfold upload_file. destruct (request_files !! "file") as [file|]; [|discriminate].
  destruct (String.eqb (fs_filename file) ""); [discriminate|].
  simpl. destruct (allowed_file (fs_filename file)) eqn:Hallowed; [|discriminate].
  destruct save as [|text partial]; [|discriminate].
  intros H. injection H as <- <-. exists file. repeat split. exact Hallowed.
Qed.

(** C10. When an upload is accepted and saved, with a uuid text of 36
    characters without underscore, the file is stored under the key
    [uuid4_secure_filename(name)], the answer redirects to the viewer of
    that key, and the display name of the key is the sanitized name. *)
Theorem upload_key_round_trip
    (secure_filename : string -> string) (uuid4 : string)
    (files : gmap string (list Byte.byte))
    (request_files : gmap string FileStorage) (file : FileStorage) :
  String.length uuid4 = 36 ->
  str_in "_" uuid4 = false ->
  request_files !! "file" = Some file ->
  allowed_file (fs_filename file) = true ->
  let key := uuid4 +:+ "_" +:+ secure_filename (fs_filename file) in
  upload_file secure_filename uuid4 Saved files request_files
  = (<[os_path_join UPLOAD_FOLDER key := fs_stream file]> files,
     Redirect (UrlViewPdf key) None)
  /\ display_name_of key = secure_filename (fs_filename file).
Proof.
  intros Hlen Hno Hfile Hallowed key. split.
  - unfold upload_file. rewrite Hfile, Hallowed.
    destruct (String.eqb (fs_filename file) "") eqn:Hempty; [|reflexivity].
    apply String.eqb_eq in Hempty. rewrite Hempty in Hallowed. discriminate.
  - unfold key. rewrite (display_name_of_prefixed _ _ Hno), Hlen. reflexivity.
Qed.

Lemma upload_key_round_trip_witness :
  let uuid4 := "550e8400-e29b-41d4-a716-446655440000" in
  let file := {| fs_filename := "annual_report.pdf"; fs_stream := [] |} in
  let request_files : gmap string FileStorage := {[ "file" := file ]} in
  String.length uuid4 = 36
  /\ str_in "_" uuid4 = false
  /\ request_files !! "file" = Some file
  /\ allowed_file (fs_filename file) = true
  /\ display_name_of (uuid4 +:+ "_" +:+ "annual_report.pdf") = "annual_report.pdf".
Proof.
  split; [reflexivity|]. split; [reflexivity|]. split; [reflexivity|].
  split; [reflexivity|].
  apply (upload_key_round_trip (fun name => name)
           "550e8400-e29b-41d4-a716-446655440000" ∅
           {[ "file" := {| fs_filename := "annual_report.pdf"; fs_stream := [] |} ]}
           {| fs_filename := "annual_report.pdf"; fs_stream := [] |});
    reflexivity.
Defined.

(** ** Viewing and serving *)

(** For a key without a leading slash (the route hands over one path
    segment), the path tested is the key below the upload folder. *)
Lemma upload_path (fileKey : string) :
  String.prefix "/" fileKey = false ->
  os_path_join UPLOAD_FOLDER fileKey = "uploads/" +:+ fileKey.
Proof. unfold os_path_join. intros ->. reflexivity. Qed.

(** C6, as the code has it. Neither handler looks for traversal sequences:
    for every key, [view_pdf] refuses exactly when [os.path.exists] denies
    the joined path and otherwise renders the viewer for the key as given;
    [serve_pdf] answers 404 when the path does not exist, sends bytes only
    if [send_from_directory(UPLOAD_FOLDER, key)] returned them, and turns an
    exception of that call into a 500 answer carrying its text. *)
Theorem view_and_serve_test_existence_only
    (disk : Disk)
    (send_from_directory : string -> string -> result (list Byte.byte))
    (fileKey : string) :
  let file_path := os_path_join UPLOAD_FOLDER fileKey in
  is_rejection (view_pdf disk fileKey) = negb (path_exists disk file_path)
  /\ (path_exists disk file_path = true ->
      view_pdf disk fileKey = RenderViewer fileKey (display_name_of fileKey))
  /\ (path_exists disk file_path = false ->
      view_pdf disk fileKey = Redirect UrlIndex (Some "File not found")
      /\ serve_pdf disk send_from_directory fileKey = Body "PDF file not found" 404)
  /\ (forall content mimetype,
      serve_pdf disk send_from_directory fileKey = SendFile content mimetype <->
      path_exists disk file_path = true
      /\ send_from_directory UPLOAD_FOLDER fileKey = Ok content
      /\ mimetype = "application/pdf")
  /\ (forall e,
      path_exists disk file_path = true ->
      send_from_directory UPLOAD_FOLDER fileKey = Raise e ->
      serve_pdf disk send_from_directory fileKey
      = Body ("Error serving PDF: " +:+ exn_text e) 500).
Proof.
  intros file_path. unfold view_pdf, serve_pdf. fold file_path.
  destruct (path_exists disk file_path) eqn:Hex; simpl.
  - split; [reflexivity|]. split; [reflexivity|]. split; [discriminate|]. split.
    + intros content mimetype.
      destruct (send_from_directory UPLOAD_FOLDER fileKey) as [bytes|e]; split.
      * intros H. injection H as -> <-. auto.
      * intros (_ & H & ->). injection H as ->. reflexivity.
      * discriminate.
      * intros (_ & H & _). discriminate.
    + intros e _ ->. reflexivity.
  - split; [reflexivity|]. split; [discriminate|]. split; [auto|]. split.
    + intros content mimetype. split; [discriminate|]. intros (H & _). discriminate.
    + discriminate.
Qed.

Lemma view_and_serve_test_existence_only_witness :
  let disk := {| path_exists := fun p => String.eqb p "uploads/a.pdf";
                 listdir := fun _ => ["a.pdf"];
                 getmtime := fun _ => 0%float |} in
  let send := fun (_ name : string) =>
                if String.eqb name "a.pdf" then Ok []
                else Raise (Exn LibraryError "404 Not Found") in
  path_exists disk (os_path_join UPLOAD_FOLDER "a.pdf") = true
  /\ view_pdf disk "a.pdf" = RenderViewer "a.pdf" "a.pdf"
  /\ serve_pdf disk send "a.pdf" = SendFile [] "application/pdf".
Proof.
  intros disk send.
  pose proof (view_and_serve_test_existence_only disk send "a.pdf")
    as (_ & Hview & _ & Hserve & _).
  split; [reflexivity|]. split.
  - apply Hview. reflexivity.
  - apply Hserve. repeat split.
Defined.

(** C6, as worded, fails: the key [..] contains a traversal sequence, the
    upload folder has a parent, and [view_pdf] renders the viewer for it. *)
Lemma view_pdf_accepts_traversal_key :
  let disk := {| path_exists :=
                   fun p => String.eqb p "uploads" || String.eqb p "uploads/..";
                 listdir := fun _ => [];
                 getmtime := fun _ => 0%float |} in
  has_traversal ".." = true
  /\ view_pdf disk ".." = RenderViewer ".." ".."
  /\ is_rejection (view_pdf disk "..") = false.
Proof. repeat split. Qed.

End StoreFacts.

(* ===================================================================== *)
(** * Facts: the chat proxy *)
(* ===================================================================== *)

Module ChatFacts.
Import Py PyFacts Chat Wording.

Lemma chat_eq (api_key : option string) (api : CompletionCall -> ApiOutcome)
    (data : ChatData) :
  chat api_key api data
  = (reply_of (fst (chat_body api_key api data)), snd (chat_body api_key api data)).
Proof.
  unfold chat. destruct (chat_body api_key api data) as [r calls]. reflexivity.
Qed.

(** With a credential, [chat] makes exactly one call, with the assembled
    messages and the fixed parameters. *)
Lemma chat_body_with_key (key : string) (api : CompletionCall -> ApiOutcome)
    (data : ChatData) :
  key <> "" ->
  let message := default (VStr "") (d_message data) in
  let history := default [] (d_history data) in
  let context := default ∅ (d_context data) in
  let call := completion_call key (build_messages message history context) in
  chat_body (Some key) api data
  = (match api call with
     | Completed text => Ok (strip text)
     | ApiRaised text => on_openai_error text message context
     end, [call]).
Proof.
  intros Hkey. unfold chat_body.
  destruct (String.eqb_spec key "") as [->|_]; [destruct Hkey; reflexivity|].
  cbv zeta. destruct (api _); reflexivity.
Qed.

Lemma chat_body_without_credential
    (api_key : option string) (api : CompletionCall -> ApiOutcome)
    (data : ChatData) :
  no_credential api_key = true ->
  chat_body api_key api data = (Ok MISSING_KEY_REPLY, []).
Proof.
  intros Hkey. unfold chat_body.
  destruct api_key as [key|]; [|reflexivity].
  simpl in Hkey. rewrite Hkey. reflexivity.
Qed.

Lemma recent_history_suffix (history : list chat_msg) :
  exists older,
    history = older ++ recent_history history
    /\ length (recent_history history) = min (length history) 10.
Proof.
  unfold recent_history.
  destruct (10 <? length history) eqn:Hlen.
  - apply Nat.ltb_lt in Hlen.
    exists (take (length history - 10) history). split.
    + unfold last_n. symmetry. apply take_drop.
    + rewrite last_n_length. lia.
  - apply Nat.ltb_ge in Hlen. exists []. split; [reflexivity|lia].
Qed.

(** C2. With a credential configured, the one call made carries the list:
    the system instruction, then the suffix of the history that holds its
    last [min n 10] entries in their order, then the user message.  A
    history of 15 entries loses its first 5. *)
Theorem chat_forwards_last_ten
    (key : string) (api : CompletionCall -> ApiOutcome) (data : ChatData) :
  key <> "" ->
  let message := default (VStr "") (d_message data) in
  let history := default [] (d_history data) in
  let context := default ∅ (d_context data) in
  exists call older recent,
    snd (chat (Some key) api data) = [call]
    /\ history = older ++ recent
    /\ length recent = min (length history) 10
    /\ cc_messages call
       = [ {| role := "system"; content := VStr (system_prompt context) |} ]
           ++ recent ++ [ {| role := "user"; content := message |} ]
    /\ (length history = 15 -> recent = drop 5 history).
Proof.
  intros Hkey message history context.
  rewrite chat_eq, (chat_body_with_key key api data Hkey). cbv zeta. simpl snd.
  destruct (recent_history_suffix history) as (older & Holder & Hlen).
  eexists _, older, (recent_history history).
  split; [reflexivity|]. split; [exact Holder|]. split; [exact Hlen|].
  split; [reflexivity|].
  intros H15. unfold recent_history, last_n. rewrite H15. reflexivity.
Qed.

Lemma chat_forwards_last_ten_witness :
  let entry := fun n => {| role := "user"; content := VInt n |} in
  let history := entry <$> [1; 2; 3; 4; 5; 6; 7; 8; 9; 10; 11; 12; 13; 14; 15]%Z in
  let data := {| d_message := Some (VStr "and now?");
                 d_history := Some history;
                 d_context := None |} in
  "sk-test" <> ""
  /\ exists call older recent,
       snd (chat (Some "sk-test") (fun _ => Completed "fine") data) = [call]
       /\ history = older ++ recent
       /\ length recent = 10
       /\ cc_messages call
          = [ {| role := "system"; content := VStr (system_prompt ∅) |} ]
              ++ recent ++ [ {| role := "user"; content := VStr "and now?" |} ]
       /\ (length history = 15 -> recent = drop 5 history).
Proof.
  intros entry history data. split; [discriminate|].
  apply (chat_forwards_last_ten "sk-test" (fun _ => Completed "fine") data).
  discriminate.
Defined.

(** ** Failures of the completion call *)

Example on_openai_error_examples :
  on_openai_error "Incorrect API key provided" (VStr "hi") ∅ = Ok INVALID_KEY_REPLY
  /\ on_openai_error "Rate limit reached for requests" (VStr "hi") ∅
     = Ok RATE_LIMIT_REPLY
  /\ on_openai_error "Connection error." (VStr "hi") ∅ = Ok NETWORK_REPLY
  /\ chat (Some "sk-test") (fun _ => Completed "  Page 2 is about cats.  ")
          {| d_message := Some (VStr "hi"); d_history := None; d_context := None |}
     = (Jsonify (JResponse "Page 2 is about cats.") 200,
        [completion_call "sk-test" (build_messages (VStr "hi") [] ∅)]).
Proof. repeat split. Qed.

Lemma on_openai_error_unclassified
    (text : string) (message : pyval) (context : gmap string pyval) :
  unclassified text = true ->
  on_openai_error text message context = fallback_reply message context.
Proof.
  unfold unclassified, on_openai_error. cbv zeta. intros H.
  apply negb_true_iff in H.
  repeat (apply orb_false_iff in H as [H ?]).
  repeat match goal with Hx : str_in _ _ = false |- _ => rewrite Hx; clear Hx end.
  reflexivity.
Qed.

Lemma chat_unclassified_failure
    (key : string) (api : CompletionCall -> ApiOutcome) (data : ChatData)
    (text : string) :
  key <> "" ->
  let message := default (VStr "") (d_message data) in
  let history := default [] (d_history data) in
  let context := default ∅ (d_context data) in
  api (completion_call key (build_messages message history context))
  = ApiRaised text ->
  unclassified text = true ->
  fst (chat (Some key) api data) = reply_of (fallback_reply message context).
Proof.
  intros Hkey message history context Hapi Hun.
  rewrite chat_eq, (chat_body_with_key key api data Hkey). cbv zeta. simpl fst.
  fold message history context. rewrite Hapi.
  rewrite (on_openai_error_unclassified _ _ _ Hun). reflexivity.
Qed.

Lemma fallback_reply_selected (message : pyval) (context : gmap string pyval)
    (s : string) :
  dict_get context "selectedText" VNone = VStr s -> s <> "" ->
  fallback_reply message context
  = Ok ("I can see you've selected: " +:+ dquote +:+ slice_to 200 s +:+
        (if 200 <? String.length s then "..." else "") +:+ dquote +:+ nl +:+ nl +:+
        "What would you like me to explain about this selection? (Note: AI chat temporarily unavailable)").
Proof.
  intros Hsel Hne. unfold fallback_reply. rewrite Hsel. simpl truthy.
  destruct (String.eqb_spec s "") as [->|_]; [destruct Hne; reflexivity|].
  simpl negb. cbv iota.
  unfold dict_get in Hsel. unfold dict_item.
  destruct (context !! "selectedText") as [v|]; [|discriminate].
  simpl in Hsel. subst v. reflexivity.
Qed.

Lemma fallback_reply_no_selection (m : string) (context : gmap string pyval) :
  truthy (dict_get context "selectedText" VNone) = false ->
  fallback_reply (VStr m) context
  = Ok (if mentions "summary" m then
          "I'd be happy to provide a summary of page " +:+
          py_str (dict_get context "currentPage" (VInt 1)) +:+
          " of this document. What specific section interests you? (Note: AI chat temporarily unavailable)"
        else if mentions "explain" m then
          "I can help explain concepts from this PDF. Could you point me to the specific section or concept you'd like me to clarify? (Note: AI chat temporarily unavailable)"
        else
          "I'm here to help you understand this PDF document. Currently viewing page " +:+
          py_str (dict_get context "currentPage" (VInt 1)) +:+ " of " +:+
          py_str (dict_get context "totalPages" (VStr "?")) +:+
          ". What would you like to know? (Note: AI chat temporarily unavailable)").
Proof.
  intros Hsel. unfold fallback_reply, mentions. rewrite Hsel. simpl.
  destruct (str_in "summary" (lower m)); [reflexivity|].
  destruct (str_in "explain" (lower m)); reflexivity.
Qed.

(** C3. Let the completion call fail with an error that is neither an
    authentication, a rate-limit nor a network error, for a request whose
    message is the string [m].  If the selected text [s] of the context is
    not empty, the reply quotes its first 200 characters between double
    quotes, followed by three dots exactly when [s] has more than 200
    characters.  Otherwise, if [m] mentions "summary" the reply offers a
    summary of the current page; otherwise, if [m] mentions "explain" the
    reply asks for the section; otherwise the reply is the general help
    text with the current and the total page.  To mention a word is to
    contain it once the message is put in lower case, so a message that
    contains the word as written mentions it.  The reply is a function of
    the message and the context alone. *)
Theorem fallback_reply_rules
    (key : string) (api : CompletionCall -> ApiOutcome) (data : ChatData)
    (text m : string) :
  key <> "" ->
  let message := default (VStr "") (d_message data) in
  let history := default [] (d_history data) in
  let context := default ∅ (d_context data) in
  message = VStr m ->
  api (completion_call key (build_messages message history context))
  = ApiRaised text ->
  unclassified text = true ->
  let selected := dict_get context "selectedText" VNone in
  let page := py_str (dict_get context "currentPage" (VInt 1)) in
  let pages := py_str (dict_get context "totalPages" (VStr "?")) in
  let reply := fst (chat (Some key) api data) in
  (forall s, selected = VStr s -> s <> "" ->
     reply = Jsonify (JResponse
       ("I can see you've selected: " +:+ dquote +:+ slice_to 200 s +:+
        (if 200 <? String.length s then "..." else "") +:+ dquote +:+ nl +:+ nl +:+
        "What would you like me to explain about this selection? (Note: AI chat temporarily unavailable)")) 200
     /\ String.length (slice_to 200 s) = min 200 (String.length s)
     /\ exists rest, s = slice_to 200 s +:+ rest)
  /\ (truthy selected = false -> mentions "summary" m = true ->
     reply = Jsonify (JResponse
       ("I'd be happy to provide a summary of page " +:+ page +:+
        " of this document. What specific section interests you? (Note: AI chat temporarily unavailable)")) 200)
  /\ (truthy selected = false -> mentions "summary" m = false ->
     mentions "explain" m = true ->
     reply = Jsonify (JResponse
       "I can help explain concepts from this PDF. Could you point me to the specific section or concept you'd like me to clarify? (Note: AI chat temporarily unavailable)") 200)
  /\ (truthy selected = false -> mentions "summary" m = false ->
     mentions "explain" m = false ->
     reply = Jsonify (JResponse
       ("I'm here to help you understand this PDF document. Currently viewing page " +:+
        page +:+ " of " +:+ pages +:+
        ". What would you like to know? (Note: AI chat temporarily unavailable)")) 200)
  /\ reply = reply_of (fallback_reply (VStr m) context)
  /\ (str_in "summary" m = true -> mentions "summary" m = true)
  /\ (str_in "explain" m = true -> mentions "explain" m = true).
Proof.
  intros Hkey message history context Hm Hapi Hun selected page pages reply.
  assert (Hreply : reply = reply_of (fallback_reply (VStr m) context)).
  { unfold reply. rewrite <- Hm.
    exact (chat_unclassified_failure key api data text Hkey Hapi Hun). }
  repeat split.
  - rewrite Hreply, (fallback_reply_selected _ _ s) by assumption. reflexivity.
  - apply slice_to_length.
  - apply slice_to_prefix.
  - intros Hsel Hsum.
    rewrite Hreply, (fallback_reply_no_selection _ _ Hsel), Hsum. reflexivity.
  - intros Hsel Hsum Hexp.
    rewrite Hreply, (fallback_reply_no_selection _ _ Hsel), Hsum, Hexp. reflexivity.
  - intros Hsel Hsum Hexp.
    rewrite Hreply, (fallback_reply_no_selection _ _ Hsel), Hsum, Hexp. reflexivity.
  - exact Hreply.
  - apply str_in_lower. reflexivity.
  - apply str_in_lower. reflexivity.
Qed.

Lemma fallback_reply_rules_witness :
  let s := join "" (replicate 21 "lorem ipsum ") in
  let data := {| d_message := Some (VStr "what is this?");
                 d_history := None;
                 d_context := Some {[ "selectedText" := VStr s ]} |} in
  let api := fun _ : CompletionCall => ApiRaised "Internal server error" in
  "sk-test" <> ""
  /\ unclassified "Internal server error" = true
  /\ 200 < String.length s
  /\ fst (chat (Some "sk-test") api data)
     = Jsonify (JResponse
         ("I can see you've selected: " +:+ dquote +:+ slice_to 200 s +:+ "..." +:+
          dquote +:+ nl +:+ nl +:+
          "What would you like me to explain about this selection? (Note: AI chat temporarily unavailable)"))
         200.
Proof.
  intros s data api.
  assert (Hkey : "sk-test" <> "") by discriminate.
  split; [exact Hkey|]. split; [reflexivity|]. split; [vm_compute; lia|].
  pose proof (fallback_reply_rules "sk-test" api data "Internal server error"
                "what is this?" Hkey eq_refl eq_refl eq_refl) as (Hsel & _).
  destruct (Hsel s eq_refl) as (Hreply & _); [discriminate|].
  exact Hreply.
Defined.

(** ** A failure the handler cannot answer *)

(** A message that is not a string makes the handler of the API error raise
    in its turn; the outer handler answers with the error object. *)
Example chat_message_not_a_string :
  chat (Some "sk-test") (fun _ => ApiRaised "Internal server error")
       {| d_message := Some (VInt 5); d_history := None; d_context := None |}
  = (Jsonify (JError "Failed to process chat request") 500,
     [completion_call "sk-test" (build_messages (VInt 5) [] ∅)]).
Proof. reflexivity. Qed.

(** ** The system instruction *)

(** C9, as the code has it. With a credential configured, the first message
    of the call is the system instruction, and it reads, between fixed
    texts: the [filename] field of the context as it came (default
    [Unknown]), the current page (default 1), the total pages (default
    [Unknown]) and the selected text (default [None]).  For a request posted
    by the viewer these are the stored file key, unchanged, the two page
    numbers in decimal, and the selection. *)
Theorem system_prompt_embeds_context
    (key : string) (api : CompletionCall -> ApiOutcome) (data : ChatData) :
  key <> "" ->
  let context := default ∅ (d_context data) in
  let before :=
    "You are a helpful PDF assistant. You're helping the user understand a PDF document."
    +:+ nl +:+ nl +:+ "Current PDF Context:" +:+ nl in
  exists call rest after,
    snd (chat (Some key) api data) = [call]
    /\ cc_messages call
       = {| role := "system"; content := VStr (system_prompt context) |} :: rest
    /\ system_prompt context
       = before +:+
         "- Filename: " +:+ py_str (dict_get context "filename" (VStr "Unknown")) +:+ nl +:+
         "- Current Page: " +:+ py_str (dict_get context "currentPage" (VInt 1)) +:+
         " of " +:+ py_str (dict_get context "totalPages" (VStr "Unknown")) +:+ nl +:+
         "- Selected Text: " +:+ py_str (dict_get context "selectedText" (VStr "None")) +:+ nl +:+
         after
    /\ (forall filename message chatHistory currentPage numPages selection,
          sendMessage filename message chatHistory currentPage (Some numPages) selection
          = Some data ->
          system_prompt context
          = before +:+
            "- Filename: " +:+ filename +:+ nl +:+
            "- Current Page: " +:+ str_of_int currentPage +:+
            " of " +:+ str_of_int numPages +:+ nl +:+
            "- Selected Text: " +:+ selection +:+ nl +:+
            after).
Proof.
  intros Hkey context before.
  rewrite chat_eq, (chat_body_with_key key api data Hkey). cbv zeta. simpl snd.
  eexists _, _, _. split; [reflexivity|]. split; [reflexivity|]. split.
  - unfold system_prompt. reflexivity.
  - intros filename message chatHistory currentPage numPages selection Hsend.
    unfold sendMessage in Hsend.
    destruct (String.eqb message ""); [discriminate|].
    injection Hsend as <-. reflexivity.
Qed.

Lemma system_prompt_embeds_context_witness :
  let key := "550e8400-e29b-41d4-a716-446655440000_report.pdf" in
  let data := {| d_message := Some (VStr "hello");
                 d_history := Some [ {| role := "user"; content := VStr "hello" |} ];
                 d_context := Some (pdfContext key 2%Z (Some 7%Z) "a few words") |} in
  "sk-test" <> ""
  /\ sendMessage key "hello" [] 2%Z (Some 7%Z) "a few words" = Some data
  /\ str_in ("- Filename: " +:+ key +:+ nl +:+ "- Current Page: 2 of 7" +:+ nl +:+
             "- Selected Text: a few words" +:+ nl)
            (system_prompt (default ∅ (d_context data))) = true.
Proof.
  intros key data.
  assert (Hkey : "sk-test" <> "") by discriminate.
  split; [exact Hkey|]. split; [reflexivity|].
  destruct (system_prompt_embeds_context "sk-test" (fun _ => Completed "ok") data Hkey)
    as (call & rest & after & _ & _ & _ & Hviewer).
  rewrite (Hviewer key "hello" [] 2%Z 7%Z "a few words" eq_refl).
  apply str_in_app_r.
  exact (str_in_app_l
           ("- Filename: " +:+ key +:+ nl +:+ "- Current Page: 2 of 7" +:+ nl +:+
            "- Selected Text: a few words" +:+ nl) after).
Defined.

(** C9, as worded, fails: the viewer of the stored key
    550e8400-e29b-41d4-a716-446655440000_report.pdf posts that key, and the
    system instruction sent to the completion API shows the key with its id
    prefix, not the display name report.pdf. *)
Lemma system_prompt_keeps_id_prefix :
  let key := "550e8400-e29b-41d4-a716-446655440000_report.pdf" in
  let context := pdfContext key 1%Z (Some 3%Z) "" in
  let data := {| d_message := Some (VStr "hello");
                 d_history := Some [ {| role := "user"; content := VStr "hello" |} ];
                 d_context := Some context |} in
  sendMessage key "hello" [] 1%Z (Some 3%Z) "" = Some data
  /\ Store.display_name_of key = "report.pdf"
  /\ (head ∘ cc_messages) <$> snd (chat (Some "sk-test") (fun _ => Completed "ok") data)
     = [ Some {| role := "system"; content := VStr (system_prompt context) |} ]
  /\ system_prompt context <> system_prompt_display_name context
  /\ str_in ("- Filename: " +:+ key) (system_prompt context) = true
  /\ str_in "- Filename: report.pdf" (system_prompt context) = false.
Proof.
  repeat split; try reflexivity.
  vm_compute. discriminate.
Qed.

End ChatFacts.

(* ===================================================================== *)
(** * Facts: the zoom scale stays in range *)
(* ===================================================================== *)

Module ViewerFacts.
Import Viewer.

(** The tables are right: one conversion each. *)
Lemma zoomIn_table_ok :
  map (fun s => Some (zoomIn s)) reachable_scales
  = map (fun i => reachable_scales !! i) zoomIn_table.
Proof. vm_compute. reflexivity. Qed.

Lemma zoomOut_table_ok :
  map (fun s => Some (zoomOut s)) reachable_scales
  = map (fun i => reachable_scales !! i) zoomOut_table.
Proof. vm_compute. reflexivity. Qed.

Lemma table_closed (f : float -> float) (table : list nat) (s : float) :
  map (fun s => Some (f s)) reachable_scales
  = map (fun i => reachable_scales !! i) table ->
  s ∈ reachable_scales -> f s ∈ reachable_scales.
Proof.
  intros Htable Hs.
  assert (Hin : Some (f s) ∈ map (fun s => Some (f s)) reachable_scales).
  { apply (list_elem_of_fmap_2 (fun s => Some (f s))), Hs. }
  rewrite Htable in Hin.
  apply list_elem_of_fmap in Hin as (i & Hi & _).
  symmetry in Hi.
  eapply list_elem_of_lookup_2, Hi.
Qed.

Lemma initial_reachable : initial_scale ∈ reachable_scales.
Proof. apply (list_elem_of_lookup_2 _ 0). reflexivity. Qed.

Lemma apply_zoom_closed (s : float) (op : zoom_op) :
  s ∈ reachable_scales -> apply_zoom s op ∈ reachable_scales.
Proof.
  intros Hs. destruct op; simpl.
  - exact (table_closed zoomIn _ s zoomIn_table_ok Hs).
  - exact (table_closed zoomOut _ s zoomOut_table_ok Hs).
  - exact initial_reachable.
Qed.

Lemma fold_zoom_closed (ops : list zoom_op) (s : float) :
  s ∈ reachable_scales -> fold_left apply_zoom ops s ∈ reachable_scales.
Proof.
  revert s. induction ops as [|op ops IH]; intros s Hs; simpl.
  - exact Hs.
  - apply IH, apply_zoom_closed, Hs.
Qed.

Example zoom_examples :
  run_zoom [ZoomIn; ZoomIn; ZoomIn; ZoomIn] = 2.9296875%float
  /\ run_zoom [ZoomIn; ZoomIn; ZoomIn; ZoomIn; ZoomIn] = 3%float
  /\ run_zoom [ZoomOut; ZoomOut; ZoomOut; ZoomOut] = 0.5%float
  /\ run_zoom [ZoomIn; ZoomOut] = 1.2000000000000002%float
  /\ run_zoom [ZoomIn; ZoomOut; ResetZoom] = 1.2%float
  /\ length reachable_scales = 267.
Proof. repeat split. Qed.

Lemma reachable_in_range : forallb in_range reachable_scales = true.
Proof. vm_compute. reflexivity. Qed.

(** C8. Whatever sequence of [zoomIn], [zoomOut] and [resetZoom] is applied
    to a fresh viewer (scale 1.2), the resulting scale [s] satisfies
    [0.5 <= s] and [s <= 3] in binary64 arithmetic; one more [zoomIn] still
    gives at most 3, one more [zoomOut] at least 0.5, and [resetZoom]
    gives exactly the initial 1.2 from any scale. *)
Theorem zoom_scale_in_range (ops : list zoom_op) :
  let s := run_zoom ops in
  PrimFloat.leb 0.5%float s = true
  /\ PrimFloat.leb s 3%float = true
  /\ PrimFloat.leb (zoomIn s) 3%float = true
  /\ PrimFloat.leb 0.5%float (zoomOut s) = true
  /\ (forall scale, resetZoom scale = initial_scale)
  /\ initial_scale = 1.2%float.
Proof.
  assert (Hrange : forall s, s ∈ reachable_scales -> in_range s = true).
  { intros s Hs. apply list_elem_of_In in Hs.
    exact (proj1 (forallb_forall in_range reachable_scales) reachable_in_range s Hs). }
  assert (Hreach : forall ops, run_zoom ops ∈ reachable_scales).
  { intros l. apply fold_zoom_closed, initial_reachable. }
  cbv zeta.
  pose proof (Hrange _ (Hreach ops)) as H0.
  pose proof (Hrange _ (Hreach (ops ++ [ZoomIn]))) as H1.
  pose proof (Hrange _ (Hreach (ops ++ [ZoomOut]))) as H2.
  unfold run_zoom in H1, H2. rewrite fold_left_app in H1, H2. simpl in H1, H2.
  fold (run_zoom ops) in H1, H2.
  unfold in_range in H0, H1, H2.
  apply andb_true_iff in H0 as [H0a H0b].
  apply andb_true_iff in H1 as [_ H1].
  apply andb_true_iff in H2 as [H2 _].
  repeat split; assumption || reflexivity.
Qed.

End ViewerFacts.

(* ===================================================================== *)
(** * More facts: file names, listing and uploads *)
(* ===================================================================== *)

Module StoreMore.
Import Py PyFacts Store Wording.

Lemma lower_char_p (c : ascii) :
  lower_char c = "p"%char <-> c = "p"%char \/ c = "P"%char.
Proof.
  destruct c as [[] [] [] [] [] [] [] []]; vm_compute;
    (split; [intros H; first [discriminate H | auto] | intros [H|H]; first [discriminate H | reflexivity]]).
Qed.

Lemma lower_char_d (c : ascii) :
  lower_char c = "d"%char <-> c = "d"%char \/ c = "D"%char.
Proof.
  destruct c as [[] [] [] [] [] [] [] []]; vm_compute;
    (split; [intros H; first [discriminate H | auto] | intros [H|H]; first [discriminate H | reflexivity]]).
Qed.

Lemma lower_char_f (c : ascii) :
  lower_char c = "f"%char <-> c = "f"%char \/ c = "F"%char.
Proof.
  destruct c as [[] [] [] [] [] [] [] []]; vm_compute;
    (split; [intros H; first [discriminate H | auto] | intros [H|H]; first [discriminate H | reflexivity]]).
Qed.

Lemma lowers_to_pdf (ext : string) :
  lower ext = "pdf" <->
  In ext ["pdf"; "pdF"; "pDf"; "pDF"; "Pdf"; "PdF"; "PDf"; "PDF"].
Proof.
  split.
  - destruct ext as [|a [|b [|c [|d ext]]]]; try discriminate.
    simpl lower. intros H. injection H as Ha Hb Hc.
    apply lower_char_p in Ha. apply lower_char_d in Hb. apply lower_char_f in Hc.
    destruct Ha as [->| ->], Hb as [->| ->], Hc as [->| ->]; simpl; tauto.
  - simpl. intros H.
    repeat (destruct H as [<-|H]; [reflexivity|]). destruct H.
Qed.

(** X1. [allowed_file] accepts a name exactly when it is some text, a dot,
    and one of the eight spellings of [pdf] in upper and lower case; so a
    name without dot, or with anything after the extension, is refused. *)
Theorem allowed_file_accepts_exactly (filename : string) :
  allowed_file filename = true <->
  exists stem ext,
    filename = stem +:+ "." +:+ ext
    /\ In ext ["pdf"; "pdF"; "pDf"; "pDF"; "Pdf"; "PdF"; "PDf"; "PDF"].
Proof.
  rewrite StoreFacts.allowed_file_iff. split.
  - intros (stem & ext & -> & Hext). exists stem, ext.
    split; [reflexivity|]. apply lowers_to_pdf, Hext.
  - intros (stem & ext & -> & Hext). exists stem, ext.
    split; [reflexivity|]. apply lowers_to_pdf, Hext.
Qed.

(** X2. The display name is always the end of the file name: either the
    whole name, or the name without its first 37 characters, which are an
    underscore-free text of 36 characters and the underscore after it. *)
Theorem display_name_is_suffix (filename : string) :
  exists dropped,
    filename = dropped +:+ display_name_of filename
    /\ (dropped = ""
        \/ exists id, dropped = id +:+ "_"
                      /\ String.length id = 36 /\ str_in "_" id = false).
Proof.
  destruct (str_in "_" filename) eqn:Hin.
  - destruct (str_in_char_first _ _ Hin) as (id & rest & -> & Hid).
    change (id +:+ String "_" rest) with (id +:+ "_" +:+ rest).
    rewrite (StoreFacts.display_name_of_prefixed _ _ Hid).
    destruct (String.length id =? 36) eqn:Hlen.
    + apply Nat.eqb_eq in Hlen. exists (id +:+ "_"). split.
      * rewrite app_assoc. reflexivity.
      * right. exists id. auto.
    + exists "". split; [reflexivity|]. left. reflexivity.
  - rewrite (StoreFacts.display_name_of_plain _ Hin).
    exists "". split; [reflexivity|]. left. reflexivity.
Qed.

(** ** Uploads *)

Lemma upload_file_saved
    (secure_filename : string -> string) (uuid4 : string)
    (files : gmap string (list Byte.byte))
    (request_files : gmap string FileStorage) (file : FileStorage) :
  request_files !! "file" = Some file ->
  allowed_file (fs_filename file) = true ->
  upload_file secure_filename uuid4 Saved files request_files
  = (<[os_path_join UPLOAD_FOLDER (uuid4 +:+ "_" +:+ secure_filename (fs_filename file))
       := fs_stream file]> files,
     Redirect (UrlViewPdf (uuid4 +:+ "_" +:+ secure_filename (fs_filename file))) None).
Proof.
  intros Hfile Hallowed. unfold upload_file. rewrite Hfile, Hallowed.
  destruct (String.eqb (fs_filename file) "") eqn:Hempty; [|reflexivity].
  apply String.eqb_eq in Hempty. rewrite Hempty in Hallowed. discriminate.
Qed.

(** Once the request is read, and whatever [file.save] does,
    [upload_file] changes the files on disk at one path at most, the path
    of the fresh key of an accepted file; and it answers either by the
    redirect to the viewer, after a completed save, or by a redirect to the
    upload page with a flashed message, in which case a save that did not
    raise has left every file as it was. *)
Lemma upload_file_frame
    (secure_filename : string -> string) (uuid4 : string) (save : save_outcome)
    (files : gmap string (list Byte.byte))
    (request_files : gmap string FileStorage) :
  let out := upload_file secure_filename uuid4 save files request_files in
  (forall path, fst out !! path <> files !! path ->
     exists file,
       request_files !! "file" = Some file
       /\ allowed_file (fs_filename file) = true
       /\ path = os_path_join UPLOAD_FOLDER
                   (uuid4 +:+ "_" +:+ secure_filename (fs_filename file)))
  /\ ((exists key, snd out = Redirect (UrlViewPdf key) None /\ save = Saved)
      \/ (exists message, snd out = Redirect RequestUrl (Some message)
                          /\ (save = Saved -> fst out = files))).
Proof.
  cbv zeta. unfold upload_file.
  destruct (request_files !! "file") as [file|] eqn:Hfile.
  2: { split; [intros path H; destruct H; reflexivity|]. right. eauto. }
  destruct (String.eqb (fs_filename file) "").
  { split; [intros path H; destruct H; reflexivity|]. right. eauto. }
  simpl negb. rewrite andb_true_l.
  destruct (allowed_file (fs_filename file)) eqn:Hallowed.
  2: { split; [intros path H; destruct H; reflexivity|]. right. eauto. }
  assert (Hframe : forall (bytes : list Byte.byte) path,
             <[os_path_join UPLOAD_FOLDER
                 (uuid4 +:+ "_" +:+ secure_filename (fs_filename file)) := bytes]> files
             !! path <> files !! path ->
             exists file0, Some file = Some file0
               /\ allowed_file (fs_filename file0) = true
               /\ path = os_path_join UPLOAD_FOLDER
                           (uuid4 +:+ "_" +:+ secure_filename (fs_filename file0))).
  { intros bytes path Hne. exists file. split; [reflexivity|]. split; [exact Hallowed|].
    destruct (decide (os_path_join UPLOAD_FOLDER
                        (uuid4 +:+ "_" +:+ secure_filename (fs_filename file)) = path))
      as [<-|Hother]; [reflexivity|].
    rewrite lookup_insert_ne in Hne by exact Hother. destruct Hne. reflexivity. }
  destruct save as [|text [bytes|]]; simpl.
  - split; [apply Hframe|]. left. eauto.
  - split; [apply Hframe|]. right. eexists. split; [reflexivity|discriminate].
  - split; [intros path H; destruct H; reflexivity|]. right.
    eexists. split; [reflexivity|discriminate].
Qed.

Lemma app_inv_same_length (a b c d : string) :
  String.length a = String.length c -> a +:+ b = c +:+ d -> a = c /\ b = d.
Proof.
  revert c. induction a as [|x a IH]; intros [|y c] Hlen H; try discriminate.
  - split; [reflexivity|exact H].
  - rewrite !app_cons in H. injection H as -> H. injection Hlen as Hlen.
    destruct (IH _ Hlen H) as [-> ->]. split; reflexivity.
Qed.

Lemma uploads_path_cases (key : string) :
  os_path_join UPLOAD_FOLDER key
  = if String.prefix "/" key then key else "uploads/" +:+ key.
Proof. unfold os_path_join. destruct (String.prefix "/" key); reflexivity. Qed.

Lemma uploads_path_inj (key1 key2 : string) :
  os_path_join UPLOAD_FOLDER key1 = os_path_join UPLOAD_FOLDER key2 -> key1 = key2.
Proof.
  rewrite !uploads_path_cases.
  destruct (String.prefix "/" key1) eqn:H1, (String.prefix "/" key2) eqn:H2; intros H.
  - exact H.
  - subst key1. discriminate H1.
  - subst key2. discriminate H2.
  - apply (app_inv_same_length "uploads/" _ "uploads/" _ eq_refl) in H as [_ H]. exact H.
Qed.

(** X4. Two accepted uploads saved one after the other under different
    uuid texts of the same length get different keys, and after the second
    both files are on disk with their own bytes, even when the two uploads
    carry the same file name. *)
Theorem uploads_do_not_collide
    (secure_filename : string -> string) (uuid_a uuid_b : string)
    (files : gmap string (list Byte.byte))
    (request_a request_b : gmap string FileStorage) (file_a file_b : FileStorage) :
  uuid_a <> uuid_b ->
  String.length uuid_a = String.length uuid_b ->
  request_a !! "file" = Some file_a ->
  allowed_file (fs_filename file_a) = true ->
  request_b !! "file" = Some file_b ->
  allowed_file (fs_filename file_b) = true ->
  let key_a := uuid_a +:+ "_" +:+ secure_filename (fs_filename file_a) in
  let key_b := uuid_b +:+ "_" +:+ secure_filename (fs_filename file_b) in
  let first := upload_file secure_filename uuid_a Saved files request_a in
  let second := upload_file secure_filename uuid_b Saved (fst first) request_b in
  key_a <> key_b
  /\ snd first = Redirect (UrlViewPdf key_a) None
  /\ snd second = Redirect (UrlViewPdf key_b) None
  /\ fst second !! os_path_join UPLOAD_FOLDER key_a = Some (fs_stream file_a)
  /\ fst second !! os_path_join UPLOAD_FOLDER key_b = Some (fs_stream file_b).
Proof.
  intros Hne Hlen Ha Hallowed_a Hb Hallowed_b key_a key_b first second.
  assert (Hkeys : key_a <> key_b).
  { intros H. apply (app_inv_same_length _ _ _ _ Hlen) in H as [H _]. exact (Hne H). }
  unfold second, first.
  rewrite (upload_file_saved _ _ _ _ _ Ha Hallowed_a). simpl fst.
  rewrite (upload_file_saved _ _ _ _ _ Hb Hallowed_b). simpl.
  fold key_a key_b.
  split; [exact Hkeys|]. split; [reflexivity|]. split; [reflexivity|]. split.
  - rewrite lookup_insert_ne.
    + apply lookup_insert_eq.
    + intros H. apply uploads_path_inj in H. exact (Hkeys (eq_sym H)).
  - apply lookup_insert_eq.
Qed.

Lemma uploads_do_not_collide_witness :
  let file_a := {| fs_filename := "report.pdf"; fs_stream := [Byte.x01] |} in
  let file_b := {| fs_filename := "report.pdf"; fs_stream := [Byte.x02] |} in
  let uuid_a := "550e8400-e29b-41d4-a716-446655440000" in
  let uuid_b := "6ba7b810-9dad-41d1-80b4-00c04fd430c8" in
  let first := upload_file (fun name => name) uuid_a Saved ∅ {[ "file" := file_a ]} in
  let second := upload_file (fun name => name) uuid_b Saved (fst first) {[ "file" := file_b ]} in
  uuid_a <> uuid_b
  /\ String.length uuid_a = String.length uuid_b
  /\ fst second !! "uploads/550e8400-e29b-41d4-a716-446655440000_report.pdf"
     = Some [Byte.x01]
  /\ fst second !! "uploads/6ba7b810-9dad-41d1-80b4-00c04fd430c8_report.pdf"
     = Some [Byte.x02].
Proof.
  intros file_a file_b uuid_a uuid_b first second.
  assert (Hne : uuid_a <> uuid_b) by discriminate.
  split; [exact Hne|]. split; [reflexivity|].
  assert (Ha : ({[ "file" := file_a ]} : gmap string FileStorage) !! "file"
               = Some file_a) by reflexivity.
  assert (Hb : ({[ "file" := file_b ]} : gmap string FileStorage) !! "file"
               = Some file_b) by reflexivity.
  assert (Hpdf : allowed_file "report.pdf" = true) by reflexivity.
  destruct (uploads_do_not_collide (fun name => name) uuid_a uuid_b ∅
              {[ "file" := file_a ]} {[ "file" := file_b ]} file_a file_b
              Hne eq_refl Ha Hpdf Hb Hpdf)
    as (_ & _ & _ & Hfirst & Hsecond).
  split; [exact Hfirst|exact Hsecond].
Defined.

(** ** The list of recent files *)

Lemma insert_desc_perm {A} (key : A -> float) (x : A) (l : list A) :
  Permutation (insert_desc key x l) (x :: l).
Proof.
  induction l as [|y l IH]; simpl; [reflexivity|].
  destruct (PrimFloat.ltb (key x) (key y)); [|reflexivity].
  rewrite IH. apply perm_swap.
Qed.

Lemma sorted_reverse_perm {A} (key : A -> float) (l : list A) :
  Permutation (sorted_reverse key l) l.
Proof.
  induction l as [|x l IH]; simpl; [reflexivity|].
  unfold sorted_reverse in *. simpl. rewrite insert_desc_perm, IH. reflexivity.
Qed.

(** The order of binary64 numbers is asymmetric. *)
Lemma ltb_asym (x y : float) :
  PrimFloat.ltb x y = true -> PrimFloat.ltb y x = false.
Proof.
  rewrite !ltb_spec. unfold SpecFloat.SFltb.
  destruct (Prim2SF x) as [sx|sx| |sx mx ex], (Prim2SF y) as [sy|sy| |sy my ey];
    simpl; try discriminate; try reflexivity;
    try (destruct sx; discriminate || reflexivity);
    try (destruct sy; discriminate || reflexivity);
    try (destruct sx, sy; discriminate || reflexivity).
  destruct sx, sy; try discriminate; try reflexivity.
  - rewrite (Z.compare_antisym ex ey).
    destruct (ex ?= ey)%Z eqn:He; simpl; try discriminate; try reflexivity.
    pose proof (Pos.compare_cont_antisym mx my Eq) as Hanti. simpl in Hanti.
    rewrite <- Hanti.
    destruct (Pos.compare_cont Eq mx my); simpl; discriminate || reflexivity.
  - rewrite (Z.compare_antisym ex ey).
    destruct (ex ?= ey)%Z eqn:He; simpl; try discriminate; try reflexivity.
    pose proof (Pos.compare_cont_antisym mx my Eq) as Hanti. simpl in Hanti.
    rewrite <- Hanti.
    destruct (Pos.compare_cont Eq mx my); simpl; discriminate || reflexivity.
Qed.

Lemma insert_desc_HdRel {A} (key : A -> float) (x y : A) (l : list A) :
  HdRel (fun a b => PrimFloat.ltb (key a) (key b) = false) y l -> PrimFloat.ltb (key y) (key x) = false ->
  HdRel (fun a b => PrimFloat.ltb (key a) (key b) = false) y (insert_desc key x l).
Proof.
  intros Hl Hx. destruct l as [|z l]; simpl; [constructor; exact Hx|].
  destruct (PrimFloat.ltb (key x) (key z)); constructor.
  - inversion Hl; assumption.
  - exact Hx.
Qed.

Lemma insert_desc_sorted {A} (key : A -> float) (x : A) (l : list A) :
  Sorted (fun a b => PrimFloat.ltb (key a) (key b) = false) l -> Sorted (fun a b => PrimFloat.ltb (key a) (key b) = false) (insert_desc key x l).
Proof.
  induction 1 as [|y l Hsorted IH Hhd]; simpl.
  - repeat constructor.
  - destruct (PrimFloat.ltb (key x) (key y)) eqn:Hxy.
    + constructor; [exact IH|].
      apply insert_desc_HdRel; [exact Hhd|]. apply ltb_asym, Hxy.
    + repeat constructor; assumption.
Qed.

Lemma sorted_reverse_sorted {A} (key : A -> float) (l : list A) :
  Sorted (fun a b => PrimFloat.ltb (key a) (key b) = false) (sorted_reverse key l).
Proof.
  induction l as [|x l IH]; [constructor|].
  unfold sorted_reverse in *. simpl. apply insert_desc_sorted, IH.
Qed.

Lemma sorted_adjacent {A} (R : A -> A -> Prop) (l : list A) (i : nat) (a b : A) :
  Sorted R l -> l !! i = Some a -> l !! S i = Some b -> R a b.
Proof.
  intros Hsorted. revert i. induction Hsorted as [|x l Hs IH Hhd]; intros i Ha Hb.
  - discriminate.
  - destruct i as [|i].
    + simpl in Ha, Hb. injection Ha as <-.
      destruct l as [|y l]; [discriminate|]. simpl in Hb. injection Hb as <-.
      inversion Hhd. assumption.
    + exact (IH i Ha Hb).
Qed.

Lemma NoDup_list_filter {A} (f : A -> bool) (l : list A) :
  NoDup l -> NoDup (List.filter f l).
Proof.
  induction 1 as [|x l Hx Hl IH]; simpl; [constructor|].
  destruct (f x); [|exact IH].
  constructor; [|exact IH].
  intros Hin. apply Hx. apply list_elem_of_In in Hin. apply filter_In in Hin as [Hin _].
  apply list_elem_of_In, Hin.
Qed.

(** The names [index] lists, before they are dressed as entries. *)
Lemma index_entries (disk : Disk) :
  index disk
  = RenderUpload
      ((fun filename =>
          {| rf_name := filename;
             rf_display_name := display_name_of filename;
             rf_date := getmtime disk (os_path_join UPLOAD_FOLDER filename) |})
       <$> (if path_exists disk UPLOAD_FOLDER then
              take 5 (sorted_reverse
                        (fun x => getmtime disk (os_path_join UPLOAD_FOLDER x))
                        (List.filter has_pdf_extension (listdir disk UPLOAD_FOLDER)))
            else [])).
Proof. unfold index. destruct (path_exists disk UPLOAD_FOLDER); reflexivity. Qed.

(** On a directory read without error, [index] shows at most five
    entries, none when the upload folder does not exist, and otherwise five
    or all the PDF files if they are fewer.  Every entry is a file of the
    folder whose name ends in [.pdf], letter case apart, with its display
    name and its modification time; and no file of the folder is shown
    twice. *)
Lemma index_entries_facts (disk : Disk) :
  exists entries,
    index disk = RenderUpload entries
    /\ length entries <= 5
    /\ (path_exists disk UPLOAD_FOLDER = false -> entries = [])
    /\ (path_exists disk UPLOAD_FOLDER = true ->
        length entries
        = min 5 (length (List.filter has_pdf_extension (listdir disk UPLOAD_FOLDER))))
    /\ (forall e, In e entries ->
          In (rf_name e) (listdir disk UPLOAD_FOLDER)
          /\ has_pdf_extension (rf_name e) = true
          /\ rf_display_name e = display_name_of (rf_name e)
          /\ rf_date e = getmtime disk (os_path_join UPLOAD_FOLDER (rf_name e)))
    /\ (NoDup (listdir disk UPLOAD_FOLDER) -> NoDup (rf_name <$> entries)).
Proof.
  eexists. split; [apply index_entries|].
  set (key := fun x => getmtime disk (os_path_join UPLOAD_FOLDER x)).
  set (pdfs := List.filter has_pdf_extension (listdir disk UPLOAD_FOLDER)).
  set (mk := fun filename => {| rf_name := filename;
                               rf_display_name := display_name_of filename;
                               rf_date := key filename |}).
  assert (Hnames : forall l : list string, rf_name <$> (mk <$> l) = l).
  { intros l. induction l as [|x l IH]; [reflexivity|]. simpl. f_equal. exact IH. }
  destruct (path_exists disk UPLOAD_FOLDER) eqn:Hex.
  - split; [rewrite length_fmap, length_take; lia|].
    split; [discriminate|].
    split.
    { intros _. rewrite length_fmap, length_take.
      rewrite (Permutation_length (sorted_reverse_perm key pdfs)). reflexivity. }
    split.
    + intros e He. apply list_elem_of_In, list_elem_of_fmap in He as (name & -> & Hname).
      simpl. apply (fun H => elem_of_sublist _ _ _ H (sublist_take _ _)) in Hname.
      rewrite (sorted_reverse_perm key pdfs) in Hname.
      apply list_elem_of_In, filter_In in Hname as [Hin Hpdf].
      repeat split; assumption.
    + intros Hnodup. rewrite Hnames.
      refine (sublist_NoDup _ _ _ (sublist_take _ _)).
      rewrite (sorted_reverse_perm key pdfs).
      unfold pdfs. apply NoDup_list_filter, Hnodup.
  - simpl. split; [lia|]. split; [reflexivity|]. split; [discriminate|].
    split; [intros e []|]. intros _. constructor.
Qed.

(** X6. In the list [index] shows, no entry is older than the entry after
    it: the files come newest first. *)
Theorem index_newest_first
    (disk : Disk) (entries : list RecentFile) (i : nat) (e1 e2 : RecentFile) :
  index disk = RenderUpload entries ->
  entries !! i = Some e1 ->
  entries !! S i = Some e2 ->
  PrimFloat.ltb (rf_date e1) (rf_date e2) = false.
Proof.
  rewrite index_entries. intros H. injection H as <-.
  rewrite !list_lookup_fmap. intros H1 H2.
  destruct (path_exists disk UPLOAD_FOLDER); [|discriminate].
  set (key := fun x => getmtime disk (os_path_join UPLOAD_FOLDER x)) in *.
  set (pdfs := List.filter has_pdf_extension (listdir disk UPLOAD_FOLDER)) in *.
  destruct (take 5 (sorted_reverse key pdfs) !! i) as [a|] eqn:Ha; [|discriminate].
  destruct (take 5 (sorted_reverse key pdfs) !! S i) as [b|] eqn:Hb; [|discriminate].
  simpl in H1, H2. injection H1 as <-. injection H2 as <-. simpl.
  apply lookup_take_Some in Ha as [Ha _]. apply lookup_take_Some in Hb as [Hb _].
  exact (sorted_adjacent (fun a b => PrimFloat.ltb (key a) (key b) = false) _ i a b (sorted_reverse_sorted key pdfs) Ha Hb).
Qed.

Lemma index_newest_first_witness :
  let disk :=
    {| path_exists := fun _ => true;
       listdir := fun _ => ["old.pdf"; "new.pdf"];
       getmtime := fun p => if String.eqb p "uploads/new.pdf" then 20%float
                            else 10%float |} in
  let newer := {| rf_name := "new.pdf"; rf_display_name := "new.pdf";
                  rf_date := 20%float |} in
  let older := {| rf_name := "old.pdf"; rf_display_name := "old.pdf";
                  rf_date := 10%float |} in
  index disk = RenderUpload [newer; older]
  /\ PrimFloat.ltb (rf_date newer) (rf_date older) = false.
Proof.
  intros disk newer older.
  assert (Hindex : index disk = RenderUpload [newer; older]) by reflexivity.
  split; [exact Hindex|].
  exact (index_newest_first disk [newer; older] 0 newer older Hindex eq_refl eq_refl).
Defined.

End StoreMore.

(* ===================================================================== *)
(** * More facts: the chat proxy and the chat panel *)
(* ===================================================================== *)

Module ChatMore.
Import Py PyFacts Chat Wording ChatPanel.

(** ** [strip] *)

Lemma lstrip_spec (s : string) :
  exists ws,
    s = ws +:+ lstrip s
    /\ (forall c, str_in (String c "") ws = true -> is_space c = true)
    /\ (forall c rest, lstrip s = String c rest -> is_space c = false).
Proof.
  induction s as [|c s (ws & Hs & Hws & Hhead)]; simpl.
  - exists "". repeat split; discriminate.
  - destruct (is_space c) eqn:Hc.
    + exists (String c ws). split; [rewrite app_cons, <- Hs; reflexivity|].
      split; [|exact Hhead].
      intros d. rewrite str_in_char_cons. intros H.
      apply orb_true_iff in H as [H|H]; [|exact (Hws d H)].
      apply Ascii.eqb_eq in H as ->. exact Hc.
    + exists "". split; [reflexivity|]. split; [discriminate|].
      intros d rest H. injection H as <- _. exact Hc.
Qed.

Lemma app_eq_unit (pre : string) (c d : ascii) :
  String d "" = pre +:+ String c "" -> pre = "" /\ c = d.
Proof.
  destruct pre as [|x pre]; [intros H; injection H as ->; auto|].
  rewrite app_cons. intros H. injection H as _ H.
  destruct pre; discriminate.
Qed.

Lemma rstrip_spec (s : string) :
  exists ws,
    s = rstrip s +:+ ws
    /\ (forall c, str_in (String c "") ws = true -> is_space c = true)
    /\ (forall pre c, rstrip s = pre +:+ String c "" -> is_space c = false).
Proof.
  induction s as [|c s (ws & Hs & Hws & Hlast)]; simpl.
  - exists "". repeat split; try discriminate.
    intros [|x pre] d H; discriminate.
  - destruct (rstrip s) as [|r0 r] eqn:Hr.
    + rewrite app_empty_l in Hs. subst ws.
      destruct (is_space c) eqn:Hc.
      * exists (String c s). split; [reflexivity|]. split.
        -- intros d. rewrite str_in_char_cons. intros H.
           apply orb_true_iff in H as [H|H]; [|exact (Hws d H)].
           apply Ascii.eqb_eq in H as ->. exact Hc.
        -- intros [|x pre] d H; discriminate.
      * exists s. split; [reflexivity|]. split; [exact Hws|].
        intros pre d H. apply app_eq_unit in H as [_ ->]. exact Hc.
    + exists ws. split; [rewrite app_cons, <- Hs; reflexivity|].
      split; [exact Hws|].
      intros pre d H. destruct pre as [|x pre].
      * rewrite app_empty_l in H. discriminate.
      * rewrite app_cons in H. injection H as _ H. exact (Hlast pre d H).
Qed.

(** X7. With a credential configured and a completion returned, [chat]
    answers 200 with the completion stripped, whatever the types of the
    message and of the context: the completion is the response between two
    runs of white space, and the response neither begins nor ends with a
    white space character. *)
Theorem chat_returns_stripped_completion
    (key : string) (api : CompletionCall -> ApiOutcome) (data : ChatData)
    (text : string) :
  key <> "" ->
  api (completion_call key
         (build_messages (default (VStr "") (d_message data))
                         (default [] (d_history data))
                         (default ∅ (d_context data))))
  = Completed text ->
  fst (chat (Some key) api data) = Jsonify (JResponse (strip text)) 200
  /\ exists before after,
      text = before +:+ strip text +:+ after
      /\ (forall c, str_in (String c "") before = true -> is_space c = true)
      /\ (forall c, str_in (String c "") after = true -> is_space c = true)
      /\ (forall c rest, strip text = String c rest -> is_space c = false)
      /\ (forall pre c, strip text = pre +:+ String c "" -> is_space c = false).
Proof.
  intros Hkey Hapi. split.
  { rewrite ChatFacts.chat_eq, (ChatFacts.chat_body_with_key key api data Hkey).
    cbv zeta. simpl fst. rewrite Hapi. reflexivity. }
  destruct (lstrip_spec text) as (before & Htext & Hbefore & Hhead).
  destruct (rstrip_spec (lstrip text)) as (after & Hmid & Hafter & Hlast).
  exists before, after. unfold strip.
  split.
  { rewrite <- Hmid. exact Htext. }
  split; [exact Hbefore|]. split; [exact Hafter|]. split; [|exact Hlast].
  intros c rest Hresp. apply (Hhead c (rest +:+ after)).
  rewrite Hmid, Hresp. reflexivity.
Qed.

Lemma chat_returns_stripped_completion_witness :
  let data := {| d_message := Some (VInt 7); d_history := None; d_context := None |} in
  let api := fun _ : CompletionCall => Completed "  Page 2 is about cats.  " in
  "sk-test" <> ""
  /\ fst (chat (Some "sk-test") api data)
     = Jsonify (JResponse "Page 2 is about cats.") 200.
Proof.
  intros data api.
  assert (Hkey : "sk-test" <> "") by discriminate.
  split; [exact Hkey|].
  exact (proj1 (chat_returns_stripped_completion "sk-test" api data
                  "  Page 2 is about cats.  " Hkey eq_refl)).
Defined.

(** ** When the canned reply cannot be written *)

Lemma fallback_reply_raises_iff (message : pyval) (context : gmap string pyval) :
  let selected := dict_get context "selectedText" VNone in
  (exists e, fallback_reply message context = Raise e) <->
  (if truthy selected then forall s, selected <> VStr s
   else forall m, message <> VStr m).
Proof.
  cbv zeta. unfold fallback_reply, dict_get, dict_item.
  destruct (context !! "selectedText") as [v|]; simpl.
  - destruct v as [|b|n|s]; simpl.
    + destruct message; simpl; split;
        try (intros [e H]; discriminate H); try (intros _; eexists; reflexivity);
        try (intros H; exfalso; eapply H; reflexivity); try (intros _ m; discriminate).
      intros [e H]. destruct (str_in "summary" (lower s)); [discriminate|].
      destruct (str_in "explain" (lower s)); discriminate.
    + destruct b; simpl.
      * split; [intros _ s; discriminate|intros _; eexists; reflexivity].
      * destruct message; simpl; split;
          try (intros [e H]; discriminate H); try (intros _; eexists; reflexivity);
          try (intros H; exfalso; eapply H; reflexivity); try (intros _ m; discriminate).
        intros [e H]. destruct (str_in "summary" (lower s)); [discriminate|].
        destruct (str_in "explain" (lower s)); discriminate.
    + destruct (n =? 0)%Z; simpl.
      * destruct message; simpl; split;
          try (intros [e H]; discriminate H); try (intros _; eexists; reflexivity);
          try (intros H; exfalso; eapply H; reflexivity); try (intros _ m; discriminate).
        intros [e H]. destruct (str_in "summary" (lower s)); [discriminate|].
        destruct (str_in "explain" (lower s)); discriminate.
      * split; [intros _ s; discriminate|intros _; eexists; reflexivity].
    + destruct (String.eqb s ""); simpl.
      * destruct message as [|b|n|m]; simpl; split;
          try (intros [e H]; discriminate H); try (intros _; eexists; reflexivity);
          try (intros H; exfalso; eapply H; reflexivity); try (intros _ m'; discriminate).
        intros [e H]. destruct (str_in "summary" (lower m)); [discriminate|].
        destruct (str_in "explain" (lower m)); discriminate.
      * split; [intros [e H]; discriminate H|].
        intros H. exfalso. eapply H. reflexivity.
  - destruct message as [|b|n|m]; simpl; split;
      try (intros [e H]; discriminate H); try (intros _; eexists; reflexivity);
      try (intros H; exfalso; eapply H; reflexivity); try (intros _ m'; discriminate).
    intros [e H]. destruct (str_in "summary" (lower m)); [discriminate|].
    destruct (str_in "explain" (lower m)); discriminate.
Qed.

(** ** The viewer and the server together *)

Lemma recent_history_snoc (history : list chat_msg) (m : chat_msg) :
  exists kept, recent_history (history ++ [m]) = kept ++ [m].
Proof.
  unfold recent_history, last_n. rewrite length_app. simpl.
  destruct (10 <? length history + 1) eqn:Hlen.
  - apply Nat.ltb_lt in Hlen.
    exists (drop (length history + 1 - 10) history).
    apply drop_app_le. lia.
  - exists history. reflexivity.
Qed.

(** X10. A message sent from the viewer reaches the completion API twice:
    [sendMessage] records it in the history before it posts, and [chat]
    appends it again after the history, so the list of the call ends with
    the same user message two times. *)
Theorem viewer_message_is_sent_twice
    (key : string) (api : CompletionCall -> ApiOutcome)
    (filename message : string) (chatHistory : list chat_msg)
    (currentPage : Z) (pdfDoc : option Z) (selection : string) :
  key <> "" ->
  message <> "" ->
  exists data call earlier,
    sendMessage filename message chatHistory currentPage pdfDoc selection = Some data
    /\ snd (chat (Some key) api data) = [call]
    /\ cc_messages call
       = earlier ++ [ {| role := "user"; content := VStr message |};
                      {| role := "user"; content := VStr message |} ].
Proof.
  intros Hkey Hmessage. unfold sendMessage.
  destruct (String.eqb_spec message "") as [->|_]; [contradiction|].
  destruct (recent_history_snoc chatHistory
              {| role := "user"; content := VStr message |}) as [kept Hkept].
  eexists _, _,
    ({| role := "system";
        content := VStr (system_prompt
                           (pdfContext filename currentPage pdfDoc selection)) |}
     :: kept).
  split; [reflexivity|].
  rewrite ChatFacts.chat_eq, (ChatFacts.chat_body_with_key key api _ Hkey).
  cbv zeta. simpl snd. split; [reflexivity|].
  simpl cc_messages. unfold build_messages. simpl default.
  rewrite Hkept. simpl. rewrite <- !List.app_assoc. reflexivity.
Qed.

Lemma viewer_message_is_sent_twice_witness :
  "sk-test" <> ""
  /\ "what is on this page?" <> ""
  /\ exists data call earlier,
       sendMessage "a.pdf" "what is on this page?" [] 1%Z (Some 3%Z) "" = Some data
       /\ snd (chat (Some "sk-test") (fun _ => Completed "a cat") data) = [call]
       /\ cc_messages call
          = earlier ++ [ {| role := "user"; content := VStr "what is on this page?" |};
                         {| role := "user"; content := VStr "what is on this page?" |} ].
Proof.
  assert (Hkey : "sk-test" <> "") by discriminate.
  assert (Hmessage : "what is on this page?" <> "") by discriminate.
  split; [exact Hkey|]. split; [exact Hmessage|].
  exact (viewer_message_is_sent_twice "sk-test" (fun _ => Completed "a cat")
           "a.pdf" "what is on this page?" [] 1%Z (Some 3%Z) "" Hkey Hmessage).
Defined.

(** X11. One exchange from the chat panel keeps the history it had and
    adds the user message, followed by one assistant message exactly when
    the server answered 200 with a text that is not empty; otherwise the
    panel shows its apology and the history ends with the user message.
    An empty input changes nothing and shows nothing. *)
Theorem exchange_extends_history
    (api_key : option string) (api : CompletionCall -> ApiOutcome)
    (filename : string) (currentPage : Z) (pdfDoc : option Z) (selection : string)
    (chatHistory : list chat_msg) (message : string) :
  let out := exchange api_key api filename currentPage pdfDoc selection
               chatHistory message in
  let user := {| role := "user"; content := VStr message |} in
  (message = "" -> out = (chatHistory, []))
  /\ (message <> "" ->
      exists data,
        sendMessage filename message chatHistory currentPage pdfDoc selection
        = Some data
        /\ ((exists response,
               fst (chat api_key api data) = Jsonify (JResponse response) 200
               /\ response <> ""
               /\ out = (chatHistory ++ [user]
                          ++ [ {| role := "assistant"; content := VStr response |} ],
                         [ {| shown_content := message; shown_type := "user" |};
                           {| shown_content := response; shown_type := "assistant" |} ]))
            \/ ((fst (chat api_key api data) = Jsonify (JResponse "") 200
                 \/ fst (chat api_key api data)
                    = Jsonify (JError "Failed to process chat request") 500)
                /\ out = (chatHistory ++ [user],
                          [ {| shown_content := message; shown_type := "user" |};
                            {| shown_content := SORRY; shown_type := "system" |} ])))).
Proof.
  cbv zeta. unfold exchange, sendMessage. split.
  - intros ->. reflexivity.
  - intros Hmessage.
    destruct (String.eqb_spec message "") as [->|_]; [contradiction|].
    eexists. split; [reflexivity|].
    set (data := {| d_message := Some (VStr message);
                    d_history := Some (chatHistory
                                       ++ [ {| role := "user"; content := VStr message |} ]);
                    d_context := Some (pdfContext filename currentPage pdfDoc selection) |}).
    rewrite ChatFacts.chat_eq. simpl fst.
    destruct (fst (chat_body api_key api data)) as [response|e]; simpl.
    + destruct (String.eqb_spec response "") as [->|Hne]; simpl.
      * right. split; [left; reflexivity|reflexivity].
      * left. exists response. split; [reflexivity|]. split; [exact Hne|].
        rewrite <- List.app_assoc. reflexivity.
    + right. split; [right; reflexivity|reflexivity].
Qed.

Lemma exchange_extends_history_witness :
  let out := exchange None (fun _ => Completed "unused") "a.pdf" 1%Z (Some 3%Z) ""
               [] "hello" in
  "hello" <> ""
  /\ out = ([ {| role := "user"; content := VStr "hello" |};
              {| role := "assistant"; content := VStr MISSING_KEY_REPLY |} ],
            [ {| shown_content := "hello"; shown_type := "user" |};
              {| shown_content := MISSING_KEY_REPLY; shown_type := "assistant" |} ]).
Proof.
  intros out.
  assert (Hmessage : "hello" <> "") by discriminate.
  split; [exact Hmessage|].
  destruct (proj2 (exchange_extends_history None (fun _ => Completed "unused")
                     "a.pdf" 1%Z (Some 3%Z) "" [] "hello") Hmessage)
    as (data & _ & _).
  reflexivity.
Defined.

(** X12. A completion made of white space only is answered by the server
    with status 200 and an empty response, and the panel treats it as a
    failure: it shows its apology and records no assistant message. *)
Theorem blank_completion_is_shown_as_error
    (key : string) (api : CompletionCall -> ApiOutcome)
    (filename : string) (currentPage : Z) (pdfDoc : option Z) (selection : string)
    (chatHistory : list chat_msg) (message text : string) :
  key <> "" ->
  message <> "" ->
  (forall call, api call = Completed text) ->
  (forall c, str_in (String c "") text = true -> is_space c = true) ->
  exists data,
    sendMessage filename message chatHistory currentPage pdfDoc selection = Some data
    /\ fst (chat (Some key) api data) = Jsonify (JResponse "") 200
    /\ exchange (Some key) api filename currentPage pdfDoc selection chatHistory message
       = (chatHistory ++ [ {| role := "user"; content := VStr message |} ],
          [ {| shown_content := message; shown_type := "user" |};
            {| shown_content := SORRY; shown_type := "system" |} ]).
Proof.
  intros Hkey Hmessage Hapi Hblank.
  assert (Hstrip : strip text = "").
  { unfold strip.
    assert (Hl : lstrip text = "").
    { clear Hapi. induction text as [|c text IH]; [reflexivity|]. simpl.
      rewrite (Hblank c).
      - apply IH. intros d Hd. apply Hblank. rewrite str_in_char_cons, Hd.
        apply orb_true_r.
      - rewrite str_in_char_cons, Ascii.eqb_refl. reflexivity. }
    rewrite Hl. reflexivity. }
  unfold exchange, sendMessage.
  destruct (String.eqb_spec message "") as [->|_]; [contradiction|].
  eexists. split; [reflexivity|].
  rewrite ChatFacts.chat_eq, (ChatFacts.chat_body_with_key key api _ Hkey).
  cbv zeta. simpl fst. rewrite Hapi, Hstrip. simpl. split; reflexivity.
Qed.

Lemma blank_completion_is_shown_as_error_witness :
  let api := fun _ : CompletionCall => Completed "  " in
  "sk-test" <> ""
  /\ "hello" <> ""
  /\ (forall call, api call = Completed "  ")
  /\ (forall c, str_in (String c "") "  " = true -> is_space c = true)
  /\ exchange (Some "sk-test") api "a.pdf" 1%Z (Some 3%Z) "" [] "hello"
     = ([ {| role := "user"; content := VStr "hello" |} ],
        [ {| shown_content := "hello"; shown_type := "user" |};
          {| shown_content := SORRY; shown_type := "system" |} ]).
Proof.
  intros api.
  assert (Hkey : "sk-test" <> "") by discriminate.
  assert (Hmessage : "hello" <> "") by discriminate.
  assert (Hapi : forall call, api call = Completed "  ") by reflexivity.
  assert (Hblank : forall c, str_in (String c "") "  " = true -> is_space c = true).
  { intros c. rewrite !str_in_char_cons, str_in_char_empty, !orb_false_r, orb_diag.
    intros H. apply Ascii.eqb_eq in H as ->. reflexivity. }
  split; [exact Hkey|]. split; [exact Hmessage|]. split; [exact Hapi|].
  split; [exact Hblank|].
  destruct (blank_completion_is_shown_as_error "sk-test" api "a.pdf" 1%Z (Some 3%Z) ""
              [] "hello" "  " Hkey Hmessage Hapi Hblank) as (data & _ & _ & Hout).
  exact Hout.
Defined.

End ChatMore.

(* ===================================================================== *)
(** * Facts: the store handlers from the request on *)
(* ===================================================================== *)

Module StoreRequestFacts.
Import Py PyFacts Store Wording StoreRequest.

(** ** Uploads *)

Example upload_request_examples :
  MAX_CONTENT_LENGTH = 52428800%Z
  /\ upload_request (fun name => name) "id" Saved ∅ 52428801
       {[ "file" := {| fs_filename := "a.pdf"; fs_stream := [] |} ]}
     = (∅, Aborted 413)
  /\ upload_request (fun name => name) "id" Saved ∅ 52428800
       {[ "file" := {| fs_filename := "a.pdf"; fs_stream := [] |} ]}
     = ({[ "uploads/id_a.pdf" := [] ]}, Returned (Redirect (UrlViewPdf "id_a.pdf") None)).
Proof. repeat split. Qed.

(** X3. Whatever the request and whatever [file.save] does, the upload
    changes the files on disk at one path at most, the path of the fresh
    key of an accepted file.  A request that declares more than 50 MiB is
    answered with status 413 and changes nothing.  Any other request is
    answered either by the redirect to the viewer, after a completed save,
    or by a redirect to the upload page with a flashed message, in which
    case a save that did not raise has left every file as it was. *)
Theorem upload_request_touches_one_path
    (secure_filename : string -> string) (uuid4 : string) (save : save_outcome)
    (files : gmap string (list Byte.byte)) (content_length : Z)
    (request_files : gmap string FileStorage) :
  let out :=
    upload_request secure_filename uuid4 save files content_length request_files in
  (forall path, fst out !! path <> files !! path ->
     (content_length <= 50 * 1024 * 1024)%Z
     /\ exists file,
          request_files !! "file" = Some file
          /\ allowed_file (fs_filename file) = true
          /\ path = os_path_join UPLOAD_FOLDER
                      (uuid4 +:+ "_" +:+ secure_filename (fs_filename file)))
  /\ (((50 * 1024 * 1024 < content_length)%Z
       /\ snd out = Aborted 413 /\ fst out = files)
      \/ ((content_length <= 50 * 1024 * 1024)%Z
          /\ exists key, snd out = Returned (Redirect (UrlViewPdf key) None)
                         /\ save = Saved)
      \/ ((content_length <= 50 * 1024 * 1024)%Z
          /\ exists message,
               snd out = Returned (Redirect RequestUrl (Some message))
               /\ (save = Saved -> fst out = files))).
Proof.
  cbv zeta. unfold upload_request.
  change MAX_CONTENT_LENGTH with (50 * 1024 * 1024)%Z.
  destruct (Z.ltb_spec (50 * 1024 * 1024) content_length) as [Hbig|Hfits].
  { split; [intros path H; destruct H; reflexivity|]. left. auto. }
  pose proof (StoreMore.upload_file_frame secure_filename uuid4 save files request_files)
    as [Hframe Hanswer].
  cbv zeta in Hframe, Hanswer.
  destruct (upload_file secure_filename uuid4 save files request_files)
    as [files' r].
  simpl in *. split.
  - intros path Hne. split; [exact Hfits|]. exact (Hframe path Hne).
  - right. destruct Hanswer as [(key & -> & Hsave)|(message & -> & Hsame)].
    + left. split; [exact Hfits|]. exists key. auto.
    + right. split; [exact Hfits|]. exists message. auto.
Qed.

(** ** The listing *)

Lemma for_each_ok {A B} (f : A -> result B) (g : A -> B) (l : list A) :
  (forall x, In x l -> f x = Ok (g x)) ->
  for_each f l = Ok (g <$> l).
Proof.
  induction l as [|x l IH]; intros H; [reflexivity|].
  simpl. rewrite (H x (or_introl eq_refl)). simpl.
  rewrite IH by (intros y Hy; apply H; right; exact Hy). reflexivity.
Qed.

Lemma for_each_raises {A B} (f : A -> result B) (l : list A) (x : A) (e : exn) :
  In x l -> f x = Raise e -> exists e', for_each f l = Raise e'.
Proof.
  induction l as [|y l IH]; intros Hin Hx; [destruct Hin|].
  simpl. destruct Hin as [->|Hin].
  - rewrite Hx. eexists. reflexivity.
  - destruct (f y); [|eexists; reflexivity]. simpl.
    destruct (IH Hin Hx) as [e' ->]. eexists. reflexivity.
Qed.

Lemma sorted_reverse_keyed_pairs {A} (key : A -> float) (l : list A) :
  sorted_reverse snd ((fun y => (y, key y)) <$> l)
  = (fun y => (y, key y)) <$> sorted_reverse key l.
Proof.
  induction l as [|x l IH]; [reflexivity|].
  change (insert_desc snd (x, key x)
            (sorted_reverse snd ((fun y => (y, key y)) <$> l))
          = (fun y => (y, key y)) <$> insert_desc key x (sorted_reverse key l)).
  rewrite IH. generalize (sorted_reverse key l). clear. intros l.
  induction l as [|y l IH]; [reflexivity|].
  simpl. destruct (PrimFloat.ltb (key x) (key y)).
  - simpl. f_equal. exact IH.
  - reflexivity.
Qed.

(** Sorting the names with their keys beside them is sorting them by key. *)
Lemma sorted_reverse_keyed {A} (key : A -> float) (l : list A) :
  fst <$> sorted_reverse snd (zip l (key <$> l)) = sorted_reverse key l.
Proof.
  assert (Hzip : zip l (key <$> l) = (fun y => (y, key y)) <$> l).
  { induction l as [|x l IH]; [reflexivity|]. simpl. f_equal. exact IH. }
  rewrite Hzip, sorted_reverse_keyed_pairs.
  generalize (sorted_reverse key l). intros l'.
  induction l' as [|y l' IH]; [reflexivity|]. simpl. f_equal. exact IH.
Qed.

Lemma unreadable_pdf_false (disk : DiskIO) (files : list string) :
  unreadable_pdf disk files = false ->
  forall x, In x (List.filter has_pdf_extension files) ->
    io_stat disk (os_path_join UPLOAD_FOLDER x)
    = Ok (getmtime (settled disk files) (os_path_join UPLOAD_FOLDER x)).
Proof.
  intros Hall x Hx. apply filter_In in Hx as [Hin Hpdf].
  unfold unreadable_pdf in Hall.
  assert (Hx : endswith (lower x) ".pdf" &&
               match io_stat disk (os_path_join UPLOAD_FOLDER x) with
               | Ok _ => false
               | Raise _ => true
               end = false).
  { destruct (_ && _) eqn:Hc; [|reflexivity].
    assert (existsb
              (fun f => endswith (lower f) ".pdf" &&
                        match io_stat disk (os_path_join UPLOAD_FOLDER f) with
                        | Ok _ => false
                        | Raise _ => true
                        end) files = true) as Hex
      by (apply existsb_exists; exists x; split; assumption).
    rewrite Hex in Hall. discriminate. }
  unfold has_pdf_extension in Hpdf. rewrite Hpdf in Hx. simpl in Hx.
  simpl. destruct (io_stat disk (os_path_join UPLOAD_FOLDER x)); [reflexivity|discriminate].
Qed.

Lemma unreadable_pdf_true (disk : DiskIO) (files : list string) :
  unreadable_pdf disk files = true ->
  exists x e, In x (List.filter has_pdf_extension files)
              /\ io_stat disk (os_path_join UPLOAD_FOLDER x) = Raise e.
Proof.
  intros H. apply existsb_exists in H as (x & Hin & Hx).
  apply andb_true_iff in Hx as [Hpdf Hstat].
  destruct (io_stat disk (os_path_join UPLOAD_FOLDER x)) as [t|e] eqn:He; [discriminate|].
  exists x, e. split; [|exact He]. apply filter_In. split; assumption.
Qed.

(** When the folder is listed and every time is read, [index] answers as
    [Store.index] does on the directory read. *)
Lemma index_body_settled (disk : DiskIO) (files : list string) :
  io_exists disk UPLOAD_FOLDER = true ->
  io_listdir disk UPLOAD_FOLDER = Ok files ->
  unreadable_pdf disk files = false ->
  index_body disk = Ok (index (settled disk files)).
Proof.
  intros Hex Hlist Hall. unfold index_body. rewrite Hex, Hlist. simpl bind.
  pose proof (unreadable_pdf_false disk files Hall) as Hstat.
  fold has_pdf_extension.
  set (pdfs := List.filter has_pdf_extension files) in *.
  set (key := fun x => getmtime (settled disk files) (os_path_join UPLOAD_FOLDER x)).
  rewrite (for_each_ok _ key pdfs) by (intros x Hx; exact (Hstat x Hx)).
  simpl bind. rewrite sorted_reverse_keyed.
  rewrite (for_each_ok _
             (fun filename =>
                {| rf_name := filename;
                   rf_display_name := display_name_of filename;
                   rf_date := key filename |})).
  - simpl bind. unfold index. simpl path_exists. rewrite Hex. reflexivity.
  - intros x Hx. cbv zeta. unfold os_path_getmtime.
    assert (Hin : In x pdfs).
    { apply list_elem_of_In.
      apply list_elem_of_In in Hx.
      apply (fun H => elem_of_sublist _ _ _ H (sublist_take _ _)) in Hx.
      rewrite (StoreMore.sorted_reverse_perm key pdfs) in Hx. exact Hx. }
    rewrite (Hstat x Hin). reflexivity.
Qed.

Example index_request_examples :
  let disk := fun stat =>
    {| io_exists := fun _ => true;
       io_listdir := fun _ => Ok ["a.pdf"; "notes.txt"; "b.PDF"];
       io_stat := stat |} in
  index_request (disk (fun p => if String.eqb p "uploads/b.PDF" then Ok 20%float
                                else Ok 10%float))
  = Returned (RenderUpload
      [ {| rf_name := "b.PDF"; rf_display_name := "b.PDF"; rf_date := 20%float |};
        {| rf_name := "a.pdf"; rf_display_name := "a.pdf"; rf_date := 10%float |} ])
  /\ index_request (disk (fun p => if String.eqb p "uploads/b.PDF"
                                   then Raise (Exn LibraryError "No such file or directory")
                                   else Ok 10%float))
     = Aborted 500
  /\ index_request (disk (fun p => if String.eqb p "uploads/notes.txt"
                                   then Raise (Exn LibraryError "No such file or directory")
                                   else Ok 10%float))
     = Returned (RenderUpload
         [ {| rf_name := "a.pdf"; rf_display_name := "a.pdf"; rf_date := 10%float |};
           {| rf_name := "b.PDF"; rf_display_name := "b.PDF"; rf_date := 10%float |} ]).
Proof. repeat split. Qed.

(** X5. [index] answers with status 500, and no page, exactly when the
    upload folder exists and its listing, or the time of one of the listed
    PDF files, cannot be read.  Without the folder the page shows no entry.
    Otherwise the page shows five entries, or all the PDF files if they are
    fewer: every entry is a file of the folder whose name ends in [.pdf],
    letter case apart, with its display name and the time read for it, and
    no file of the folder is shown twice. *)
Theorem index_request_lists_recent_pdfs (disk : DiskIO) :
  (index_request disk = Aborted 500 <->
   io_exists disk UPLOAD_FOLDER = true
   /\ ((exists e, io_listdir disk UPLOAD_FOLDER = Raise e)
       \/ exists files, io_listdir disk UPLOAD_FOLDER = Ok files
                        /\ unreadable_pdf disk files = true))
  /\ (io_exists disk UPLOAD_FOLDER = false ->
      index_request disk = Returned (RenderUpload []))
  /\ (forall files,
        io_exists disk UPLOAD_FOLDER = true ->
        io_listdir disk UPLOAD_FOLDER = Ok files ->
        unreadable_pdf disk files = false ->
        exists entries,
          index_request disk = Returned (RenderUpload entries)
          /\ length entries = min 5 (length (List.filter has_pdf_extension files))
          /\ (forall e, In e entries ->
                In (rf_name e) files
                /\ has_pdf_extension (rf_name e) = true
                /\ rf_display_name e = display_name_of (rf_name e)
                /\ io_stat disk (os_path_join UPLOAD_FOLDER (rf_name e))
                   = Ok (rf_date e))
          /\ (NoDup files -> NoDup (rf_name <$> entries))).
Proof.
  assert (Hmissing : io_exists disk UPLOAD_FOLDER = false ->
                     index_request disk = Returned (RenderUpload [])).
  { intros Hex. unfold index_request, index_body. rewrite Hex. reflexivity. }
  assert (Hshown : forall files,
            io_exists disk UPLOAD_FOLDER = true ->
            io_listdir disk UPLOAD_FOLDER = Ok files ->
            unreadable_pdf disk files = false ->
            index_request disk = Returned (index (settled disk files))).
  { intros files Hex Hlist Hall. unfold index_request.
    rewrite (index_body_settled disk files Hex Hlist Hall). reflexivity. }
  split; [|split; [exact Hmissing|]].
  - split.
    + intros Habort.
      destruct (io_exists disk UPLOAD_FOLDER) eqn:Hex.
      2: { rewrite (Hmissing eq_refl) in Habort. discriminate. }
      split; [reflexivity|].
      destruct (io_listdir disk UPLOAD_FOLDER) as [files|e] eqn:Hlist.
      2: { left. exists e. reflexivity. }
      right. exists files. split; [reflexivity|].
      destruct (unreadable_pdf disk files) eqn:Hall; [reflexivity|].
      rewrite (Hshown files eq_refl eq_refl Hall) in Habort. discriminate.
    + intros [Hex [[e He]|(files & Hlist & Hbad)]];
        unfold index_request, index_body; rewrite Hex.
      * rewrite He. reflexivity.
      * rewrite Hlist. simpl bind.
        apply unreadable_pdf_true in Hbad as (x & e & Hin & He).
        destruct (for_each_raises
                    (fun x => os_path_getmtime disk (os_path_join UPLOAD_FOLDER x))
                    _ x e Hin He) as [e' Hraise].
        fold has_pdf_extension. rewrite Hraise. reflexivity.
  - intros files Hex Hlist Hall.
    destruct (StoreMore.index_entries_facts (settled disk files))
      as (entries & Hindex & _ & _ & Hcount & Hentries & Hnodup).
    exists entries. rewrite (Hshown files Hex Hlist Hall), Hindex.
    split; [reflexivity|].
    split; [exact (Hcount Hex)|].
    split; [|exact Hnodup].
    intros e He. destruct (Hentries e He) as (Hin & Hpdf & Hname & Hdate).
    split; [exact Hin|]. split; [exact Hpdf|]. split; [exact Hname|].
    rewrite Hdate. apply (unreadable_pdf_false disk files Hall).
    apply filter_In. split; assumption.
Qed.

End StoreRequestFacts.

(* ===================================================================== *)
(** * Facts: the chat proxy on any request body *)
(* ===================================================================== *)

Module ChatRequestFacts.
Import Py PyFacts Json ChatRequest Wording.
Import Chat(ApiOutcome, Completed, ApiRaised, reply_of,
            MISSING_KEY_REPLY, INVALID_KEY_REPLY, RATE_LIMIT_REPLY, NETWORK_REPLY).

Implicit Types (fr : float -> string) (body : request_body).

Example py_repr_examples :
  let fr := fun _ : float => "1.5" in
  py_str fr (JList [JStr "a"; JInt 2; JNull; JBool true; JFloat 1.5%float])
  = "['a', 2, None, True, 1.5]"
  /\ py_str fr (JDict [("k", JStr "it's"); ("n", JList [])])
     = "{'k': " +:+ dquote +:+ "it's" +:+ dquote +:+ ", 'n': []}"
  /\ py_str fr (JStr "plain") = "plain"
  /\ repr_str ("tab" +:+ String "009"%char "" +:+ nl +:+ String "160"%char "é")
     = "'tab" +:+ String backslash "t" +:+ String backslash "n"
       +:+ String backslash "xa0" +:+ "é'".
Proof. repeat split. Qed.

(** ** Reading the body *)

Lemma get_entry (items : list (string * json)) (key : string) (dflt : json) :
  get (JDict items) key dflt = Ok (entry key dflt (JDict items)).
Proof. reflexivity. Qed.

Lemma system_prompt_dict fr (context : json) :
  is_dict context = true ->
  system_prompt fr context = Ok (prompt_of fr context).
Proof. destruct context; try discriminate. reflexivity. Qed.

Lemma system_prompt_not_dict fr (context : json) :
  is_dict context = false ->
  exists e, system_prompt fr context = Raise e.
Proof. destruct context; try discriminate; eexists; reflexivity. Qed.

Lemma last_ten_length {A} (l : list A) : length (last_ten l) = min (length l) 10.
Proof.
  unfold last_ten. destruct (10 <? length l) eqn:H.
  - apply Nat.ltb_lt in H. rewrite last_n_length. lia.
  - apply Nat.ltb_ge in H. lia.
Qed.

Lemma length_list_ascii (s : string) :
  length (list_ascii_of_string s) = String.length s.
Proof. induction s as [|c s IH]; [reflexivity|]. simpl. rewrite IH. reflexivity. Qed.

(** What the history adds to the list, when it can be forwarded. *)
Lemma forward_history (history : json) :
  history_readable history = true ->
  exists n,
    py_len history = Ok n
    /\ bind (if 10 <? n then py_slice_last 10 history else Ok history) py_iter
       = Ok (forwarded history)
    /\ length (forwarded history) = min n 10.
Proof.
  destruct history as [| | | |s|elements|items]; try discriminate; intros Hr; simpl.
  - exists (String.length s). split; [reflexivity|].
    unfold last_ten. rewrite length_fmap, length_list_ascii.
    destruct (10 <? String.length s) eqn:Hlen; simpl.
    + rewrite list_ascii_of_string_of_list_ascii. split; [reflexivity|].
      rewrite last_n_length, length_list_ascii.
      apply Nat.ltb_lt in Hlen. lia.
    + split; [reflexivity|]. rewrite length_list_ascii.
      apply Nat.ltb_ge in Hlen. lia.
  - exists (length elements). split; [reflexivity|]. split.
    + unfold last_ten. destruct (10 <? length elements); reflexivity.
    + apply last_ten_length.
  - exists (length items). split; [reflexivity|].
    apply Nat.leb_le in Hr.
    destruct (Nat.ltb_spec 10 (length items)); [lia|].
    split; [reflexivity|]. rewrite length_fmap. lia.
Qed.

Lemma forward_history_fails (history : json) :
  history_readable history = false ->
  exists e,
    bind (py_len history)
      (fun n => bind (if 10 <? n then py_slice_last 10 history else Ok history)
                  py_iter)
    = Raise e.
Proof.
  destruct history as [| | | |s|elements|items]; try discriminate; intros Hr; simpl;
    try (eexists; reflexivity).
  apply Nat.leb_gt in Hr. apply Nat.ltb_lt in Hr. rewrite Hr.
  eexists. reflexivity.
Qed.

(** A body the handler can read leaves the message, the context and the
    message list as the words say. *)
Lemma prepare_readable fr body :
  readable body = true ->
  prepare fr body
  = Ok {| p_message := message_of body;
          p_context := context_of body;
          p_messages := messages_of fr body |}.
Proof.
  destruct body as [text|data]; [discriminate|].
  destruct data as [| | | | | |items]; try discriminate.
  intros Hr.
  change (is_dict (context_of (GetJson (JDict items)))
          && history_readable (history_of (GetJson (JDict items))) = true) in Hr.
  apply andb_true_iff in Hr as [Hcontext Hhistory].
  unfold prepare. cbn [bind get].
  change (default (JDict []) (lookup_item "context" items))
    with (context_of (GetJson (JDict items))).
  change (default (JList []) (lookup_item "history" items))
    with (history_of (GetJson (JDict items))).
  change (default (JStr "") (lookup_item "message" items))
    with (message_of (GetJson (JDict items))).
  rewrite (system_prompt_dict fr _ Hcontext). cbn [bind].
  destruct (forward_history _ Hhistory) as (n & Hlen & Hiter & _).
  rewrite Hlen. cbn [bind]. unfold bind in Hiter.
  destruct (if 10 <? n then py_slice_last 10 _ else Ok _) as [recent|e];
    [|discriminate].
  simpl. rewrite Hiter. reflexivity.
Qed.

(** Any other body makes a line before the key test raise. *)
Lemma prepare_unreadable fr body :
  readable body = false -> exists e, prepare fr body = Raise e.
Proof.
  destruct body as [text|data]; [intros _; eexists; reflexivity|].
  destruct data as [| | | | | |items]; try (intros _; eexists; reflexivity).
  intros Hr.
  change (is_dict (context_of (GetJson (JDict items)))
          && history_readable (history_of (GetJson (JDict items))) = false) in Hr.
  unfold prepare. cbn [bind get].
  change (default (JDict []) (lookup_item "context" items))
    with (context_of (GetJson (JDict items))).
  change (default (JList []) (lookup_item "history" items))
    with (history_of (GetJson (JDict items))).
  destruct (is_dict (context_of (GetJson (JDict items)))) eqn:Hcontext.
  - rewrite (system_prompt_dict fr _ Hcontext). cbn [bind].
    simpl in Hr.
    destruct (forward_history_fails _ Hr) as [e He].
    unfold bind in He |- *.
    destruct (py_len _) as [n|e']; [|eexists; reflexivity].
    destruct (if 10 <? n then py_slice_last 10 _ else Ok _) as [recent|e'];
      [|eexists; reflexivity].
    rewrite He. eexists. reflexivity.
  - destruct (system_prompt_not_dict fr _ Hcontext) as [e ->].
    eexists. reflexivity.
Qed.

(** ** The handler, case by case *)

Lemma chat_request_eq fr (api_key : option string) (api : CompletionCall -> ApiOutcome) body :
  chat fr api_key api body
  = (reply_of (fst (chat_body fr api_key api body)),
     snd (chat_body fr api_key api body)).
Proof.
  unfold chat. destruct (chat_body fr api_key api body) as [r calls]. reflexivity.
Qed.

Lemma chat_unreadable fr (api_key : option string)
    (api : CompletionCall -> ApiOutcome) body :
  readable body = false ->
  chat fr api_key api body = (ERROR_REPLY, []).
Proof.
  intros Hr. rewrite chat_request_eq. unfold chat_body.
  destruct (prepare_unreadable fr body Hr) as [e ->]. reflexivity.
Qed.

Lemma chat_no_credential fr (api_key : option string)
    (api : CompletionCall -> ApiOutcome) body :
  readable body = true ->
  no_credential api_key = true ->
  chat fr api_key api body = (Jsonify (JResponse MISSING_KEY_REPLY) 200, []).
Proof.
  intros Hr Hkey. rewrite chat_request_eq. unfold chat_body.
  rewrite (prepare_readable fr body Hr).
  destruct api_key as [key|]; [|reflexivity].
  simpl in Hkey. rewrite Hkey. reflexivity.
Qed.

Lemma chat_with_key fr (key : string) (api : CompletionCall -> ApiOutcome) body :
  readable body = true ->
  key <> "" ->
  let call := completion_call key (messages_of fr body) in
  chat fr (Some key) api body
  = (reply_of match api call with
              | Completed text => Ok (strip text)
              | ApiRaised text =>
                on_openai_error fr text (message_of body) (context_of body)
              end, [call]).
Proof.
  intros Hr Hkey. rewrite chat_request_eq. unfold chat_body.
  rewrite (prepare_readable fr body Hr).
  destruct (String.eqb_spec key "") as [->|_]; [destruct Hkey; reflexivity|].
  cbv zeta. simpl p_messages. destruct (api _); reflexivity.
Qed.

Lemma credential_cases (api_key : option string) :
  no_credential api_key = false -> exists key, api_key = Some key /\ key <> "".
Proof.
  destruct api_key as [key|]; [|discriminate]. simpl. intros H.
  exists key. split; [reflexivity|]. intros ->. discriminate.
Qed.

Lemma readable_context_dict body :
  readable body = true -> is_dict (context_of body) = true.
Proof.
  destruct body as [text|data]; [discriminate|].
  destruct data; try discriminate. simpl. intros H.
  apply andb_true_iff in H as [H _]. exact H.
Qed.

(** ** The handler of the API error *)

Lemma on_openai_error_classes fr (text : string) (message context : json) :
  on_openai_error fr text message context
  = if is_authentication_error text then Ok INVALID_KEY_REPLY
    else if is_rate_limit_error text then Ok RATE_LIMIT_REPLY
    else if is_network_error text then Ok NETWORK_REPLY
    else fallback_reply fr message context.
Proof. reflexivity. Qed.

Lemma unclassified_classes (text : string) :
  unclassified text
  = negb (is_authentication_error text) && negb (is_rate_limit_error text)
    && negb (is_network_error text).
Proof.
  unfold unclassified, is_authentication_error, is_rate_limit_error,
    is_network_error. cbv zeta.
  destruct (str_in "authentication" (lower text)), (str_in "api key" (lower text)),
    (str_in "rate limit" (lower text)), (str_in "quota" (lower text)),
    (str_in "connection" (lower text)), (str_in "network" (lower text));
    reflexivity.
Qed.

Lemma lookup_truthy (items : list (string * json)) (key : string) :
  truthy (entry key JNull (JDict items)) = true ->
  lookup_item key items = Some (entry key JNull (JDict items)).
Proof.
  simpl. destruct (lookup_item key items); [reflexivity|discriminate].
Qed.

(** The canned reply that quotes a selected string. *)
Lemma fallback_reply_string fr (message context : json) (s : string) :
  is_dict context = true ->
  entry "selectedText" JNull context = JStr s -> s <> "" ->
  fallback_reply fr message context
  = Ok ("I can see you've selected: " +:+ dquote +:+ slice_to 200 s +:+
        (if 200 <? String.length s then "..." else "") +:+ dquote +:+ nl +:+ nl +:+
        "What would you like me to explain about this selection? (Note: AI chat temporarily unavailable)").
Proof.
  destruct context as [| | | | | |items]; try discriminate. intros _ Hsel Hne.
  unfold fallback_reply. cbn [bind get]. fold (entry "selectedText" JNull (JDict items)).
  assert (Htruthy : truthy (entry "selectedText" JNull (JDict items)) = true).
  { rewrite Hsel. simpl. destruct (String.eqb_spec s ""); [contradiction|reflexivity]. }
  rewrite Htruthy. unfold getitem. rewrite (lookup_truthy _ _ Htruthy), Hsel.
  reflexivity.
Qed.

(** The canned reply that quotes a selected list: Python slices the list
    and prints what is left as a list. *)
Lemma fallback_reply_list fr (message context : json) (elements : list json) :
  is_dict context = true ->
  entry "selectedText" JNull context = JList elements -> elements <> [] ->
  fallback_reply fr message context
  = Ok ("I can see you've selected: " +:+ dquote +:+
        py_str fr (JList (take 200 elements)) +:+
        (if 200 <? length elements then "..." else "") +:+ dquote +:+ nl +:+ nl +:+
        "What would you like me to explain about this selection? (Note: AI chat temporarily unavailable)").
Proof.
  destruct context as [| | | | | |items]; try discriminate. intros _ Hsel Hne.
  unfold fallback_reply. cbn [bind get]. fold (entry "selectedText" JNull (JDict items)).
  assert (Htruthy : truthy (entry "selectedText" JNull (JDict items)) = true).
  { rewrite Hsel. simpl. rewrite bool_decide_eq_false_2 by exact Hne. reflexivity. }
  rewrite Htruthy. unfold getitem. rewrite (lookup_truthy _ _ Htruthy), Hsel.
  reflexivity.
Qed.

(** The canned replies chosen by the message. *)
Lemma fallback_reply_message fr (m : string) (context : json) :
  is_dict context = true ->
  truthy (entry "selectedText" JNull context) = false ->
  fallback_reply fr (JStr m) context
  = Ok (if mentions "summary" m then
          "I'd be happy to provide a summary of page " +:+
          py_str fr (entry "currentPage" (JInt 1) context) +:+
          " of this document. What specific section interests you? (Note: AI chat temporarily unavailable)"
        else if mentions "explain" m then
          "I can help explain concepts from this PDF. Could you point me to the specific section or concept you'd like me to clarify? (Note: AI chat temporarily unavailable)"
        else
          "I'm here to help you understand this PDF document. Currently viewing page " +:+
          py_str fr (entry "currentPage" (JInt 1) context) +:+ " of " +:+
          py_str fr (entry "totalPages" (JStr "?") context) +:+
          ". What would you like to know? (Note: AI chat temporarily unavailable)").
Proof.
  destruct context as [| | | | | |items]; try discriminate. intros _ Hsel.
  unfold fallback_reply, mentions. cbn [bind get]. fold (entry "selectedText" JNull (JDict items)).
  rewrite Hsel. cbn [bind py_lower].
  destruct (str_in "summary" (lower m)); [reflexivity|].
  cbn [bind py_lower].
  destruct (str_in "explain" (lower m)); reflexivity.
Qed.

(** The canned reply cannot be written: an exception leaves the handler. *)
Lemma fallback_reply_raises fr (message context : json) :
  is_dict context = true ->
  answerable message context = false ->
  exists e, fallback_reply fr message context = Raise e.
Proof.
  destruct context as [| | | | | |items]; try discriminate. intros _.
  unfold answerable, fallback_reply. cbn [bind get]. fold (entry "selectedText" JNull (JDict items)).
  destruct (truthy (entry "selectedText" JNull (JDict items))) eqn:Htruthy.
  - unfold getitem. rewrite (lookup_truthy _ _ Htruthy).
    destruct (entry "selectedText" JNull (JDict items)); try discriminate;
      intros _; eexists; reflexivity.
  - destruct message; try discriminate; intros _; eexists; reflexivity.
Qed.

Lemma fallback_reply_answers fr (message context : json) :
  is_dict context = true ->
  answerable message context = true ->
  exists reply, fallback_reply fr message context = Ok reply.
Proof.
  intros Hdict. unfold answerable.
  destruct (truthy (entry "selectedText" JNull context)) eqn:Htruthy.
  - destruct (entry "selectedText" JNull context) as [| | | |s|elements|] eqn:Hsel;
      try discriminate; intros _.
    + eexists. apply (fallback_reply_string fr message context s Hdict Hsel).
      intros ->. discriminate.
    + eexists. apply (fallback_reply_list fr message context elements Hdict Hsel).
      intros ->. discriminate.
  - destruct message as [| | | |m| |]; try discriminate; intros _.
    eexists. apply (fallback_reply_message fr m context Hdict Htruthy).
Qed.


(** ** Without a credential *)

(** C1, as the code has it.  When [OPENAI_API_KEY] is unset or empty,
    [chat] makes no call to the completion API, whatever the request.  The
    lines that read the body run before the key is tested: the answer is
    the fixed warning, as the [response] with status 200, when they can
    read the body, and the error object with status 500 when they cannot.
    They can read every JSON object whose [history], if given, is a list
    and whose [context], if given, is an object. *)
Theorem chat_without_credential_reads_first
    fr (api_key : option string) (api : CompletionCall -> ApiOutcome) body :
  no_credential api_key = true ->
  chat fr api_key api body
  = (if readable body then Jsonify (JResponse MISSING_KEY_REPLY) 200
     else Jsonify (JError "Failed to process chat request") 500, [])
  /\ (forall items,
        body = GetJson (JDict items) ->
        (forall v, lookup_item "history" items = Some v -> exists l, v = JList l) ->
        (forall v, lookup_item "context" items = Some v -> exists d, v = JDict d) ->
        chat fr api_key api body
        = (Jsonify (JResponse MISSING_KEY_REPLY) 200, [])).
Proof.
  intros Hkey.
  assert (Hchat : chat fr api_key api body
                  = (if readable body then Jsonify (JResponse MISSING_KEY_REPLY) 200
                     else Jsonify (JError "Failed to process chat request") 500, [])).
  { destruct (readable body) eqn:Hr.
    - exact (chat_no_credential fr api_key api body Hr Hkey).
    - exact (chat_unreadable fr api_key api body Hr). }
  split; [exact Hchat|].
  intros items -> Hhistory Hcontext. rewrite Hchat.
  assert (Hr : readable (GetJson (JDict items)) = true).
  { unfold readable, context_of, history_of, field, entry.
    destruct (lookup_item "context" items) as [c|] eqn:Hc; simpl.
    - destruct (Hcontext c eq_refl) as [d ->]. simpl.
      destruct (lookup_item "history" items) as [h|] eqn:Hh; [|reflexivity].
      destruct (Hhistory h eq_refl) as [l ->]. reflexivity.
    - destruct (lookup_item "history" items) as [h|] eqn:Hh; [|reflexivity].
      destruct (Hhistory h eq_refl) as [l ->]. reflexivity. }
  rewrite Hr. reflexivity.
Qed.

Lemma chat_without_credential_reads_first_witness :
  let body :=
    GetJson (JDict [("message", JStr "explain page 2");
                    ("history", JList [chat_msg "user" (JStr "hello")]);
                    ("context", JDict [("currentPage", JInt 2)])]) in
  no_credential None = true
  /\ chat (fun _ => "") None (fun _ => Completed "unused") body
     = (Jsonify (JResponse MISSING_KEY_REPLY) 200, []).
Proof.
  intros body. split; [reflexivity|].
  exact (proj1 (chat_without_credential_reads_first
                  (fun _ => "") None (fun _ => Completed "unused") body eq_refl)).
Defined.

(** C1, as worded, fails: with no credential, a request whose [history] is
    [null] is answered with the error object and status 500, not with the
    warning; [len(history)] raises before the key is tested. *)
Lemma chat_without_credential_null_history :
  let body := GetJson (JDict [("message", JStr "hello"); ("history", JNull)]) in
  let answer := chat (fun _ => "") None (fun _ => Completed "unused") body in
  no_credential None = true
  /\ answer = (Jsonify (JError "Failed to process chat request") 500, [])
  /\ fst answer <> Jsonify (JResponse MISSING_KEY_REPLY) 200.
Proof.
  intros body answer. split; [reflexivity|]. split; [reflexivity|].
  vm_compute. discriminate.
Qed.

(** ** Every failure of the completion call *)

(** C4, as the code has it.  No exception leaves [chat]: its answer is a
    [response] with status 200 or the error object with status 500.  For a
    body the handler can read: without a credential the response is the
    warning; a completion is returned stripped; an exception of the call
    whose text names an authentication, a rate-limit or a network error is
    answered with the fixed message of its class, whatever the message and
    the context hold; any other exception is answered with the canned
    reply, which quotes the selected text when that is a string or a list
    that is not empty, and follows the message when there is no selected
    text and the message is a string.  When the canned reply cannot be
    written, and when the body cannot be read, the answer is the error
    object. *)
Theorem chat_answers_every_failure
    fr (api_key : option string) (api : CompletionCall -> ApiOutcome) body :
  let answer := fst (chat fr api_key api body) in
  let message := message_of body in
  let context := context_of body in
  let selection := entry "selectedText" JNull context in
  let page := py_str fr (entry "currentPage" (JInt 1) context) in
  let pages := py_str fr (entry "totalPages" (JStr "?") context) in
  let reply := fun text => Jsonify (JResponse text) 200 in
  let failed := Jsonify (JError "Failed to process chat request") 500 in
  ((exists text, answer = reply text) \/ answer = failed)
  /\ (readable body = false -> answer = failed)
  /\ (readable body = true -> no_credential api_key = true ->
      answer = reply MISSING_KEY_REPLY)
  /\ (forall key outcome,
        readable body = true -> api_key = Some key -> key <> "" ->
        api (completion_call key (messages_of fr body)) = outcome ->
        (forall text, outcome = Completed text -> answer = reply (strip text))
        /\ (forall text, outcome = ApiRaised text ->
            (is_authentication_error text = true -> answer = reply INVALID_KEY_REPLY)
            /\ (is_authentication_error text = false ->
                is_rate_limit_error text = true -> answer = reply RATE_LIMIT_REPLY)
            /\ (is_authentication_error text = false ->
                is_rate_limit_error text = false ->
                is_network_error text = true -> answer = reply NETWORK_REPLY)
            /\ (unclassified text = true ->
                (forall s, selection = JStr s -> s <> "" ->
                   answer = reply
                     ("I can see you've selected: " +:+ dquote +:+ slice_to 200 s +:+
                      (if 200 <? String.length s then "..." else "") +:+ dquote +:+
                      nl +:+ nl +:+
                      "What would you like me to explain about this selection? (Note: AI chat temporarily unavailable)"))
                /\ (forall elements, selection = JList elements -> elements <> [] ->
                   answer = reply
                     ("I can see you've selected: " +:+ dquote +:+
                      py_str fr (JList (take 200 elements)) +:+
                      (if 200 <? length elements then "..." else "") +:+ dquote +:+
                      nl +:+ nl +:+
                      "What would you like me to explain about this selection? (Note: AI chat temporarily unavailable)"))
                /\ (forall m, truthy selection = false -> message = JStr m ->
                   answer = reply
                     (if mentions "summary" m then
                        "I'd be happy to provide a summary of page " +:+ page +:+
                        " of this document. What specific section interests you? (Note: AI chat temporarily unavailable)"
                      else if mentions "explain" m then
                        "I can help explain concepts from this PDF. Could you point me to the specific section or concept you'd like me to clarify? (Note: AI chat temporarily unavailable)"
                      else
                        "I'm here to help you understand this PDF document. Currently viewing page " +:+
                        page +:+ " of " +:+ pages +:+
                        ". What would you like to know? (Note: AI chat temporarily unavailable)"))
                /\ (answerable message context = false -> answer = failed)))).
Proof.
  intros answer message context selection page pages reply failed.
  split; [|split; [|split]].
  - unfold answer. rewrite chat_request_eq. simpl fst.
    destruct (fst (chat_body fr api_key api body)) as [text|e]; simpl.
    + left. exists text. reflexivity.
    + right. reflexivity.
  - intros Hr. unfold answer. rewrite (chat_unreadable fr api_key api body Hr).
    reflexivity.
  - intros Hr Hkey. unfold answer.
    rewrite (chat_no_credential fr api_key api body Hr Hkey). reflexivity.
  - intros key outcome Hr -> Hkey Hcall.
    pose proof (readable_context_dict body Hr) as Hdict. fold context in Hdict.
    assert (Hanswer : answer
                      = reply_of match outcome with
                                 | Completed text => Ok (strip text)
                                 | ApiRaised text =>
                                   on_openai_error fr text message context
                                 end).
    { unfold answer. rewrite (chat_with_key fr key api body Hr Hkey).
      cbv zeta. simpl fst. rewrite Hcall. reflexivity. }
    split.
    { intros text ->. exact Hanswer. }
    intros text ->. rewrite on_openai_error_classes in Hanswer.
    split; [|split; [|split]].
    + intros Hauth. rewrite Hauth in Hanswer. exact Hanswer.
    + intros Hauth Hrate. rewrite Hauth, Hrate in Hanswer. exact Hanswer.
    + intros Hauth Hrate Hnet. rewrite Hauth, Hrate, Hnet in Hanswer. exact Hanswer.
    + intros Hun. rewrite unclassified_classes in Hun.
      apply andb_true_iff in Hun as [Hun Hnet].
      apply andb_true_iff in Hun as [Hauth Hrate].
      apply negb_true_iff in Hauth, Hrate, Hnet.
      rewrite Hauth, Hrate, Hnet in Hanswer.
      split; [|split; [|split]].
      * intros s Hsel Hne.
        rewrite Hanswer, (fallback_reply_string fr message context s Hdict Hsel Hne).
        reflexivity.
      * intros elements Hsel Hne.
        rewrite Hanswer,
          (fallback_reply_list fr message context elements Hdict Hsel Hne).
        reflexivity.
      * intros m Hsel Hm.
        rewrite Hanswer, Hm, (fallback_reply_message fr m context Hdict Hsel).
        reflexivity.
      * intros Hno.
        destruct (fallback_reply_raises fr message context Hdict Hno) as [e He].
        rewrite Hanswer, He. reflexivity.
Qed.

Lemma chat_answers_every_failure_witness :
  let body :=
    GetJson (JDict [("message", JInt 5);
                    ("context", JDict [("selectedText", JBool true)])]) in
  let api := fun _ : CompletionCall => ApiRaised "Connection refused" in
  readable body = true
  /\ "sk-test" <> ""
  /\ is_authentication_error "Connection refused" = false
  /\ is_rate_limit_error "Connection refused" = false
  /\ is_network_error "Connection refused" = true
  /\ fst (chat (fun _ => "") (Some "sk-test") api body)
     = Jsonify (JResponse NETWORK_REPLY) 200.
Proof.
  intros body api.
  assert (Hkey : "sk-test" <> "") by discriminate.
  repeat (split; [first [reflexivity | exact Hkey]|]).
  pose proof (chat_answers_every_failure (fun _ => "") (Some "sk-test") api body)
    as (_ & _ & _ & Hcall).
  destruct (Hcall "sk-test" (ApiRaised "Connection refused")
              eq_refl eq_refl Hkey eq_refl) as (_ & Hraised).
  destruct (Hraised "Connection refused" eq_refl) as (_ & _ & Hnetwork & _).
  exact (Hnetwork eq_refl eq_refl eq_refl).
Defined.

(** C4, as worded, fails: a failure of the completion call that belongs to
    none of the three classes is not always answered with a reply.  With a
    selected text that is a number, or with a message that is not a string,
    the handler of the failure raises in its turn, and the caller receives
    the error object with status 500. *)
Lemma chat_failure_without_reply :
  let api := fun _ : CompletionCall => ApiRaised "Internal server error" in
  let numbered :=
    GetJson (JDict [("message", JStr "what is this?");
                    ("context", JDict [("selectedText", JInt 42)])]) in
  let unworded := GetJson (JDict [("message", JInt 5)]) in
  let failed := Jsonify (JError "Failed to process chat request") 500 in
  unclassified "Internal server error" = true
  /\ fst (chat (fun _ => "") (Some "sk-test") api numbered) = failed
  /\ fst (chat (fun _ => "") (Some "sk-test") api unworded) = failed
  /\ (forall text,
        fst (chat (fun _ => "") (Some "sk-test") api numbered)
        <> Jsonify (JResponse text) 200).
Proof.
  intros api numbered unworded failed.
  assert (Hfailed : fst (chat (fun _ => "") (Some "sk-test") api numbered) = failed)
    by reflexivity.
  split; [reflexivity|]. split; [exact Hfailed|]. split; [reflexivity|].
  intros text. rewrite Hfailed. discriminate.
Qed.

(** ** The call *)

(** X8. [chat] calls the completion API at most once: not at all without a
    credential or when it cannot read the body, and once otherwise,
    whatever the API then does.  The call is made with the configured key,
    the model gpt-3.5-turbo and a limit of 500 tokens, and carries the
    system instruction, then what the history forwards, ten entries at
    most, then the user message. *)
Theorem chat_makes_one_bounded_call
    fr (api_key : option string) (api : CompletionCall -> ApiOutcome) body :
  let calls := snd (chat fr api_key api body) in
  length calls <= 1
  /\ (calls = [] <-> no_credential api_key = true \/ readable body = false)
  /\ (forall call, In call calls ->
        api_key = Some (cc_api_key call)
        /\ cc_model call = "gpt-3.5-turbo"
        /\ cc_max_tokens call = 500%Z
        /\ cc_messages call
           = [chat_msg "system" (JStr (prompt_of fr (context_of body)))]
               ++ forwarded (history_of body)
               ++ [chat_msg "user" (message_of body)]
        /\ (exists n, py_len (history_of body) = Ok n
                      /\ length (forwarded (history_of body)) = min n 10)
        /\ length (cc_messages call) <= 12).
Proof.
  intros calls. unfold calls. clear calls.
  destruct (readable body) eqn:Hr.
  2: { rewrite (chat_unreadable fr api_key api body Hr). simpl.
       split; [lia|]. split; [tauto|]. intros call []. }
  destruct (no_credential api_key) eqn:Hcred.
  { rewrite (chat_no_credential fr api_key api body Hr Hcred). simpl.
    split; [lia|]. split; [tauto|]. intros call []. }
  destruct (credential_cases api_key Hcred) as (key & -> & Hkey).
  rewrite (chat_with_key fr key api body Hr Hkey). cbv zeta. simpl snd.
  split; [simpl; lia|].
  split; [split; [discriminate|intros [H|H]; discriminate]|].
  intros call [<-|[]]. simpl.
  split; [reflexivity|]. split; [reflexivity|]. split; [reflexivity|].
  split; [reflexivity|].
  assert (Hhistory : history_readable (history_of body) = true).
  { destruct body as [text|data]; [discriminate|].
    destruct data; try discriminate.
    change (is_dict (context_of (GetJson (JDict items)))
            && history_readable (history_of (GetJson (JDict items))) = true) in Hr.
    apply andb_true_iff in Hr as [_ Hr]. exact Hr. }
  destruct (forward_history _ Hhistory) as (n & Hlen & _ & Hcount).
  split; [exists n; split; assumption|].
  unfold messages_of. simpl. rewrite length_app, Hcount. simpl. lia.
Qed.

(** ** When the caller sees the error object *)

(** X9. [chat] answers with the error object and status 500 in two
    situations only.  Either it cannot read the body.  Or a credential is
    configured, the completion call raised an error that is neither an
    authentication, a rate-limit nor a network error, and the canned reply
    could not be written: the selected text is a true value that is neither
    a string nor a list or, without selected text, the message is not a
    string. *)
Theorem chat_error_reply_iff
    fr (api_key : option string) (api : CompletionCall -> ApiOutcome) body :
  fst (chat fr api_key api body)
  = Jsonify (JError "Failed to process chat request") 500
  <->
  readable body = false
  \/ exists key text,
       readable body = true
       /\ api_key = Some key /\ key <> ""
       /\ api (completion_call key (messages_of fr body)) = ApiRaised text
       /\ unclassified text = true
       /\ answerable (message_of body) (context_of body) = false.
Proof.
  destruct (readable body) eqn:Hr.
  2: { rewrite (chat_unreadable fr api_key api body Hr). simpl.
       split; [intros _; left; reflexivity|reflexivity]. }
  pose proof (readable_context_dict body Hr) as Hdict.
  destruct (no_credential api_key) eqn:Hcred.
  { rewrite (chat_no_credential fr api_key api body Hr Hcred). simpl.
    split; [discriminate|].
    intros [H|(key & text & _ & -> & Hkey & _)]; [discriminate|].
    simpl in Hcred. apply String.eqb_eq in Hcred. contradiction. }
  destruct (credential_cases api_key Hcred) as (key & -> & Hkey).
  rewrite (chat_with_key fr key api body Hr Hkey). cbv zeta. simpl fst.
  destruct (api (completion_call key (messages_of fr body)))
    as [completion|text] eqn:Hapi.
  { simpl. split; [discriminate|].
    intros [H|(key' & text & _ & Heq & _ & Hraised & _)]; [discriminate|].
    injection Heq as <-. rewrite Hapi in Hraised. discriminate. }
  rewrite on_openai_error_classes.
  destruct (unclassified text) eqn:Hun.
  - pose proof Hun as Hclasses. rewrite unclassified_classes in Hclasses.
    apply andb_true_iff in Hclasses as [Hclasses Hnet].
    apply andb_true_iff in Hclasses as [Hauth Hrate].
    apply negb_true_iff in Hauth, Hrate, Hnet.
    rewrite Hauth, Hrate, Hnet.
    destruct (answerable (message_of body) (context_of body)) eqn:Hans.
    + destruct (fallback_reply_answers fr _ _ Hdict Hans) as [reply ->]. simpl.
      split; [discriminate|].
      intros [H|(key' & text' & _ & _ & _ & _ & _ & H)]; discriminate.
    + destruct (fallback_reply_raises fr _ _ Hdict Hans) as [e ->]. simpl.
      split; [|reflexivity].
      intros _. right. exists key, text. repeat split; assumption.
  - assert (Hreply : exists reply,
              (if is_authentication_error text then Ok INVALID_KEY_REPLY
               else if is_rate_limit_error text then Ok RATE_LIMIT_REPLY
               else if is_network_error text then Ok NETWORK_REPLY
               else fallback_reply fr (message_of body) (context_of body))
              = Ok reply).
    { rewrite unclassified_classes in Hun.
      destruct (is_authentication_error text); [eexists; reflexivity|].
      destruct (is_rate_limit_error text); [eexists; reflexivity|].
      destruct (is_network_error text); [eexists; reflexivity|].
      discriminate. }
    destruct Hreply as [reply ->]. simpl.
    split; [discriminate|].
    intros [H|(key' & text' & _ & Heq & _ & Hraised & Hun' & _)]; [discriminate|].
    injection Heq as <-. rewrite Hapi in Hraised. injection Hraised as <-.
    rewrite Hun in Hun'. discriminate.
Qed.

Example chat_request_examples :
  let fr := fun _ : float => "" in
  let api := fun _ : CompletionCall => ApiRaised "Internal server error" in
  let failed := Jsonify (JError "Failed to process chat request") 500 in
  chat fr (Some "sk-test") api (NotJson "400 Bad Request") = (failed, [])
  /\ chat fr (Some "sk-test") api (GetJson (JList [])) = (failed, [])
  /\ chat fr (Some "sk-test") api (GetJson (JDict [("context", JNull)])) = (failed, [])
  /\ chat fr None api (GetJson (JDict [("history", JInt 3)])) = (failed, [])
  /\ fst (chat fr (Some "sk-test") api
            (GetJson (JDict [("context",
                              JDict [("selectedText", JList [JStr "a"; JInt 2])])])))
     = Jsonify (JResponse
         ("I can see you've selected: " +:+ dquote +:+ "['a', 2]" +:+ dquote +:+
          nl +:+ nl +:+
          "What would you like me to explain about this selection? (Note: AI chat temporarily unavailable)"))
         200
  /\ (cc_messages <$> snd (chat fr (Some "sk-test") api
                             (GetJson (JDict [("history", JStr "ab")]))))
     = [[chat_msg "system" (JStr (prompt_of fr (JDict [])));
         JStr "a"; JStr "b"; chat_msg "user" (JStr "")]].
Proof. repeat split. Qed.


(** ** The bodies of the shape the viewer posts *)

Lemma lookup_item_list_to_map (l : list (string * Chat.pyval)) (key : string) :
  lookup_item key (prod_map id json_of_pyval <$> l)
  = json_of_pyval <$> ((list_to_map l : gmap string Chat.pyval) !! key).
Proof.
  induction l as [|[k v] l IH]; [rewrite list_to_map_nil, lookup_empty; reflexivity|].
  simpl. destruct (String.eqb_spec k key) as [->|Hne].
  - rewrite lookup_insert_eq. reflexivity.
  - rewrite lookup_insert_ne by exact Hne. exact IH.
Qed.

Lemma entry_of_context (context : gmap string Chat.pyval) (key : string)
    (dflt : Chat.pyval) :
  entry key (json_of_pyval dflt) (json_of_context context)
  = json_of_pyval (Chat.dict_get context key dflt).
Proof.
  unfold entry, json_of_context, Chat.dict_get.
  rewrite lookup_item_list_to_map, list_to_map_to_list.
  destruct (context !! key); reflexivity.
Qed.

Lemma py_str_of_pyval fr (v : Chat.pyval) :
  py_str fr (json_of_pyval v) = Chat.py_str v.
Proof. destruct v as [|[|]| |]; reflexivity. Qed.

Lemma truthy_of_pyval (v : Chat.pyval) :
  truthy (json_of_pyval v) = Chat.truthy v.
Proof. destruct v; reflexivity. Qed.

Lemma prompt_of_context fr (context : gmap string Chat.pyval) :
  prompt_of fr (json_of_context context) = Chat.system_prompt context.
Proof.
  unfold prompt_of.
  pose proof (entry_of_context context "filename" (Chat.VStr "Unknown")) as H1.
  pose proof (entry_of_context context "currentPage" (Chat.VInt 1)) as H2.
  pose proof (entry_of_context context "totalPages" (Chat.VStr "Unknown")) as H3.
  pose proof (entry_of_context context "selectedText" (Chat.VStr "None")) as H4.
  simpl json_of_pyval in H1, H2, H3, H4.
  rewrite H1, H2, H3, H4, !py_str_of_pyval.
  reflexivity.
Qed.

Lemma fields_of_data (data : Chat.ChatData) :
  message_of (json_of_data data)
  = json_of_pyval (default (Chat.VStr "") (Chat.d_message data))
  /\ history_of (json_of_data data)
     = JList (json_of_msg <$> default [] (Chat.d_history data))
  /\ context_of (json_of_data data)
     = json_of_context (default ∅ (Chat.d_context data)).
Proof.
  assert (Hempty : json_of_context ∅ = JDict []).
  { unfold json_of_context. rewrite map_to_list_empty. reflexivity. }
  destruct data as [[message|] [history|] [context|]];
    repeat split; try reflexivity; simpl default; rewrite Hempty; reflexivity.
Qed.

Lemma readable_of_data (data : Chat.ChatData) : readable (json_of_data data) = true.
Proof.
  destruct (fields_of_data data) as (_ & Hhistory & Hcontext).
  change (is_dict (context_of (json_of_data data))
          && history_readable (history_of (json_of_data data)) = true).
  rewrite Hhistory, Hcontext. reflexivity.
Qed.

Lemma messages_of_data fr (data : Chat.ChatData) :
  messages_of fr (json_of_data data)
  = json_of_msg <$> Chat.build_messages (default (Chat.VStr "") (Chat.d_message data))
                      (default [] (Chat.d_history data))
                      (default ∅ (Chat.d_context data)).
Proof.
  destruct (fields_of_data data) as (Hmessage & Hhistory & Hcontext).
  unfold messages_of, Chat.build_messages.
  rewrite Hmessage, Hhistory, Hcontext, prompt_of_context, !fmap_app.
  f_equal. f_equal.
  unfold forwarded, last_ten, Chat.recent_history, last_n.
  rewrite length_fmap.
  destruct (10 <? length (default [] (Chat.d_history data))); [|reflexivity].
  rewrite fmap_drop. reflexivity.
Qed.

Lemma is_dict_context (context : gmap string Chat.pyval) :
  is_dict (json_of_context context) = true.
Proof. reflexivity. Qed.

(** The canned replies agree, and fail together. *)
Lemma fallback_reply_of_data fr (message : Chat.pyval)
    (context : gmap string Chat.pyval) :
  reply_of (fallback_reply fr (json_of_pyval message) (json_of_context context))
  = reply_of (Chat.fallback_reply message context).
Proof.
  pose proof (entry_of_context context "selectedText" Chat.VNone) as Hsel.
  simpl json_of_pyval in Hsel.
  pose proof (ChatMore.fallback_reply_raises_iff message context) as Hraises.
  cbv zeta in Hraises.
  destruct (Chat.truthy (Chat.dict_get context "selectedText" Chat.VNone))
    eqn:Htruthy.
  - destruct (Chat.dict_get context "selectedText" Chat.VNone) as [|b|n|s] eqn:Hv.
    + discriminate.
    + assert (Hno : answerable (json_of_pyval message) (json_of_context context)
                    = false).
      { unfold answerable. rewrite Hsel. simpl. simpl in Htruthy.
        rewrite Htruthy. reflexivity. }
      destruct (fallback_reply_raises fr _ _ (is_dict_context context) Hno) as [e ->].
      destruct (proj2 Hraises) as [e' ->]; [intros s; discriminate|]. reflexivity.
    + assert (Hno : answerable (json_of_pyval message) (json_of_context context)
                    = false).
      { unfold answerable. rewrite Hsel. simpl. simpl in Htruthy.
        rewrite Htruthy. reflexivity. }
      destruct (fallback_reply_raises fr _ _ (is_dict_context context) Hno) as [e ->].
      destruct (proj2 Hraises) as [e' ->]; [intros s; discriminate|]. reflexivity.
    + assert (Hne : s <> "") by (intros ->; discriminate).
      rewrite (fallback_reply_string fr _ _ s (is_dict_context context) Hsel Hne).
      rewrite (ChatFacts.fallback_reply_selected message context s Hv Hne).
      reflexivity.
  - assert (Hfalse : truthy (entry "selectedText" JNull (json_of_context context))
                     = false).
    { rewrite Hsel, truthy_of_pyval. exact Htruthy. }
    destruct message as [|b|n|m].
    1-3: match goal with
         | |- reply_of (fallback_reply ?f ?m ?c) = _ =>
           assert (Hno : answerable m c = false)
             by (unfold answerable; rewrite Hfalse; reflexivity);
           destruct (fallback_reply_raises f m c (is_dict_context context) Hno)
             as [e ->]
         end;
      (destruct (proj2 Hraises) as [e' ->]; [intros m; discriminate|]);
      reflexivity.
    simpl json_of_pyval.
    rewrite (fallback_reply_message fr m _ (is_dict_context context) Hfalse).
    rewrite (ChatFacts.fallback_reply_no_selection m context Htruthy).
    pose proof (entry_of_context context "currentPage" (Chat.VInt 1)) as H1.
    pose proof (entry_of_context context "totalPages" (Chat.VStr "?")) as H2.
    simpl json_of_pyval in H1, H2.
    rewrite H1, H2, !py_str_of_pyval.
    reflexivity.
Qed.

(** On a body of the shape the viewer posts, [chat] is [Chat.chat]: the
    same answer, and the same calls to the completion API. *)
Lemma chat_of_shaped_body
    fr (api_key : option string) (api : CompletionCall -> ApiOutcome)
    (data : Chat.ChatData) :
  let shaped := Chat.chat api_key (fun call => api (json_of_call call)) data in
  chat fr api_key api (json_of_data data)
  = (fst shaped, json_of_call <$> snd shaped).
Proof.
  cbv zeta. pose proof (readable_of_data data) as Hr.
  rewrite ChatFacts.chat_eq. simpl fst. simpl snd.
  destruct (no_credential api_key) eqn:Hcred.
  { rewrite (chat_no_credential fr api_key api _ Hr Hcred).
    rewrite (ChatFacts.chat_body_without_credential api_key _ data Hcred).
    reflexivity. }
  destruct (credential_cases api_key Hcred) as (key & -> & Hkey).
  rewrite (chat_with_key fr key api _ Hr Hkey).
  rewrite (ChatFacts.chat_body_with_key key _ data Hkey).
  cbv zeta. simpl fst. simpl snd.
  rewrite messages_of_data.
  change (json_of_call (Chat.completion_call key ?msgs))
    with (completion_call key (json_of_msg <$> msgs)).
  f_equal.
  destruct (api _) as [completion|text]; [reflexivity|].
  destruct (fields_of_data data) as (-> & _ & ->).
  rewrite on_openai_error_classes.
  unfold Chat.on_openai_error. cbv zeta.
  fold (is_authentication_error text) (is_rate_limit_error text)
    (is_network_error text).
  destruct (is_authentication_error text); [reflexivity|].
  destruct (is_rate_limit_error text); [reflexivity|].
  destruct (is_network_error text); [reflexivity|].
  apply fallback_reply_of_data.
Qed.

End ChatRequestFacts.

(* ===================================================================== *)
(** * More facts: the viewer session *)
(* ===================================================================== *)

Module SessionFacts.
Import Viewer Session.

Ltac unfold_handlers :=
  unfold step, on_keydown, zoom, on_wheel, on_scroll_settled, on_mousedown,
    on_mouseup, on_render_done, on_render_failed, on_loaded, nextPage,
    prevPage, renderPage, set_pdfDoc, set_currentPage, set_scale,
    set_isRendering, set_inFlight, set_scrollAccumulator,
    set_isScrollNavigating, set_isDragging in *.

Ltac split_branches :=
  repeat match goal with
         | |- context [if ?b then _ else _] => destruct b eqn:?; simpl in *
         | |- context [match ?x with Some _ => _ | None => _ end] =>
           destruct x eqn:?; simpl in *
         end.

Example zoomLevel_examples :
  zoomLevel initial_scale = Some "120%"
  /\ zoomLevel (zoomIn initial_scale) = Some "150%"
  /\ zoomLevel (zoomOut initial_scale) = Some "96%"
  /\ zoomLevel (zoomOut (zoomOut initial_scale)) = Some "77%"
  /\ zoomLevel 3%float = Some "300%"
  /\ js_round 2.5%float = Some 3%Z
  /\ js_round (-2.5)%float = Some (-2)%Z
  /\ js_round 0.49%float = Some 0%Z.
Proof. repeat split. Qed.

(** ** The scale of a session *)

Lemma step_scale_reachable (s : ViewerState) (e : event) :
  scale s ∈ reachable_scales -> scale (step s e) ∈ reachable_scales.
Proof.
  intros Hs.
  pose proof (ViewerFacts.apply_zoom_closed _ ZoomIn Hs) as Hin.
  pose proof (ViewerFacts.apply_zoom_closed _ ZoomOut Hs) as Hout.
  pose proof (ViewerFacts.apply_zoom_closed _ ResetZoom Hs) as Hreset.
  destruct s; destruct e; try destruct op; unfold_handlers; simpl in *;
    split_branches; assumption.
Qed.

Lemma run_scale_reachable (events : list event) (s : ViewerState) :
  scale s ∈ reachable_scales -> scale (run events s) ∈ reachable_scales.
Proof.
  revert s. induction events as [|e events IH]; intros s Hs; [exact Hs|].
  apply IH, step_scale_reachable, Hs.
Qed.

Lemma on_loaded_scale (s : ViewerState) (numPages : Z) :
  scale (on_loaded s numPages) = scale s.
Proof. destruct s; unfold_handlers; simpl; split_branches; reflexivity. Qed.

Lemma zoomLevel_table :
  forallb (fun s => match js_round (PrimFloat.mul s 100%float) with
                    | Some n => (50 <=? n)%Z && (n <=? 300)%Z
                    | None => false
                    end) reachable_scales = true.
Proof. vm_compute. reflexivity. Qed.

(** X13. Whatever happens in a viewer, before and after the document is
    loaded, the zoom label written by [updateZoomLevel] is a whole number
    of percent between 50 and 300, and the scale lies in [0.5, 3]. *)
Theorem session_zoom_label_bounds
    (before after : list event) (numPages : Z) :
  let s := run after (on_loaded (run before fresh) numPages) in
  in_range (scale s) = true
  /\ exists n, zoomLevel (scale s) = Some (Py.str_of_int n +:+ "%")
               /\ (50 <= n <= 300)%Z.
Proof.
  cbv zeta.
  assert (Hs : scale (run after (on_loaded (run before fresh) numPages))
               ∈ reachable_scales).
  { apply run_scale_reachable. rewrite on_loaded_scale.
    apply run_scale_reachable. exact ViewerFacts.initial_reachable. }
  apply list_elem_of_In in Hs. split.
  - exact (proj1 (forallb_forall in_range reachable_scales)
             ViewerFacts.reachable_in_range _ Hs).
  - pose proof (proj1 (forallb_forall _ reachable_scales) zoomLevel_table _ Hs) as H.
    unfold zoomLevel. cbv beta in H.
    destruct (js_round (PrimFloat.mul _ 100%float)) as [n|];
      [|simpl in H; discriminate H].
    exists n. split; [reflexivity|]. lia.
Qed.

(** ** The page of a session *)

Ltac to_Z :=
  repeat match goal with
         | H : (_ <? _)%Z = true |- _ => apply Z.ltb_lt in H
         | H : (_ <? _)%Z = false |- _ => apply Z.ltb_ge in H
         | H : Some _ = Some _ |- _ => injection H as H
         | H : Some _ = None |- _ => discriminate H
         | H : None = Some _ |- _ => discriminate H
         end.

Lemma step_before_load (s : ViewerState) (e : event) :
  pdfDoc s = None -> currentPage s = 1%Z -> inFlight s = None ->
  pdfDoc (step s e) = None /\ currentPage (step s e) = 1%Z
  /\ inFlight (step s e) = None.
Proof.
  destruct s; simpl. intros -> -> ->.
  destruct e; unfold_handlers; simpl; split_branches; auto.
Qed.

Lemma run_before_load (events : list event) (s : ViewerState) :
  pdfDoc s = None -> currentPage s = 1%Z -> inFlight s = None ->
  pdfDoc (run events s) = None /\ currentPage (run events s) = 1%Z
  /\ inFlight (run events s) = None.
Proof.
  revert s. induction events as [|e events IH]; intros s H1 H2 H3; [auto|].
  destruct (step_before_load s e H1 H2 H3) as (H1' & H2' & H3').
  exact (IH _ H1' H2' H3').
Qed.

Lemma step_after_load (numPages : Z) (s : ViewerState) (e : event) :
  pdfDoc s = Some numPages ->
  (1 <= currentPage s <= numPages)%Z ->
  (forall p, inFlight s = Some p -> (1 <= p <= numPages)%Z) ->
  pdfDoc (step s e) = Some numPages
  /\ (1 <= currentPage (step s e) <= numPages)%Z
  /\ (forall p, inFlight (step s e) = Some p -> (1 <= p <= numPages)%Z).
Proof.
  destruct s as [doc page sc rendering flight acc lock drag]; simpl.
  intros -> Hpage Hflight.
  assert (Hf : forall p, flight = Some p -> (1 <= p <= numPages)%Z) by exact Hflight.
  destruct flight as [q|]; [pose proof (Hf q eq_refl)|];
    destruct e; unfold_handlers; simpl; split_branches;
    (split; [reflexivity|]); (split; [to_Z; lia|]);
    intros p Hp; to_Z; subst; try lia; auto.
Qed.

Lemma run_after_load (numPages : Z) (events : list event) (s : ViewerState) :
  pdfDoc s = Some numPages ->
  (1 <= currentPage s <= numPages)%Z ->
  (forall p, inFlight s = Some p -> (1 <= p <= numPages)%Z) ->
  pdfDoc (run events s) = Some numPages
  /\ (1 <= currentPage (run events s) <= numPages)%Z
  /\ (forall p, inFlight (run events s) = Some p -> (1 <= p <= numPages)%Z).
Proof.
  revert s. induction events as [|e events IH]; intros s H1 H2 H3; [auto|].
  destruct (step_after_load numPages s e H1 H2 H3) as (H1' & H2' & H3').
  exact (IH _ H1' H2' H3').
Qed.

(** X14. For a document of at least one page, whatever the user does
    before and after the document is loaded, and however renders end, the
    current page and the page being rendered stay between 1 and the number
    of pages. *)
Theorem session_pages_stay_in_range
    (numPages : Z) (before after : list event) :
  (1 <= numPages)%Z ->
  let s := run after (on_loaded (run before fresh) numPages) in
  pdfDoc s = Some numPages
  /\ (1 <= currentPage s <= numPages)%Z
  /\ (forall p, inFlight s = Some p -> (1 <= p <= numPages)%Z).
Proof.
  intros Hn. cbv zeta.
  destruct (run_before_load before fresh eq_refl eq_refl eq_refl) as (Hdoc & Hpage & Hflight).
  apply run_after_load.
  - destruct (run before fresh); unfold_handlers; simpl in *; split_branches; reflexivity.
  - destruct (run before fresh); unfold_handlers; simpl in *; subst;
      split_branches; simpl; lia.
  - destruct (run before fresh); unfold_handlers; simpl in *; subst;
      split_branches; simpl; intros p Hp; to_Z; subst; lia.
Qed.

Lemma session_pages_stay_in_range_witness :
  let s := run [KeyDown "ArrowRight" false; RenderDone;
                KeyDown "PageDown" false; RenderDone;
                KeyDown "ArrowDown" false; RenderDone]
               (on_loaded (run [MouseDown false] fresh) 2) in
  (1 <= 2)%Z
  /\ pdfDoc s = Some 2%Z
  /\ (1 <= currentPage s <= 2)%Z.
Proof.
  intros s.
  assert (Hn : (1 <= 2)%Z) by lia.
  split; [exact Hn|].
  destruct (session_pages_stay_in_range 2
              [MouseDown false]
              [KeyDown "ArrowRight" false; RenderDone;
               KeyDown "PageDown" false; RenderDone;
               KeyDown "ArrowDown" false; RenderDone] Hn) as (Hdoc & Hpage & _).
  split; [exact Hdoc|exact Hpage].
Defined.

(** ** One render at a time *)

Lemma step_while_rendering (s : ViewerState) (e : event) :
  isRendering s = true -> e <> RenderDone ->
  isRendering (step s e) = true
  /\ currentPage (step s e) = currentPage s
  /\ (inFlight (step s e) = inFlight s \/ inFlight (step s e) = None).
Proof.
  destruct s; simpl. intros -> He.
  destruct e; try contradiction; unfold_handlers; simpl; split_branches; auto.
Qed.

(** X15. While a render is under way, nothing but its completion changes
    the page: keys, zoom buttons, wheel and scroll events leave the current
    page as it is and start no other render, so a request made in the
    meantime is dropped, not queued. *)
Theorem render_is_single_flight (s : ViewerState) (events : list event) :
  isRendering s = true ->
  Forall (fun e => e <> RenderDone) events ->
  isRendering (run events s) = true
  /\ currentPage (run events s) = currentPage s
  /\ (inFlight (run events s) = inFlight s \/ inFlight (run events s) = None).
Proof.
  intros Hr Hall. revert s Hr.
  induction Hall as [|e events He Hall IH]; intros s Hr; [auto|].
  destruct (step_while_rendering s e Hr He) as (Hr' & Hpage & Hflight).
  destruct (IH _ Hr') as (Hr'' & Hpage' & Hflight').
  simpl. split; [exact Hr''|]. split; [congruence|].
  destruct Hflight' as [H|H]; [|right; exact H].
  destruct Hflight as [H'|H']; [left|right]; congruence.
Qed.

Lemma render_is_single_flight_witness :
  let s := on_loaded fresh 5 in
  let events := [KeyDown "ArrowRight" false; ClickZoom ZoomIn; Wheel 250%float;
                 KeyDown "PageDown" false] in
  isRendering s = true
  /\ Forall (fun e => e <> RenderDone) events
  /\ currentPage (run events s) = 1%Z
  /\ inFlight (run events s) = Some 1%Z.
Proof.
  intros s events.
  assert (Hr : isRendering s = true) by reflexivity.
  assert (Hall : Forall (fun e => e <> RenderDone) events)
    by (repeat constructor; discriminate).
  split; [exact Hr|]. split; [exact Hall|].
  destruct (render_is_single_flight s events Hr Hall) as (_ & Hpage & _).
  split; [exact Hpage|reflexivity].
Defined.

(** ** Turning pages *)

Lemma forward_key_step
    (s : ViewerState) (numPages : Z) (ctrlKey : bool) (forward : string) :
  pdfDoc s = Some numPages ->
  isRendering s = false ->
  In forward ["ArrowRight"; "ArrowDown"; "PageDown"] ->
  step s (KeyDown forward ctrlKey)
  = if (currentPage s <? numPages)%Z
    then set_inFlight (set_isRendering s true) (Some (currentPage s + 1)%Z)
    else s.
Proof.
  destruct s as [doc page sc rendering flight acc lock drag]; simpl.
  intros -> -> Hforward.
  assert (Hf : bool_decide (forward ∈ ["ArrowLeft"; "ArrowUp"; "PageUp"]) = false
               /\ bool_decide (forward ∈ ["ArrowRight"; "ArrowDown"; "PageDown"]) = true).
  { simpl in Hforward. destruct Hforward as [<-|[<-|[<-|[]]]]; split; reflexivity. }
  destruct Hf as [Hf1 Hf2].
  unfold on_keydown. rewrite Hf1, Hf2. unfold nextPage, renderPage. simpl.
  destruct (page <? numPages)%Z; reflexivity.
Qed.

Lemma back_key_step
    (s : ViewerState) (numPages : Z) (ctrlKey : bool) (back : string) :
  pdfDoc s = Some numPages ->
  isRendering s = false ->
  In back ["ArrowLeft"; "ArrowUp"; "PageUp"] ->
  step s (KeyDown back ctrlKey)
  = if (1 <? currentPage s)%Z
    then set_inFlight (set_isRendering s true) (Some (currentPage s - 1)%Z)
    else s.
Proof.
  destruct s as [doc page sc rendering flight acc lock drag]; simpl.
  intros -> -> Hback.
  assert (Hb : bool_decide (back ∈ ["ArrowLeft"; "ArrowUp"; "PageUp"]) = true).
  { simpl in Hback. destruct Hback as [<-|[<-|[<-|[]]]]; reflexivity. }
  unfold on_keydown. rewrite Hb. unfold prevPage, renderPage. simpl.
  destruct (1 <? page)%Z; reflexivity.
Qed.

Lemma forward_then_done
    (s : ViewerState) (numPages : Z) (ctrlKey : bool) (forward : string) :
  pdfDoc s = Some numPages ->
  isRendering s = false ->
  inFlight s = None ->
  (currentPage s <= numPages)%Z ->
  In forward ["ArrowRight"; "ArrowDown"; "PageDown"] ->
  on_render_done (step s (KeyDown forward ctrlKey))
  = set_currentPage s (Z.min (currentPage s + 1) numPages).
Proof.
  intros Hdoc Hr Hf Hpage Hforward.
  rewrite (forward_key_step s numPages ctrlKey forward Hdoc Hr Hforward).
  destruct s as [doc page sc rendering flight acc lock drag]; simpl in *. subst.
  destruct (page <? numPages)%Z eqn:H; unfold on_render_done, set_currentPage; simpl.
  - apply Z.ltb_lt in H. rewrite Z.min_l by lia. reflexivity.
  - apply Z.ltb_ge in H. rewrite Z.min_r by lia.
    replace numPages with page by lia. reflexivity.
Qed.

Lemma back_then_done
    (s : ViewerState) (numPages : Z) (ctrlKey : bool) (back : string) :
  pdfDoc s = Some numPages ->
  isRendering s = false ->
  inFlight s = None ->
  (1 <= currentPage s)%Z ->
  In back ["ArrowLeft"; "ArrowUp"; "PageUp"] ->
  on_render_done (step s (KeyDown back ctrlKey))
  = set_currentPage s (Z.max (currentPage s - 1) 1).
Proof.
  intros Hdoc Hr Hf Hpage Hback.
  rewrite (back_key_step s numPages ctrlKey back Hdoc Hr Hback).
  destruct s as [doc page sc rendering flight acc lock drag]; simpl in *. subst.
  destruct (1 <? page)%Z eqn:H; unfold on_render_done, set_currentPage; simpl.
  - apply Z.ltb_lt in H. rewrite Z.max_l by lia. reflexivity.
  - apply Z.ltb_ge in H. rewrite Z.max_r by lia.
    replace 1%Z with page by lia. reflexivity.
Qed.

(** X16. On an idle viewer of a loaded document, a next-page key followed
    by the end of the render shows page [min (p + 1) numPages], a
    previous-page key shows [max (p - 1) 1]: the keys do nothing at the
    last and at the first page, and going forward then back from a page that
    is not the last returns to it. *)
Theorem navigation_clamps
    (s : ViewerState) (numPages : Z) (ctrlKey : bool) (forward back : string) :
  pdfDoc s = Some numPages ->
  isRendering s = false ->
  inFlight s = None ->
  (1 <= currentPage s <= numPages)%Z ->
  In forward ["ArrowRight"; "ArrowDown"; "PageDown"] ->
  In back ["ArrowLeft"; "ArrowUp"; "PageUp"] ->
  currentPage (run [KeyDown forward ctrlKey; RenderDone] s)
  = Z.min (currentPage s + 1) numPages
  /\ currentPage (run [KeyDown back ctrlKey; RenderDone] s)
     = Z.max (currentPage s - 1) 1
  /\ (currentPage s = numPages -> step s (KeyDown forward ctrlKey) = s)
  /\ (currentPage s = 1%Z -> step s (KeyDown back ctrlKey) = s)
  /\ ((currentPage s < numPages)%Z ->
      run [KeyDown forward ctrlKey; RenderDone; KeyDown back ctrlKey; RenderDone] s
      = s).
Proof.
  intros Hdoc Hr Hf Hpage Hforward Hback.
  assert (Hnext := forward_then_done s numPages ctrlKey forward Hdoc Hr Hf
                     (proj2 Hpage) Hforward).
  assert (Hprev := back_then_done s numPages ctrlKey back Hdoc Hr Hf
                     (proj1 Hpage) Hback).
  split; [|split; [|split; [|split]]].
  - change (run [KeyDown forward ctrlKey; RenderDone] s)
      with (on_render_done (step s (KeyDown forward ctrlKey))).
    rewrite Hnext. reflexivity.
  - change (run [KeyDown back ctrlKey; RenderDone] s)
      with (on_render_done (step s (KeyDown back ctrlKey))).
    rewrite Hprev. reflexivity.
  - intros Hlast.
    rewrite (forward_key_step s numPages ctrlKey forward Hdoc Hr Hforward).
    rewrite Hlast, Z.ltb_irrefl. reflexivity.
  - intros Hfirst.
    rewrite (back_key_step s numPages ctrlKey back Hdoc Hr Hback).
    rewrite Hfirst. reflexivity.
  - intros Hlt.
    change (run [KeyDown forward ctrlKey; RenderDone; KeyDown back ctrlKey; RenderDone] s)
      with (on_render_done
              (step (on_render_done (step s (KeyDown forward ctrlKey)))
                    (KeyDown back ctrlKey))).
    rewrite Hnext.
    rewrite (back_then_done _ numPages ctrlKey back).
    + destruct s as [doc page sc rendering flight acc lock drag];
        unfold set_currentPage; simpl in *.
      rewrite Z.min_l by lia. rewrite Z.max_l by lia.
      replace (page + 1 - 1)%Z with page by lia. reflexivity.
    + destruct s; exact Hdoc.
    + destruct s; exact Hr.
    + destruct s; exact Hf.
    + destruct s; simpl in *. lia.
    + exact Hback.
Qed.

Lemma navigation_clamps_witness :
  let s := on_render_done (on_loaded fresh 3) in
  pdfDoc s = Some 3%Z
  /\ isRendering s = false
  /\ inFlight s = None
  /\ (1 <= currentPage s <= 3)%Z
  /\ currentPage (run [KeyDown "ArrowRight" false; RenderDone] s) = 2%Z
  /\ step s (KeyDown "PageUp" false) = s.
Proof.
  intros s.
  assert (Hpage : (1 <= currentPage s <= 3)%Z) by (vm_compute; split; discriminate).
  destruct (navigation_clamps s 3 false "ArrowRight" "PageUp"
              eq_refl eq_refl eq_refl Hpage
              (or_introl eq_refl) (or_intror (or_intror (or_introl eq_refl))))
    as (Hnext & _ & _ & Hfirst & _).
  split; [reflexivity|]. split; [reflexivity|]. split; [reflexivity|].
  split; [exact Hpage|]. split; [exact Hnext|]. apply Hfirst. reflexivity.
Defined.

(** ** A zoom before the document is loaded *)

Lemma step_stuck (s : ViewerState) (e : event) :
  isRendering s = true -> inFlight s = None ->
  isRendering (step s e) = true /\ inFlight (step s e) = None
  /\ currentPage (step s e) = currentPage s.
Proof.
  destruct s; simpl. intros -> ->.
  destruct e; unfold_handlers; simpl; split_branches; auto.
Qed.

(** X17. A zoom asked for before the document is loaded throws in
    [renderPage] after [isRendering] is set, and nothing ever clears the
    flag: once the document arrives its first page is not rendered, and no
    later key, wheel, scroll or zoom event starts a render or changes the
    page. *)
Theorem zoom_before_load_blocks_rendering
    (s : ViewerState) (op : zoom_op) (numPages : Z) (events : list event) :
  pdfDoc s = None ->
  isRendering s = false ->
  inFlight s = None ->
  snd (zoom s op) = Threw
  /\ let s' := run events (on_loaded (step s (ClickZoom op)) numPages) in
     isRendering s' = true
     /\ inFlight s' = None
     /\ currentPage s' = currentPage s.
Proof.
  intros Hdoc Hr Hf. split.
  { destruct s; simpl in *; subst. reflexivity. }
  cbv zeta.
  assert (H1 : isRendering (on_loaded (step s (ClickZoom op)) numPages) = true
               /\ inFlight (on_loaded (step s (ClickZoom op)) numPages) = None
               /\ currentPage (on_loaded (step s (ClickZoom op)) numPages)
                  = currentPage s).
  { destruct s; simpl in *; subst. repeat split. }
  generalize dependent (on_loaded (step s (ClickZoom op)) numPages).
  intros s1 (Hr1 & Hf1 & Hp1). rewrite <- Hp1. clear Hp1.
  revert s1 Hr1 Hf1. induction events as [|e events IH]; intros s1 Hr1 Hf1; [auto|].
  destruct (step_stuck s1 e Hr1 Hf1) as (Hr' & Hf' & Hp').
  simpl. rewrite <- Hp'. apply IH; assumption.
Qed.

Lemma zoom_before_load_blocks_rendering_witness :
  let s' := run [KeyDown "ArrowRight" false; RenderDone; ClickZoom ResetZoom]
                (on_loaded (step fresh (ClickZoom ZoomIn)) 4) in
  pdfDoc fresh = None
  /\ isRendering fresh = false
  /\ inFlight fresh = None
  /\ isRendering s' = true /\ inFlight s' = None /\ currentPage s' = 1%Z.
Proof.
  intros s'.
  split; [reflexivity|]. split; [reflexivity|]. split; [reflexivity|].
  exact (proj2 (zoom_before_load_blocks_rendering fresh ZoomIn 4
                  [KeyDown "ArrowRight" false; RenderDone; ClickZoom ResetZoom]
                  eq_refl eq_refl eq_refl)).
Defined.

(** ** The scroll lock *)

Lemma step_locked (s : ViewerState) (e : event) :
  isScrollNavigating s = true ->
  match e with LockTimer | KeyDown _ _ | ClickZoom _ => False | _ => True end ->
  isScrollNavigating (step s e) = true
  /\ (currentPage (step s e) = currentPage s
      \/ inFlight s = Some (currentPage (step s e)))
  /\ (inFlight (step s e) = inFlight s \/ inFlight (step s e) = None).
Proof.
  destruct s; simpl. intros -> He.
  destruct e; try contradiction; unfold_handlers; simpl;
    rewrite ?andb_false_r; split_branches; auto.
Qed.

(** X18. A wheel event that brings the accumulator past the threshold
    leaves the scroll lock set, and for as long as no timer frees the lock,
    wheel, scroll and mouse events turn no page: the page shown stays the
    same, or becomes the one whose render was already under way, and no
    render is started. *)
Theorem wheel_turns_no_page_while_locked
    (s : ViewerState) (deltaY : float) (events : list event) :
  PrimFloat.ltb 100%float
    (PrimFloat.abs (PrimFloat.add (scrollAccumulator s) deltaY)) = true ->
  Forall (fun e => match e with
                   | LockTimer | KeyDown _ _ | ClickZoom _ => False
                   | _ => True
                   end) events ->
  let s1 := step s (Wheel deltaY) in
  let s2 := run events s1 in
  isScrollNavigating s1 = true
  /\ isScrollNavigating s2 = true
  /\ (currentPage s2 = currentPage s1 \/ inFlight s1 = Some (currentPage s2))
  /\ (inFlight s2 = inFlight s1 \/ inFlight s2 = None).
Proof.
  intros Hcross Hall. cbv zeta.
  assert (Hlock : isScrollNavigating (step s (Wheel deltaY)) = true).
  { destruct s as [doc page sc rendering flight acc lock drag].
    destruct lock; unfold_handlers; simpl in *; rewrite Hcross; simpl;
      split_branches; reflexivity. }
  split; [exact Hlock|].
  generalize dependent (step s (Wheel deltaY)). clear s deltaY Hcross.
  induction Hall as [|e events He Hall IH]; intros s1 Hlock; [auto|].
  destruct (step_locked s1 e Hlock He) as (Hlock' & Hpage & Hflight).
  destruct (IH _ Hlock') as (Hlock'' & Hpage' & Hflight').
  simpl. split; [exact Hlock''|]. split.
  - destruct Hpage' as [H|H].
    + rewrite H. exact Hpage.
    + destruct Hflight as [H'|H']; [right; congruence|rewrite H' in H; discriminate].
  - destruct Hflight' as [H|H]; [|right; exact H].
    destruct Hflight as [H'|H']; [left|right]; congruence.
Qed.

Lemma wheel_turns_no_page_while_locked_witness :
  let s := on_render_done (on_loaded fresh 9) in
  let events := [RenderDone; Wheel 300%float; Wheel 300%float; AccumulatorTimer;
                 Wheel 300%float; ScrollSettled 80%float] in
  PrimFloat.ltb 100%float
    (PrimFloat.abs (PrimFloat.add (scrollAccumulator s) 120%float)) = true
  /\ currentPage (step s (Wheel 120%float)) = 1%Z
  /\ inFlight (step s (Wheel 120%float)) = Some 2%Z
  /\ currentPage (run events (step s (Wheel 120%float))) = 2%Z
  /\ inFlight (run events (step s (Wheel 120%float))) = None.
Proof.
  intros s events.
  assert (Hcross : PrimFloat.ltb 100%float
            (PrimFloat.abs (PrimFloat.add (scrollAccumulator s) 120%float)) = true)
    by reflexivity.
  assert (Hall : Forall (fun e => match e with
                                  | LockTimer | KeyDown _ _ | ClickZoom _ => False
                                  | _ => True
                                  end) events)
    by (repeat constructor).
  destruct (wheel_turns_no_page_while_locked s 120%float events Hcross Hall)
    as (_ & _ & _ & _).
  repeat split.
Defined.

End SessionFacts.
